(** * sitemap_gen.py: the crawl engine, embedded and verified

    A shallow embedding of [src/sitemap_gen.py]: the link extractor
    ([MyHTMLParser.handle_starttag]), the frontier loop ([parsePages],
    [getUrlToProcess]) and the option handling of [main].

    Python values are modelled as follows.
    - [str] is [string]; [str.upper] is modelled on the ASCII repertoire
      (letters a to z), every other character is left as it is.
    - [bytes] is [list byte].
    - the [dict] [pageMap] keeps insertion order (the order decides which URL
      [getUrlToProcess] returns), so it is an association list without
      duplicate keys; [EMPTY] is the shared sentinel, a visited entry carries
      the date of the fetch.
    - exceptions are the [Raise] side of [result].
    - the libraries the script calls ([urllib.parse], [html.parser],
      [requests] behind [HTMLLoad.get], [reppy]) are the fields of the class
      [Library]; those that can raise return a [result]. *)

From Stdlib Require Import List String Ascii ZArith Lia Bool Arith.
From Stdlib Require Import Strings.Byte.
Import ListNotations.
Open Scope string_scope.
Open Scope Z_scope.

Set Implicit Arguments.

(* ================================================================== *)
(** ** Exceptions and results *)

Inductive exn : Type :=
| IndexError
| AttributeError
| KeyError
| ValueError
| UnicodeDecodeError
| UnicodeEncodeError.

(** [except UnicodeError] catches the class and its subclasses. *)
Definition is_UnicodeError (e : exn) : bool :=
  match e with
  | UnicodeDecodeError | UnicodeEncodeError => true
  | _ => false
  end.

Inductive result (A : Type) : Type :=
| Ok (a : A)
| Raise (e : exn).

Arguments Ok {A} a.
Arguments Raise {A} e.

Definition bind {A B : Type} (r : result A) (k : A -> result B) : result B :=
  match r with
  | Ok a => k a
  | Raise e => Raise e
  end.

Notation "x <- r ;; k" := (bind r (fun x => k))
  (at level 61, r at next level, right associativity).

(** Python's short-circuit [a and b] where evaluating [b] may raise. *)
Definition and_then (a : bool) (b : result bool) : result bool :=
  if a then b else Ok false.

(* ================================================================== *)
(** ** Strings *)

Module PyStr.

Definition upper_ascii (c : ascii) : ascii :=
  let n := nat_of_ascii c in
  if ((97 <=? n)%nat && (n <=? 122)%nat)%bool then ascii_of_nat (n - 32) else c.

Fixpoint upper (s : string) : string :=
  match s with
  | EmptyString => EmptyString
  | String c r => String (upper_ascii c) (upper r)
  end.

Fixpoint startswith (s p : string) : bool :=
  match p, s with
  | EmptyString, _ => true
  | String _ _, EmptyString => false
  | String a p', String b s' => if Ascii.eqb a b then startswith s' p' else false
  end.

(** [s.find(sub)]: the lowest index where [sub] occurs in [s], or -1. *)
Fixpoint find (s sub : string) : Z :=
  if startswith s sub then 0
  else match s with
       | EmptyString => -1
       | String _ r => let i := find r sub in if i =? -1 then -1 else i + 1
       end.

Definition rev (s : string) : string :=
  string_of_list_ascii (List.rev (list_ascii_of_string s)).

(** [s.endswith(suffix)] for one suffix. *)
Definition endswith1 (s suffix : string) : bool :=
  startswith (rev s) (rev suffix).

(** [s.endswith(t)] for a tuple of suffixes: true when any of them matches. *)
Definition endswith (s : string) (t : list string) : bool :=
  existsb (endswith1 s) t.

End PyStr.

(* ================================================================== *)
(** ** The insertion-ordered dict *)

Section Dict.

Variable V : Type.

Definition dict := list (string * V).

Definition keys (d : dict) : list string := map fst d.

(** [len(d)] *)
Definition len (d : dict) : Z := Z.of_nat (List.length d).

(** [k in d] *)
Definition dict_mem (k : string) (d : dict) : bool :=
  existsb (fun kv => String.eqb (fst kv) k) d.

(** [d[k]] *)
Fixpoint dict_get (k : string) (d : dict) : result V :=
  match d with
  | [] => Raise KeyError
  | (k', v) :: r => if String.eqb k' k then Ok v else dict_get k r
  end.

(** [d[k] = v]: an existing key keeps its position, a new key goes last. *)
Fixpoint dict_set (k : string) (v : V) (d : dict) : dict :=
  match d with
  | [] => [(k, v)]
  | (k', v') :: r =>
      if String.eqb k' k then (k', v) :: r else (k', v') :: dict_set k v r
  end.

Definition dict_remove (k : string) (d : dict) : dict :=
  filter (fun kv => negb (String.eqb (fst kv) k)) d.

(** [del d[k]]: raises [KeyError] when the key is absent. *)
Definition dict_del (k : string) (d : dict) : result dict :=
  if dict_mem k d then Ok (dict_remove k d) else Raise KeyError.

End Dict.

Arguments dict_mem {V} k d.
Arguments dict_set {V} k v d.
Arguments dict_del {V} k d.
Arguments dict_get {V} k d.
Arguments dict_remove {V} k d.
Arguments keys {V} d.
Arguments len {V} d.

(* ================================================================== *)
(** ** The libraries the script calls *)

(** One attribute as [html.parser] reports it: the name and the value, [None]
    for an attribute written without a value. *)
Definition attr : Type := string * option string.

(** One call of [handle_starttag]: the tag name and its attribute list. *)
Definition starttag : Type := string * list attr.

(** What [parsePages] reads from the loader after [loader.get(url)]: the
    returned page ([None] when the request failed), [loader.redirect] and
    [loader.date]. *)
Record Loaded (datetime : Type) : Type := mkLoaded {
  page : option (list byte);
  redirect : option string;
  date : datetime
}.

Arguments mkLoaded {datetime} page redirect date.
Arguments page {datetime} l.
Arguments redirect {datetime} l.
Arguments date {datetime} l.

Class Library : Type := {
  (** [datetime.datetime] *)
  datetime : Type;
  (** the [HTMLLoad] object together with the network behind it *)
  Loader : Type;
  (** [reppy.robots.Robots] *)
  Robots : Type;
  (** [urllib.parse.urldefrag(u)[0]] *)
  urldefrag : option string -> result string;
  (** [urllib.parse.urljoin(base, u)] *)
  urljoin : string -> string -> result string;
  (** [urllib.parse.urlsplit(u)[1]] *)
  netloc : string -> result string;
  (** [urllib.parse.urlparse(u)[2]] *)
  urlpath : string -> result string;
  (** [loader.get(url, allow_redirects)]; [HTMLLoad.get] catches the
      exceptions of [requests] and lets any other through *)
  loader_get : Loader -> string -> bool -> result (Loader * Loaded datetime);
  (** [page.decode("utf-8", errors='strict')]; [None] is UnicodeDecodeError *)
  decode_utf8 : list byte -> option string;
  (** the calls of [handle_starttag] made by [parser.feed(text)] and
      [parser.close()], in document order *)
  start_tags : string -> list starttag;
  (** [Robots.parse(robotUrl, page)] *)
  Robots_parse : string -> list byte -> result Robots;
  (** [rp.allowed(url, agent)] *)
  allowed : Robots -> string -> string -> result bool
}.

(* ================================================================== *)
(** ** The crawler *)

Section Crawler.

Context {L : Library}.

(** A frontier entry: the sentinel [EMPTY] or the date of the visit. *)
Inductive value : Type :=
| EMPTY
| Date (d : datetime).

Definition is_EMPTY (v : value) : bool :=
  match v with EMPTY => true | Date _ => false end.

Definition PageMap : Type := dict value.

(** [l.count(x) > 0] and [x in l] on a list of strings. *)
Definition str_in (x : string) (l : list string) : bool :=
  existsb (String.eqb x) l.

(** Truth value of a [str]-or-[None]. *)
Definition truthy (s : option string) : bool :=
  match s with
  | None => false
  | Some s => negb (String.eqb s "")
  end.

(** [newUrl] is an attribute value or [loader.redirect], so it can be [None]. *)
Definition joinUrls (baseUrl : string) (newUrl : option string) : result string :=
  helpUrl <- urldefrag newUrl ;;
  urljoin baseUrl helpUrl.

Definition getRobotParser (loader : Loader) (startUrl : string)
  : result (Loader * option Robots) :=
  robotUrl <- urljoin startUrl "/robots.txt" ;;
  g <- loader_get loader robotUrl true ;;
  match page (snd g) with
  | None => Ok (fst g, None)
  | Some pg =>
      rp <- Robots_parse robotUrl pg ;;
      Ok (fst g, Some rp)
  end.

(** *** MyHTMLParser *)

Record MyHTMLParser : Type := mkParser {
  pageMap : PageMap;
  redirects : list string;
  baseUrl : string;
  server : string;
  maxUrls : Z;
  blockExtensions : list string;
  robotParser : option Robots
}.

Definition MyHTMLParser_init (pageMap : PageMap) (redirects : list string)
    (baseUrl : string) (maxUrls : Z) (blockExtensions : list string)
    (robotParser : option Robots) : result MyHTMLParser :=
  server <- netloc baseUrl ;;
  Ok (mkParser pageMap redirects baseUrl server maxUrls blockExtensions robotParser).

Definition set_baseUrl (self : MyHTMLParser) (b : string) : MyHTMLParser :=
  mkParser (pageMap self) (redirects self) b (server self) (maxUrls self)
           (blockExtensions self) (robotParser self).

Definition set_pageMap (self : MyHTMLParser) (pm : PageMap) : MyHTMLParser :=
  mkParser pm (redirects self) (baseUrl self) (server self) (maxUrls self)
           (blockExtensions self) (robotParser self).

Definition hasBlockedExtension (self : MyHTMLParser) (url : string) : result bool :=
  p <- urlpath url ;;
  let path := PyStr.upper p in
  Ok (PyStr.endswith path (blockExtensions self)).

(** [v.upper()] on an attribute value: [None] has no method [upper]. *)
Definition value_upper (v : option string) : result string :=
  match v with
  | None => Raise AttributeError
  | Some s => Ok (PyStr.upper s)
  end.

(** The outcome of the [for attr in attrs] loop of the [A] branch: it left
    through [return] at a nofollow, or ran to its end with [url]. *)
Inductive scanned : Type :=
| NoFollow
| Url (url : string).

Fixpoint scan_attrs (base : string) (attrs : list attr) (url : string)
  : result scanned :=
  match attrs with
  | [] => Ok (Url url)
  | a :: rest =>
      nofollow <- and_then (String.eqb (PyStr.upper (fst a)) "REL")
                    (v <- value_upper (snd a) ;;
                     Ok (negb (PyStr.find v "NOFOLLOW" =? -1))) ;;
      if nofollow then Ok NoFollow
      else
        link <- and_then (String.eqb (PyStr.upper (fst a)) "HREF")
                  (v <- value_upper (snd a) ;;
                   Ok (PyStr.find v "MAILTO:" =? -1)) ;;
        if link then
          url' <- joinUrls base (snd a) ;;
          scan_attrs base rest url'
        else scan_attrs base rest url
  end.

(** The [BASE] branch: [attrs[0]] raises IndexError on an empty list. *)
Definition handle_base (tag : string) (attrs : list attr) (self : MyHTMLParser)
  : result MyHTMLParser :=
  if String.eqb (PyStr.upper tag) "BASE" then
    match attrs with
    | [] => Raise IndexError
    | a0 :: _ =>
        if String.eqb (PyStr.upper (fst a0)) "HREF" then
          b <- joinUrls (baseUrl self) (snd a0) ;;
          Ok (set_baseUrl self b)
        else Ok self
    end
  else Ok self.

(** The checks between the loop and the insertion: [false] stands for one
    of the [return] statements, [true] for reaching the insertion. *)
Definition want_link (self : MyHTMLParser) (url : string) : result bool :=
  if String.eqb url "" then Ok false
  else
    nl <- netloc url ;;
    if negb (String.eqb nl (server self)) then Ok false
    else
      blocked <- hasBlockedExtension self url ;;
      if (blocked || str_in url (redirects self))%bool then Ok false
      else
        match robotParser self with
        | None => Ok true
        | Some rp =>
            ok <- allowed rp url "sitemap_gen" ;;
            Ok ok
        end.

Definition handle_a (tag : string) (attrs : list attr) (self : MyHTMLParser)
  : result MyHTMLParser :=
  if String.eqb (PyStr.upper tag) "A" then
    sc <- scan_attrs (baseUrl self) attrs "" ;;
    match sc with
    | NoFollow => Ok self
    | Url url =>
        want <- want_link self url ;;
        if want then
          if negb (dict_mem url (pageMap self))
          then Ok (set_pageMap self (dict_set url EMPTY (pageMap self)))
          else Ok self
        else Ok self
    end
  else Ok self.

(** [handle_starttag] returns the parser object as the call leaves it and
    the exception, if one is raised. *)
Definition handle_starttag (tag : string) (attrs : list attr) (self : MyHTMLParser)
  : MyHTMLParser * result unit :=
  if len (pageMap self) >=? maxUrls self then (self, Ok tt)
  else
    match handle_base tag attrs self with
    | Raise e => (self, Raise e)
    | Ok self1 =>
        match handle_a tag attrs self1 with
        | Raise e => (self1, Raise e)
        | Ok self2 => (self2, Ok tt)
        end
    end.

(** [parser.feed(text); parser.close()] as the sequence of its
    [handle_starttag] calls; the first exception ends it. *)
Fixpoint feed (tags : list starttag) (self : MyHTMLParser)
  : MyHTMLParser * result unit :=
  match tags with
  | [] => (self, Ok tt)
  | t :: rest =>
      match handle_starttag (fst t) (snd t) self with
      | (self', Ok _) => feed rest self'
      | (self', Raise e) => (self', Raise e)
      end
  end.

(** *** parsePages *)

Fixpoint first_EMPTY (pm : PageMap) (ks : list string) : option string :=
  match ks with
  | [] => None
  | i :: r =>
      match dict_get i pm with
      | Ok EMPTY => Some i
      | _ => first_EMPTY pm r
      end
  end.

Definition getUrlToProcess (pm : PageMap) : option string :=
  first_EMPTY pm (keys pm).

(** The objects the loop of [parsePages] mutates. *)
Record State : Type := mkState {
  st_loader : Loader;
  st_pageMap : PageMap;
  st_redirects : list string
}.

(** The locals of [parsePages] that stay fixed during the loop. *)
Record Env : Type := mkEnv {
  env_server : string;
  env_robotParser : option Robots;
  env_maxUrls : Z;
  env_blockExtensions : list string
}.

(** The condition of lines 284-287, with Python's short-circuit order. *)
Definition redirect_wanted (env : Env) (pm : PageMap) (reds : list string)
    (newUrl : string) : result bool :=
  nl <- netloc newUrl ;;
  if negb (String.eqb nl (env_server env)) then Ok false
  else if dict_mem newUrl pm then Ok false
  else if str_in newUrl reds then Ok false
  else match env_robotParser env with
       | None => Ok true
       | Some rp => allowed rp newUrl "sitemap_gen"
       end.

(** One pass through the body of [while True], for the [url] that
    [getUrlToProcess] returned. *)
Definition iteration (env : Env) (url : string) (st : State) : result State :=
  g <- loader_get (st_loader st) url false ;;
  let loader := fst g in
  let got := snd g in
  match page got with
  | None =>
      pm <- dict_del url (st_pageMap st) ;;
      Ok (mkState loader pm (st_redirects st))
  | Some pg =>
      if truthy (redirect got) then
        newUrl <- urldefrag (redirect got) ;;
        pm <- dict_del url (st_pageMap st) ;;
        let reds := (st_redirects st ++ [url])%list in
        want <- redirect_wanted env pm reds newUrl ;;
        if want then Ok (mkState loader (dict_set newUrl EMPTY pm) reds)
        else Ok (mkState loader pm reds)
      else
        let pm := dict_set url (Date (date got)) (st_pageMap st) in
        parser <- MyHTMLParser_init pm (st_redirects st) url (env_maxUrls env)
                    (env_blockExtensions env) (env_robotParser env) ;;
        match decode_utf8 pg with
        | None => Ok (mkState loader pm (st_redirects st))
        | Some text =>
            match feed (start_tags text) parser with
            | (parser', Ok _) =>
                Ok (mkState loader (pageMap parser') (st_redirects st))
            | (parser', Raise e) =>
                if is_UnicodeError e
                then Ok (mkState loader (pageMap parser') (st_redirects st))
                else Raise e
            end
        end
  end.

(** The [while True] loop; [None] when the fuel runs out first. *)
Fixpoint crawl (fuel : nat) (env : Env) (st : State) : option (result PageMap) :=
  match fuel with
  | O => None
  | S n =>
      match getUrlToProcess (st_pageMap st) with
      | None => Some (Ok (st_pageMap st))
      | Some url =>
          match iteration env url st with
          | Raise e => Some (Raise e)
          | Ok st' => crawl n env st'
          end
      end
  end.

(** The part of [parsePages] before the loop. *)
Definition parsePages_start (loader : Loader) (startUrl : string) (maxUrls : Z)
    (blockExtensions : list string) : result (Env * State) :=
  let pm := dict_set startUrl EMPTY [] in
  let reds := [] in
  r <- getRobotParser loader startUrl ;;
  server <- netloc startUrl ;;
  Ok (mkEnv server (snd r) maxUrls blockExtensions, mkState (fst r) pm reds).

Definition parsePages (fuel : nat) (loader : Loader) (startUrl : string)
    (maxUrls : Z) (blockExtensions : list string) : option (result PageMap) :=
  match parsePages_start loader startUrl maxUrls blockExtensions with
  | Raise e => Some (Raise e)
  | Ok (env, st) => crawl fuel env st
  end.

End Crawler.

(* ================================================================== *)
(** ** Running the loop *)

Section Running.

Context {L : Library}.

(** One pass of the loop when there is a URL to process and the body does
    not raise. *)
Definition loop_body (env : Env) (st : State) : option State :=
  match getUrlToProcess (st_pageMap st) with
  | None => None
  | Some url =>
      match iteration env url st with
      | Ok st' => Some st'
      | Raise _ => None
      end
  end.

(** The state after [n] passes of the loop. *)
Fixpoint run (n : nat) (env : Env) (st : State) : option State :=
  match n with
  | O => Some st
  | S k =>
      match loop_body env st with
      | Some st1 => run k env st1
      | None => None
      end
  end.

(** No entry of the mapping is the sentinel. *)
Definition all_visited (pm : PageMap) : Prop :=
  forall k v, In (k, v) pm -> v <> EMPTY.

Definition count_EMPTY (pm : PageMap) : nat :=
  List.length (filter (fun kv => is_EMPTY (snd kv)) pm).

Definition count_visited (pm : PageMap) : nat :=
  List.length (filter (fun kv => negb (is_EMPTY (snd kv))) pm).

End Running.

(* ================================================================== *)
(** ** What a page can contribute: the candidate links *)

Section Candidates.

Context {L : Library}.

(** The base URL after a tag, whatever the state of the frontier. *)
Definition base_after (base : string) (t : starttag) : result string :=
  if String.eqb (PyStr.upper (fst t)) "BASE" then
    match snd t with
    | [] => Raise IndexError
    | a0 :: _ =>
        if String.eqb (PyStr.upper (fst a0)) "HREF"
        then joinUrls base (snd a0)
        else Ok base
    end
  else Ok base.

(** The URLs the [A] tags of a page resolve to, in document order, up to the
    first exception. *)
Fixpoint candidates (base : string) (tags : list starttag) : list string :=
  match tags with
  | [] => []
  | t :: rest =>
      match base_after base t with
      | Raise _ => []
      | Ok base' =>
          if String.eqb (PyStr.upper (fst t)) "A" then
            match scan_attrs base' (snd t) "" with
            | Raise _ => []
            | Ok NoFollow => candidates base' rest
            | Ok (Url u) => u :: candidates base' rest
            end
          else candidates base' rest
      end
  end.

(** The URLs that processing [u] can add to the frontier, when the loader
    answers [got] for it. *)
Definition discovered (u : string) (got : Loaded datetime) : list string :=
  match page got with
  | None => []
  | Some pg =>
      if truthy (redirect got) then
        match urldefrag (redirect got) with
        | Ok n => [n]
        | Raise _ => []
        end
      else
        match decode_utf8 pg with
        | None => []
        | Some text => candidates u (start_tags text)
        end
  end.

(** [U] is a finite universe for the site [server] answering by [respond]:
    every same-site URL discovered from a member is a member. *)
Definition closed_universe (respond : string -> Loaded datetime) (server : string)
    (U : list string) : bool :=
  forallb
    (fun u =>
       forallb
         (fun v =>
            match netloc v with
            | Ok nl => if String.eqb nl server then str_in v U else true
            | Raise _ => true
            end)
         (discovered u (respond u)))
    U.

(** The crawl that starts at [startUrl] stays inside the finite list [U]. *)
Definition finite_site (respond : string -> Loaded datetime) (startUrl : string)
    (U : list string) : bool :=
  (str_in startUrl U &&
   match netloc startUrl with
   | Ok srv => closed_universe respond srv U
   | Raise _ => true
   end)%bool.

(** The URLs that are done with: visited or redirected. *)
Definition settled (st : State) : nat :=
  (count_visited (st_pageMap st) + List.length (st_redirects st))%nat.

(** The quantity that every pass of the loop decreases, for a universe of
    [N] URLs: settling a URL is worth more than all the unvisited entries
    there can be. *)
Definition potential (N : nat) (st : State) : nat :=
  ((N - settled st) * (N + 1) + count_EMPTY (st_pageMap st))%nat.

End Candidates.

(* ================================================================== *)
(** ** Attribute scans, as the code does them and as the specification words them *)

(** The code's test for a nofollow attribute. *)
Definition is_nofollow (a : attr) : bool :=
  match snd a with
  | Some v => (String.eqb (PyStr.upper (fst a)) "REL"
               && negb (PyStr.find (PyStr.upper v) "NOFOLLOW" =? -1))%bool
  | None => false
  end.

(** The code's test for a usable link: an [href] whose value has no
    occurrence of [mailto:] at any position, in any letter case. *)
Definition is_link (a : attr) : bool :=
  match snd a with
  | Some v => (String.eqb (PyStr.upper (fst a)) "HREF"
               && (PyStr.find (PyStr.upper v) "MAILTO:" =? -1))%bool
  | None => false
  end.

(** A [rel] or [href] attribute without a value makes [attr[1].upper()] raise. *)
Definition needs_value (a : attr) : bool :=
  (String.eqb (PyStr.upper (fst a)) "REL" || String.eqb (PyStr.upper (fst a)) "HREF")%bool.

Definition values_present (attrs : list attr) : bool :=
  forallb (fun a => match snd a with
                    | Some _ => true
                    | None => negb (needs_value a)
                    end) attrs.

(** The last usable link of the attribute list. *)
Definition last_link (attrs : list attr) : option string :=
  match List.find is_link (List.rev attrs) with
  | Some a => snd a
  | None => None
  end.

(** As the specification words it: the first [href] whose value does not
    begin with [mailto:]. *)
Definition spec_first_href (attrs : list attr) : option string :=
  match List.find
          (fun a => match snd a with
                    | Some v => (String.eqb (PyStr.upper (fst a)) "HREF"
                                 && negb (PyStr.startswith v "mailto:"))%bool
                    | None => false
                    end) attrs with
  | Some a => snd a
  | None => None
  end.

Definition is_Ok {A : Type} (r : result A) : bool :=
  match r with Ok _ => true | Raise _ => false end.

(** [Some v] when the tag is a [base] tag whose first attribute is [href]
    with value [v]. *)
Definition base_href (t : starttag) : option (option string) :=
  if String.eqb (PyStr.upper (fst t)) "BASE" then
    match snd t with
    | a0 :: _ => if String.eqb (PyStr.upper (fst a0)) "HREF" then Some (snd a0) else None
    | [] => None
    end
  else None.

Section Resolving.

Context {L : Library}.

(** Every usable link of the list resolves against [base] without raising. *)
Definition joins_ok (base : string) (attrs : list attr) : bool :=
  forallb (fun a => if is_link a then is_Ok (joinUrls base (snd a)) else true) attrs.

(** Resolving the values of [vs] one after the other, each against the
    result of the one before. *)
Fixpoint fold_join (base : string) (vs : list (option string)) : result string :=
  match vs with
  | [] => Ok base
  | v :: rest => b <- joinUrls base v ;; fold_join b rest
  end.

End Resolving.

(* ================================================================== *)
(** ** main: the command line *)

(** The builtins [int] and [float]; of a float only the two comparisons of
    [main] are needed. *)
Class Builtins : Type := {
  pyfloat : Type;
  py_int : string -> result Z;
  py_float : string -> result pyfloat;
  (** the literal [0.0] *)
  float_zero : pyfloat;
  (** [x < 0.0] *)
  float_lt_zero : pyfloat -> bool;
  (** [x > 1.0] *)
  float_gt_one : pyfloat -> bool
}.

Definition allowedChangefreq : list string :=
  ["always"; "hourly"; "daily"; "weekly"; "monthly"; "yearly"; "never"].

(** What [main] writes to [sys.stderr] before [return 1]. *)
Inductive message : Type :=
| HelpText
| AllowedChangefreq
(** "The maximum number of URLs must be between 1 and 50000" *)
| MaxUrlsRange
(** "Priority must be between 0.0 and 1.0" *)
| PriorityRange
(** "Please provide a sensible file name" *)
| SensibleFileName
(** "You must provide the starting URL." *)
| NoStartUrl.

Section Main.

Context {B : Builtins}.

(** The locals of [main] that the options set. *)
Record Options : Type := mkOptions {
  opt_blockExtensions : list string;
  opt_changefreq : string;
  opt_priority : pyfloat;
  opt_fileName : string;
  opt_maxUrls : Z;
  opt_ratelimit : option pyfloat
}.

Definition default_options : Options :=
  mkOptions [] "" float_zero "sitemap.xml" 1000 None.

(** The body of [for opt, arg in opts]: [inl m] is [return 1] after writing
    [m], [inr o] goes on with the next option. *)
Definition handle_opt (opt arg : string) (o : Options) : result (message + Options) :=
  if str_in opt ["-h"; "--help"] then Ok (inl HelpText)
  else if str_in opt ["-b"; "--block"] then
    Ok (inr (mkOptions (opt_blockExtensions o ++ [String.append "." (PyStr.upper arg)])%list
               (opt_changefreq o) (opt_priority o) (opt_fileName o)
               (opt_maxUrls o) (opt_ratelimit o)))
  else if str_in opt ["-c"; "--changefreq"] then
    if str_in arg allowedChangefreq then
      Ok (inr (mkOptions (opt_blockExtensions o) arg (opt_priority o)
                 (opt_fileName o) (opt_maxUrls o) (opt_ratelimit o)))
    else Ok (inl AllowedChangefreq)
  else if str_in opt ["-m"; "--max-urls"] then
    maxUrls <- py_int arg ;;
    if ((maxUrls <? 0) || (maxUrls >? 50000))%bool then Ok (inl MaxUrlsRange)
    else Ok (inr (mkOptions (opt_blockExtensions o) (opt_changefreq o)
                    (opt_priority o) (opt_fileName o) maxUrls (opt_ratelimit o)))
  else if str_in opt ["-p"; "--priority"] then
    priority <- py_float arg ;;
    if (float_lt_zero priority || float_gt_one priority)%bool then Ok (inl PriorityRange)
    else Ok (inr (mkOptions (opt_blockExtensions o) (opt_changefreq o)
                    priority (opt_fileName o) (opt_maxUrls o) (opt_ratelimit o)))
  else if str_in opt ["-r"; "--ratelimit"] then
    ratelimit <- py_float arg ;;
    Ok (inr (mkOptions (opt_blockExtensions o) (opt_changefreq o)
               (opt_priority o) (opt_fileName o) (opt_maxUrls o) (Some ratelimit)))
  else if str_in opt ["-o"; "--output-file"] then
    if str_in arg [""; "."; ".."] then Ok (inl SensibleFileName)
    else Ok (inr (mkOptions (opt_blockExtensions o) (opt_changefreq o)
                    (opt_priority o) arg (opt_maxUrls o) (opt_ratelimit o)))
  else Ok (inr o).

Fixpoint handle_opts (opts : list (string * string)) (o : Options)
  : result (message + Options) :=
  match opts with
  | [] => Ok (inr o)
  | (opt, arg) :: rest =>
      r <- handle_opt opt arg o ;;
      match r with
      | inl m => Ok (inl m)
      | inr o' => handle_opts rest o'
      end
  end.

(** [main] up to the call of [parsePages]: it returns 1 after a message, or
    starts the crawl of [args[0]] with the options read. [opts] and [args]
    are what [getopt.getopt] returned. *)
Inductive main_outcome : Type :=
| Return1 (m : message)
| Crawl (startUrl : string) (o : Options).

Definition main (opts : list (string * string)) (args : list string)
  : result main_outcome :=
  r <- handle_opts opts default_options ;;
  match r with
  | inl m => Ok (Return1 m)
  | inr o =>
      match args with
      | [] => Ok (Return1 NoStartUrl)
      | startUrl :: _ => Ok (Crawl startUrl o)
      end
  end.

End Main.

(* ================================================================== *)
(** ** A concrete site

    An instance of the libraries, used to run the model on examples. Its
    functions agree with the Python libraries on the inputs of the examples
    below: lower-case [http://host/path] URLs without parameters or dot
    segments, joined with an empty string, an absolute [http] URL, an
    absolute path or a plain relative path; ASCII pages and the byte 0xFF;
    decimal integers. *)

Module Site.

Fixpoint drop (n : nat) (s : string) : string :=
  match n, s with
  | O, _ => s
  | S k, String _ r => drop k r
  | S _, EmptyString => EmptyString
  end.

(** The part of [s] before the first character of [stops]. *)
Fixpoint take_until (stops : list ascii) (s : string) : string :=
  match s with
  | EmptyString => EmptyString
  | String c r =>
      if existsb (Ascii.eqb c) stops then EmptyString
      else String c (take_until stops r)
  end.

(** The part of [s] from the first character of [stops] on. *)
Fixpoint drop_until (stops : list ascii) (s : string) : string :=
  match s with
  | EmptyString => EmptyString
  | String c r =>
      if existsb (Ascii.eqb c) stops then s else drop_until stops r
  end.

Definition split_scheme (s : string) : option (string * string) :=
  if PyStr.startswith s "http://" then Some ("http://", drop 7 s)
  else if PyStr.startswith s "https://" then Some ("https://", drop 8 s)
  else None.

Definition site_netloc (s : string) : string :=
  match split_scheme s with
  | Some (_, r) => take_until ["/"; "?"; "#"]%char r
  | None => ""
  end.

Definition site_path (s : string) : string :=
  match split_scheme s with
  | Some (_, r) => take_until ["?"; "#"]%char (drop_until ["/"; "?"; "#"]%char r)
  | None => take_until ["?"; "#"]%char s
  end.

Definition site_urldefrag (u : option string) : string :=
  match u with
  | None => ""
  | Some s => take_until ["#"]%char s
  end.

(** The directory of a path: up to and including its last slash; the root
    for a path without one. *)
Definition dirname (p : string) : string :=
  match PyStr.rev (drop_until ["/"]%char (PyStr.rev p)) with
  | EmptyString => "/"
  | d => d
  end.

Definition site_urljoin (base u : string) : string :=
  if String.eqb u "" then base
  else match split_scheme u with
       | Some _ => u
       | None =>
           match split_scheme base with
           | Some (scheme, _) =>
               if PyStr.startswith u "/" then scheme ++ site_netloc base ++ u
               else scheme ++ site_netloc base ++ dirname (site_path base) ++ u
           | None => u
           end
       end.

Definition is_ascii_byte (b : byte) : bool := (Byte.to_nat b <? 128)%nat.

Definition site_decode (bs : list byte) : option string :=
  if forallb is_ascii_byte bs then Some (string_of_list_byte bs) else None.

(** The documents of the examples and the [handle_starttag] calls that
    [html.parser] makes on them. *)
Definition documents : list (string * list starttag) :=
  [ ("", []);
    ("<a href='/a'><a href='/old'><a href='/bad'><a href='http://other/x'><a href='/gone'>",
     [ ("a", [("href", Some "/a")]);
       ("a", [("href", Some "/old")]);
       ("a", [("href", Some "/bad")]);
       ("a", [("href", Some "http://other/x")]);
       ("a", [("href", Some "/gone")]) ]);
    ("<a href='/old'><a href='/'>",
     [ ("a", [("href", Some "/old")]);
       ("a", [("href", Some "/")]) ]);
    ("<a href='/old'><a rel='nofollow' href='/secret'>",
     [ ("a", [("href", Some "/old")]);
       ("a", [("rel", Some "nofollow"); ("href", Some "/secret")]) ]);
    ("<a href='/one'><base><a href='/two'>",
     [ ("a", [("href", Some "/one")]);
       ("base", []);
       ("a", [("href", Some "/two")]) ]) ].

Fixpoint lookup {A : Type} (k : string) (t : list (string * A)) : option A :=
  match t with
  | [] => None
  | (k', v) :: r => if String.eqb k' k then Some v else lookup k r
  end.

Definition site_start_tags (text : string) : list starttag :=
  match lookup text documents with
  | Some tags => tags
  | None => []
  end.

(** A response of the site: the request fails, redirects, or succeeds with
    a body; the date is a day number. *)
Definition failed : Loaded nat := mkLoaded None None 0%nat.

Definition redirected (target : string) : Loaded nat :=
  mkLoaded (Some []) (Some target) 0%nat.

Definition served (day : nat) (body : list byte) : Loaded nat :=
  mkLoaded (Some body) None day.

(** The web of the examples. [http://h/] is a small site with a redirect, a
    page that is not UTF-8 and a dead link; [http://b/] is one page with an
    empty [base] tag. *)
Definition web (url : string) : Loaded nat :=
  if String.eqb url "http://h/" then
    served 1 (list_byte_of_string
      "<a href='/a'><a href='/old'><a href='/bad'><a href='http://other/x'><a href='/gone'>")
  else if String.eqb url "http://h/a" then
    served 2 (list_byte_of_string "<a href='/old'><a href='/'>")
  else if String.eqb url "http://h/old" then
    redirected "http://h/new#top"
  else if String.eqb url "http://h/new" then
    served 3 (list_byte_of_string "<a href='/old'><a rel='nofollow' href='/secret'>")
  else if String.eqb url "http://h/bad" then
    served 4 [xff]
  else if String.eqb url "http://b/" then
    served 5 (list_byte_of_string "<a href='/one'><base><a href='/two'>")
  else if String.eqb url "http://r/" then
    redirected "http://r/next"
  else if String.eqb url "http://r/next" then
    served 6 []
  else failed.

(** The loader counts its requests; the answer depends on the URL only.
    There is no robots.txt on these hosts, so [Robots] is never built. *)
#[export] Instance site : Library := {|
  datetime := nat;
  Loader := nat;
  Robots := unit;
  urldefrag := fun u => Ok (site_urldefrag u);
  urljoin := fun b u => Ok (site_urljoin b u);
  netloc := fun u => Ok (site_netloc u);
  urlpath := fun u => Ok (site_path u);
  loader_get := fun n url _ => Ok (S n, web url);
  decode_utf8 := site_decode;
  start_tags := site_start_tags;
  Robots_parse := fun _ _ => Ok tt;
  allowed := fun _ _ _ => Ok true
|}.

Fixpoint digits (s : string) (acc : Z) : result Z :=
  match s with
  | EmptyString => Ok acc
  | String c r =>
      let n := nat_of_ascii c in
      if ((48 <=? n)%nat && (n <=? 57)%nat)%bool
      then digits r (10 * acc + Z.of_nat (n - 48))
      else Raise ValueError
  end.

(** [int(s)] on plain decimal numerals with an optional minus sign. *)
Definition dec_int (s : string) : result Z :=
  match s with
  | EmptyString => Raise ValueError
  | String "-"%char EmptyString => Raise ValueError
  | String "-"%char r => n <- digits r 0 ;; Ok (- n)
  | _ => digits s 0
  end.

(** [float(s)] on numerals of the form [d.d], kept in tenths. *)
Definition tenths (s : string) : result Z :=
  match s with
  | String a (String "."%char (String b EmptyString)) =>
      n <- digits (String a (String b EmptyString)) 0 ;; Ok n
  | _ => Raise ValueError
  end.

#[export] Instance builtins : Builtins := {|
  pyfloat := Z;
  py_int := dec_int;
  py_float := tenths;
  float_zero := 0;
  float_lt_zero := fun x => x <? 0;
  float_gt_one := fun x => x >? 10
|}.

(** Entries and states of this site. *)
Definition seen (day : nat) : @value site := Date day.

Definition unseen : @value site := EMPTY.

Definition state (requests : nat) (pm : list (string * @value site))
    (reds : list string) : @State site :=
  mkState requests pm reds.

(** The parser object made for the page [url] when the frontier is [pm]. *)
Definition parser_of (url host : string) (maxUrls : Z)
    (pm : list (string * @value site)) : @MyHTMLParser site :=
  mkParser pm [] url host maxUrls [] None.

(** The locals of [parsePages] when the loop starts on host [h], and the
    state it starts from: the robots.txt request was the loader's first. *)
Definition env_of (host : string) (maxUrls : Z) : Env :=
  mkEnv host None maxUrls [].

Definition start_of (startUrl : string) : State :=
  mkState 1%nat [(startUrl, EMPTY)] [].

(** The URLs of the site [http://h/]. *)
Definition universe_h : list string :=
  ["http://h/"; "http://h/a"; "http://h/old"; "http://h/new";
   "http://h/bad"; "http://h/gone"].

End Site.

(* ================================================================== *)
(** ** Invariants of the parser and of the loop *)

Section Invariants.

Context {L : Library}.

(** The attributes of the parser object that [handle_starttag] never assigns. *)
Definition same_config (p p' : MyHTMLParser) : Prop :=
  redirects p' = redirects p /\ server p' = server p /\
  maxUrls p' = maxUrls p /\ blockExtensions p' = blockExtensions p /\
  robotParser p' = robotParser p.

(** [grows P bound pm pm']: [pm'] is [pm] followed by new unvisited entries,
    each one a URL satisfying [P], added while the mapping had fewer than
    [bound] entries. *)
Inductive grows (P : string -> Prop) (bound : Z) (pm : PageMap) : PageMap -> Prop :=
| grows_refl : grows P bound pm pm
| grows_add (pm' : PageMap) (url : string) :
    grows P bound pm pm' ->
    dict_mem url pm' = false ->
    len pm' < bound ->
    P url ->
    grows P bound pm (pm' ++ [(url, EMPTY)])%list.

(** What the parser requires of a link before it adds it. *)
Definition admissible (srv : string) (reds : list string) (url : string) : Prop :=
  netloc url = Ok srv /\ ~ In url reds.

(** The invariant of the [while True] loop of [parsePages]. *)
Record Inv (env : Env) (st : State) : Prop := mkInv {
  inv_nodup : NoDup (keys (st_pageMap st));
  inv_reds_nodup : NoDup (st_redirects st);
  inv_disjoint : forall k, In k (keys (st_pageMap st)) -> ~ In k (st_redirects st);
  inv_len : len (st_pageMap st) <= Z.max 1 (env_maxUrls env);
  inv_netloc : forall k, In k (keys (st_pageMap st)) \/ In k (st_redirects st) ->
                         netloc k = Ok (env_server env)
}.

End Invariants.

(* ================================================================== *)
(** ** Further code of the script

    The definitions below embed the parts of [sitemap_gen.py] that stand
    beside the crawler: the rate limiter, the loader and the sitemap
    writer. *)

From Stdlib Require Import DecimalString Permutation Sorted.

(** *** A second site, with a robots.txt

    The host [s] serves a robots.txt that closes [/private/] to every
    agent. Its functions agree with the Python libraries on the inputs of
    the examples, as those of [Site] do. *)

Module Shop.

Definition robots_txt : string :=
  "User-agent: *" ++ String (ascii_of_nat 10) "Disallow: /private/".

(** The rules [reppy] reads from a robots.txt of the examples: the path
    prefixes closed to the agent [sitemap_gen]. *)
Definition shop_Robots_parse (robotUrl : string) (pg : list byte) : list string :=
  if String.eqb (string_of_list_byte pg) robots_txt then ["/private/"] else [].

Definition shop_allowed (rp : list string) (url agent : string) : bool :=
  negb (existsb (PyStr.startswith (Site.site_path url)) rp).

Definition documents : list (string * list starttag) :=
  [ ("<a href='/private/page.html'><a href='/public'><a href='/moved'>",
     [ ("a", [("href", Some "/private/page.html")]);
       ("a", [("href", Some "/public")]);
       ("a", [("href", Some "/moved")]) ]);
    ("<p>No links here.", [ ("p", []) ]) ].

Definition shop_start_tags (text : string) : list starttag :=
  match Site.lookup text documents with
  | Some tags => tags
  | None => []
  end.

Definition web (url : string) : Loaded nat :=
  if String.eqb url "http://s/robots.txt" then
    Site.served 1 (list_byte_of_string robots_txt)
  else if String.eqb url "http://s/" then
    Site.served 2 (list_byte_of_string
      "<a href='/private/page.html'><a href='/public'><a href='/moved'>")
  else if String.eqb url "http://s/public" then
    Site.served 3 (list_byte_of_string "<p>No links here.")
  else if String.eqb url "http://s/moved" then
    Site.redirected "http://s/private/new"
  else Site.failed.

#[export] Instance shop : Library := {|
  datetime := nat;
  Loader := nat;
  Robots := list string;
  urldefrag := fun u => Ok (Site.site_urldefrag u);
  urljoin := fun b u => Ok (Site.site_urljoin b u);
  netloc := fun u => Ok (Site.site_netloc u);
  urlpath := fun u => Ok (Site.site_path u);
  loader_get := fun n url _ => Ok (S n, web url);
  decode_utf8 := Site.site_decode;
  start_tags := shop_start_tags;
  Robots_parse := fun robotUrl pg => Ok (shop_Robots_parse robotUrl pg);
  allowed := fun rp url agent => Ok (shop_allowed rp url agent)
|}.

Definition seen (day : nat) : @value shop := Date day.

Definition unseen : @value shop := EMPTY.

Definition state (requests : nat) (pm : list (string * @value shop))
    (reds : list string) : @State shop :=
  mkState requests pm reds.

Definition env_s (maxUrls : Z) : @Env shop :=
  mkEnv "s" (Some ["/private/"]) maxUrls [].

End Shop.

(* ================================================================== *)
(** ** RateLimit

    The clock [time.monotonic_ns()] is an argument of the calls that read
    it. [sleep] computes [sleep_time = (req_time_ns - cur_time_ns) / 1e9] and
    tests [sleep_time > 0.0]; dividing an integer by [1e9] keeps its sign, so
    the model keeps the numerator, in nanoseconds, and tests that. *)

(** The attributes of a [RateLimit] object: [interval_ns] is [None], or it
    is an integer and [req_time_ns] exists too. *)
Inductive RateLimit : Type :=
| Unlimited
| Limited (interval_ns req_time_ns : Z).

Section RateLimitInit.

Context {B : Builtins}.

(** [rate <= 0.0] and [round(1e9 / rate)] on floats. *)
Variable float_le_zero : pyfloat -> bool.
Variable ns_per_request : pyfloat -> Z.

Definition RateLimit_init (rate : pyfloat) (monotonic_ns : Z) : RateLimit :=
  if float_le_zero rate then Unlimited
  else
    let interval_ns := ns_per_request rate in
    Limited interval_ns (monotonic_ns - interval_ns).

End RateLimitInit.

(** [sleep]: the object after the call, and the nanoseconds handed to
    [time.sleep], [None] when it is not called. *)
Definition RateLimit_sleep (self : RateLimit) (monotonic_ns : Z)
  : RateLimit * option Z :=
  match self with
  | Unlimited => (self, None)
  | Limited interval_ns req_time_ns =>
      if interval_ns =? 0 then (self, None)
      else
        let req_time_ns := req_time_ns + interval_ns in
        let cur_time_ns := monotonic_ns in
        let sleep_ns := req_time_ns - cur_time_ns in
        if sleep_ns >? 0 then (Limited interval_ns req_time_ns, Some sleep_ns)
        else (Limited interval_ns cur_time_ns, None)
  end.



(* ================================================================== *)
(** ** generateSitemapFile

    The function returns the text it writes to the file. *)

(** The double quote and the line feed. *)
Definition dq : string := String (ascii_of_nat 34) EmptyString.

Definition nl : string := String (ascii_of_nat 10) EmptyString.

(** [s.replace(old, new)] for a one-character [old]. *)
Fixpoint replace_char (old : ascii) (new : string) (s : string) : string :=
  match s with
  | EmptyString => EmptyString
  | String c r =>
      if Ascii.eqb c old then (new ++ replace_char old new r)%string
      else String c (replace_char old new r)
  end.

(** [xml.sax.saxutils.escape(data)]: three replacements, one after the other. *)
Definition escape (data : string) : string :=
  let data := replace_char "&"%char "&amp;" data in
  let data := replace_char ">"%char "&gt;" data in
  let data := replace_char "<"%char "&lt;" data in
  data.

(** What [escape] comes to, character by character. *)
Definition escape_char (c : ascii) : string :=
  if Ascii.eqb c "&"%char then "&amp;"
  else if Ascii.eqb c ">"%char then "&gt;"
  else if Ascii.eqb c "<"%char then "&lt;"
  else String c EmptyString.

Fixpoint escape_chars (s : string) : string :=
  match s with
  | EmptyString => EmptyString
  | String c r => (escape_char c ++ escape_chars r)%string
  end.

(** ['%d' % n] *)
Definition fmt_d (n : Z) : string := NilZero.string_of_int (Z.to_int n).

Fixpoint spaces (n : nat) : string :=
  match n with
  | O => EmptyString
  | S k => String " "%char (spaces k)
  end.

(** ['%4d' % n]: right-justified in four columns. *)
Definition fmt_4d (n : Z) : string :=
  let s := fmt_d n in (spaces (4 - String.length s) ++ s)%string.

(** ['%02d' % n]: a zero before a single digit. *)
Definition fmt_02d (n : Z) : string :=
  let s := fmt_d n in
  if (String.length s <? 2)%nat then String "0"%char s else s.

(** [sorted(l)] on strings: Python compares strings by code points. *)
Fixpoint insert_sorted (x : string) (l : list string) : list string :=
  match l with
  | [] => [x]
  | y :: r => if String.leb x y then x :: y :: r else y :: insert_sorted x r
  end.

Fixpoint sorted (l : list string) : list string :=
  match l with
  | [] => []
  | x :: r => insert_sorted x (sorted r)
  end.

Section Sitemap.

Context {L : Library} {B : Builtins}.

(** The attributes [year], [month] and [day] of a [datetime], the test
    [priority > 0.0] and ['%1.1f' % priority]. *)
Variable year month day : datetime -> Z.
Variable float_gt_zero : pyfloat -> bool.
Variable fmt_1f : pyfloat -> string.

Definition sitemap_header : string :=
  ("<?xml version=" ++ dq ++ "1.0" ++ dq ++ " encoding=" ++ dq ++ "UTF-8" ++ dq ++ "?>"
   ++ nl ++ "<urlset xmlns=" ++ dq ++ "http://www.sitemaps.org/schemas/sitemap/0.9" ++ dq
   ++ ">" ++ nl)%string.

(** The body of the [for] loop: what is written for the key [i]. *)
Definition url_element (pageMap : PageMap) (changefreq : string) (priority : pyfloat)
    (i : string) : string :=
  ("<url>" ++ nl ++ "  <loc>" ++ escape i ++ "</loc>" ++ nl
   ++ match dict_get i pageMap with
      | Ok (Date d) =>
          "  <lastmod>" ++ fmt_4d (year d) ++ "-" ++ fmt_02d (month d) ++ "-"
          ++ fmt_02d (day d) ++ "</lastmod>" ++ nl
      | _ => ""
      end
   ++ (if negb (String.eqb changefreq "")
       then "  <changefreq>" ++ changefreq ++ "</changefreq>" ++ nl else "")
   ++ (if float_gt_zero priority
       then "  <priority>" ++ fmt_1f priority ++ "</priority>" ++ nl else "")
   ++ "</url>" ++ nl)%string.

Definition generateSitemapFile (pageMap : PageMap) (changefreq : string)
    (priority : pyfloat) : string :=
  let fw := sitemap_header in
  let fw := fold_left
              (fun fw i => (fw ++ url_element pageMap changefreq priority i)%string)
              (sorted (keys pageMap)) fw in
  (fw ++ "</urlset>" ++ nl)%string.

End Sitemap.

(** The texts of a list, one after the other. *)
Definition join_strings (l : list string) : string :=
  fold_right String.append EmptyString l.

(* ================================================================== *)
(** ** HTMLLoad

    The clocks are arguments of [get]: [datetime.now()] and
    [time.monotonic_ns()]. What [requests] and [urllib.parse] do is taken
    from the class [Web]. A [requests.exceptions.RequestException], the one
    class that [get] catches, is the answer [None] of the function that can
    raise it. *)

(** The six parts [urllib.parse.urlparse] returns. *)
Record UrlParts : Type := mkUrlParts {
  scheme : string;
  parts_netloc : string;
  path : string;
  params : string;
  query : string;
  fragment : string
}.

(** What [get] reads of a [requests.Response]: [status_code], [url],
    [content] and three headers, [None] for a header that is not there. *)
Record Response : Type := mkResponse {
  status_code : Z;
  url : string;
  location : option string;
  last_modified : option string;
  date_header : option string;
  content : list byte
}.

Class Web {L : Library} : Type := {
  (** the [requests.Session] with the network behind it *)
  Session : Type;
  (** [session.get(url, timeout=10, allow_redirects=...)];
      [None] is a RequestException *)
  session_get : Session -> string -> bool -> Session * option Response;
  (** [resp.raise_for_status()] raises HTTPError *)
  raises_for_status : Response -> bool;
  urlparse : string -> result UrlParts;
  urlunparse : UrlParts -> result string;
  (** [urllib.parse.quote(u, encoding="iso-8859-1", safe=string.punctuation)] *)
  quote : string -> result string;
  (** [datetime.strptime(s, '%a, %d %b %Y %H:%M:%S %Z')]; [None] is ValueError *)
  strptime : string -> option datetime
}.

Module HTMLLoad.

Section Methods.

Context {L : Library} {W : Web}.

(** The attributes of an [HTMLLoad] object. *)
Record t : Type := mk {
  session : Session;
  ratelimit : RateLimit;
  page : option (list byte);
  status : Z;
  date : option datetime;
  redirect : option string
}.

(** ["x or y"] on values that are a [str] or [None]. *)
Definition str_or (x y : option string) : option string :=
  if truthy x then x else y.

(** [_handle_redirect]: [Ok None] stands for the HTTPError it raises, which
    [get] catches; [self.redirect] is assigned last. *)
Definition _handle_redirect (self : t) (resp : Response) : result (option t) :=
  let newurl := location resp in
  match newurl with
  | None => Ok None
  | Some newurl =>
      if String.eqb newurl "" then Ok None
      else
        urlparts <- urlparse newurl ;;
        if negb (str_in (scheme urlparts) ["http"; "https"; "ftp"; ""]) then Ok None
        else
          let urlparts :=
            if (String.eqb (path urlparts) "" && negb (String.eqb (parts_netloc urlparts) ""))%bool
            then mkUrlParts (scheme urlparts) (parts_netloc urlparts) "/"
                            (params urlparts) (query urlparts) (fragment urlparts)
            else urlparts in
          newurl <- urlunparse urlparts ;;
          newurl <- quote newurl ;;
          joined <- urljoin (url resp) newurl ;;
          Ok (Some (mk (session self) (ratelimit self) (page self) (status self)
                       (date self) (Some joined)))
  end.

(** [get]: the object after the call and the value returned. An exception
    that is no RequestException leaves [get]. *)
Definition get (self : t) (url : string) (allow_redirects : bool)
    (now : datetime) (monotonic_ns : Z) : result (t * option (list byte)) :=
  let self := mk (session self) (fst (RateLimit_sleep (ratelimit self) monotonic_ns))
                 None 0 (Some now) None in
  let (session', answer) := session_get (session self) url allow_redirects in
  let self := mk session' (ratelimit self) (page self) (status self) (date self)
                 (redirect self) in
  match answer with
  | None => Ok (self, page self)
  | Some resp =>
      let self := mk (session self) (ratelimit self) (page self) (status_code resp)
                     (date self) (redirect self) in
      checked <-
        (if existsb (Z.eqb (status_code resp)) [301; 302; 303; 307]
         then _handle_redirect self resp
         else if raises_for_status resp then Ok None else Ok (Some self)) ;;
      match checked with
      | None => Ok (self, page self)
      | Some self =>
          let self := mk (session self) (ratelimit self) (Some (content resp))
                         (status self) (date self) (redirect self) in
          let date_text := str_or (last_modified resp) (date_header resp) in
          let self :=
            match date_text with
            | Some text =>
                if String.eqb text "" then self
                else match strptime text with
                     | Some d => mk (session self) (ratelimit self) (page self)
                                    (status self) (Some d) (redirect self)
                     | None => self
                     end
            | None => self
            end in
          Ok (self, page self)
      end
  end.

End Methods.

End HTMLLoad.

(** *** The site [http://h/] on the wire

    An instance of [Web] for the examples: the responses of a few URLs of
    the host [h], and the [urllib.parse] functions on lower-case URLs with a
    scheme of letters, without parameters. *)

Module Wire.

Definition is_lower (c : ascii) : bool :=
  let n := nat_of_ascii c in ((97 <=? n)%nat && (n <=? 122)%nat)%bool.

(** The leading letters of [s] when a colon follows them, and what comes
    after the colon. *)
Fixpoint split_colon (s : string) : option (string * string) :=
  match s with
  | EmptyString => None
  | String c r =>
      if Ascii.eqb c ":"%char then Some (EmptyString, r)
      else if is_lower c then
        match split_colon r with
        | Some (sch, rest) => Some (String c sch, rest)
        | None => None
        end
      else None
  end.

Definition wire_urlparse (s : string) : UrlParts :=
  let (sch, rest) := match split_colon s with
                     | Some (String c sch, rest) => (String c sch, rest)
                     | _ => (EmptyString, s)
                     end in
  let (nloc, rest) :=
    if PyStr.startswith rest "//"
    then (Site.take_until ["/"; "?"; "#"]%char (Site.drop 2 rest),
          Site.drop_until ["/"; "?"; "#"]%char (Site.drop 2 rest))
    else (EmptyString, rest) in
  let frag := Site.drop 1 (Site.drop_until ["#"]%char rest) in
  let rest := Site.take_until ["#"]%char rest in
  let qry := Site.drop 1 (Site.drop_until ["?"]%char rest) in
  let pth := Site.take_until ["?"]%char rest in
  mkUrlParts sch nloc pth EmptyString qry frag.

Definition wire_urlunparse (p : UrlParts) : string :=
  ((if String.eqb (scheme p) "" then "" else scheme p ++ ":")
   ++ (if String.eqb (parts_netloc p) "" then "" else "//" ++ parts_netloc p)
   ++ path p
   ++ (if String.eqb (query p) "" then "" else "?" ++ query p)
   ++ (if String.eqb (fragment p) "" then "" else "#" ++ fragment p))%string.

(** The one date text of the examples, and the day it names. *)
Definition wire_strptime (s : string) : option (@datetime Site.site) :=
  if String.eqb s "Wed, 04 Mar 2020 10:00:00 GMT" then Some 4%nat else None.

Definition wire (url : string) : option Response :=
  if String.eqb url "http://h/" then
    Some (mkResponse 200 "http://h/" None
            (Some "Wed, 04 Mar 2020 10:00:00 GMT") (Some "not a date")
            (list_byte_of_string "<a href='/a'>"))
  else if String.eqb url "http://h/old" then
    Some (mkResponse 301 "http://h/old" (Some "http://h") None None [])
  else if String.eqb url "http://h/script" then
    Some (mkResponse 302 "http://h/script" (Some "javascript:alert(1)") None None [])
  else if String.eqb url "http://h/stale" then
    Some (mkResponse 200 "http://h/stale" None
            (Some "yesterday") (Some "Wed, 04 Mar 2020 10:00:00 GMT") [])
  else if String.eqb url "http://h/gone" then
    Some (mkResponse 404 "http://h/gone" None None None [])
  else None.

#[export] Instance web : @Web Site.site := {|
  Session := nat;
  session_get := fun n url _ => (S n, wire url);
  raises_for_status := fun resp => (400 <=? status_code resp) && (status_code resp <? 600);
  urlparse := fun s => Ok (wire_urlparse s);
  urlunparse := fun p => Ok (wire_urlunparse p);
  quote := fun s => Ok s;
  strptime := wire_strptime
|}.

(** Days and loader objects of this instance. *)
Definition day (n : nat) : @datetime Site.site := n.

Definition loader (requests : nat) (rl : RateLimit) (pg : option (list byte))
    (st : Z) (dt : option nat) (rd : option string) : @HTMLLoad.t Site.site web :=
  HTMLLoad.mk (requests : @Session Site.site web) rl pg st
              (dt : option (@datetime Site.site)) rd.

(** A fresh loader: no limit, nothing fetched yet. *)
Definition fresh : @HTMLLoad.t Site.site web :=
  loader 0 Unlimited None 0 None None.

End Wire.

(* ================================================================== *)
(** * Proofs *)

Open Scope list_scope.

(** ** Results *)

Lemma bind_Ok {A B : Type} (r : result A) (k : A -> result B) (b : B) :
  bind r k = Ok b -> exists a, r = Ok a /\ k a = Ok b.
Proof.
  destruct r as [a|e]; simpl; intro H; [exists a; auto | discriminate].
Qed.

Ltac inv_bind H :=
  let a := fresh "a" in
  let Ha := fresh "Ha" in
  apply bind_Ok in H; destruct H as (a & Ha & H).

Tactic Notation "bind_inv" hyp(H) "as" ident(x) ident(Hx) :=
  apply bind_Ok in H; destruct H as (x & Hx & H).

(** ** The dict *)

Section DictFacts.

Variable V : Type.
Implicit Types (d : dict V) (k : string) (v : V).

Lemma dict_mem_In k d : dict_mem k d = true <-> In k (keys d).
Proof.
  unfold dict_mem, keys. rewrite existsb_exists, in_map_iff. split.
  - intros (kv & Hin & Heq). apply String.eqb_eq in Heq. exists kv; auto.
  - intros (kv & Heq & Hin). exists kv. split; auto. now apply String.eqb_eq.
Qed.

Lemma dict_mem_false k d : dict_mem k d = false <-> ~ In k (keys d).
Proof.
  rewrite <- dict_mem_In. destruct (dict_mem k d); split; congruence.
Qed.

Lemma dict_set_new k v d :
  dict_mem k d = false -> dict_set k v d = (d ++ [(k, v)])%list.
Proof.
  induction d as [|[k' v'] d IH]; simpl; intro H; auto.
  apply orb_false_iff in H. destruct H as [H1 H2]. simpl in H1.
  rewrite H1. now rewrite IH.
Qed.

Lemma keys_dict_set_old k v d :
  dict_mem k d = true -> keys (dict_set k v d) = keys d.
Proof.
  induction d as [|[k' v'] d IH]; simpl; intro H; [discriminate|].
  destruct (String.eqb k' k) eqn:E; simpl; auto.
  simpl in H. rewrite IH; auto.
Qed.

Lemma length_dict_set_old k v d :
  dict_mem k d = true -> List.length (dict_set k v d) = List.length d.
Proof.
  intro H. apply keys_dict_set_old with (v := v) in H.
  unfold keys in H. apply (f_equal (@List.length _)) in H.
  now rewrite !length_map in H.
Qed.

Lemma In_dict_set k v d k1 v1 :
  In (k1, v1) (dict_set k v d) -> (k1 = k /\ v1 = v) \/ In (k1, v1) d.
Proof.
  induction d as [|[k' v'] d IH]; simpl.
  - intros [H|[]]. inversion H; auto.
  - destruct (String.eqb k' k) eqn:E; simpl.
    + apply String.eqb_eq in E. subst k'. intros [H|H]; [inversion H|]; auto.
    + intros [H|H]; auto. destruct (IH H); auto.
Qed.

Lemma keys_remove k d : keys (dict_remove k d) = List.filter (fun x => negb (String.eqb x k)) (keys d).
Proof.
  unfold keys, dict_remove. induction d as [|[k' v'] d IH]; simpl; auto.
  destruct (String.eqb k' k); simpl; now rewrite IH.
Qed.

Lemma In_keys_remove k d x : In x (keys (dict_remove k d)) <-> In x (keys d) /\ x <> k.
Proof.
  rewrite keys_remove, filter_In, negb_true_iff. split; intros [H1 H2]; split; auto.
  - intro; subst. now rewrite String.eqb_refl in H2.
  - now apply String.eqb_neq.
Qed.

Lemma In_remove k d kv : In kv (dict_remove k d) -> In kv d.
Proof. unfold dict_remove. rewrite filter_In. tauto. Qed.

Lemma NoDup_keys_remove k d : NoDup (keys d) -> NoDup (keys (dict_remove k d)).
Proof. rewrite keys_remove. apply NoDup_filter. Qed.

Lemma length_remove_le k d : (List.length (dict_remove k d) <= List.length d)%nat.
Proof. unfold dict_remove. apply filter_length_le. Qed.

Lemma length_remove_lt k d :
  dict_mem k d = true -> (List.length (dict_remove k d) < List.length d)%nat.
Proof.
  unfold dict_remove, dict_mem.
  induction d as [|[k' v'] d IH]; simpl; [discriminate|].
  destruct (String.eqb k' k) eqn:E; simpl; intro H.
  - pose proof (filter_length_le (fun kv => negb (String.eqb (fst kv) k)) d). lia.
  - apply IH in H. lia.
Qed.

Lemma dict_del_Ok k d d' :
  dict_del k d = Ok d' -> dict_mem k d = true /\ d' = dict_remove k d.
Proof.
  unfold dict_del. destruct (dict_mem k d); intro H; inversion H; auto.
Qed.

Lemma dict_get_In k d v : dict_get k d = Ok v -> In (k, v) d.
Proof.
  induction d as [|[k' v'] d IH]; simpl; [discriminate|].
  destruct (String.eqb k' k) eqn:E.
  - apply String.eqb_eq in E. intro H. inversion H. subst. now left.
  - auto.
Qed.

Lemma dict_get_NoDup k d v : NoDup (keys d) -> In (k, v) d -> dict_get k d = Ok v.
Proof.
  induction d as [|[k' v'] d IH]; simpl; [tauto|].
  intros Hnd [H|H].
  - inversion H. subst. now rewrite String.eqb_refl.
  - inversion Hnd as [|? ? Hnot Hnd']. subst.
    destruct (String.eqb k' k) eqn:E; auto.
    apply String.eqb_eq in E. subst k'. exfalso. apply Hnot.
    unfold keys. apply in_map_iff. exists (k, v). auto.
Qed.

End DictFacts.

Lemma str_in_In x l : str_in x l = true <-> In x l.
Proof.
  unfold str_in. rewrite existsb_exists. split.
  - intros (y & Hin & Heq). apply String.eqb_eq in Heq. now subst.
  - intro H. exists x. split; auto. apply String.eqb_refl.
Qed.

Lemma str_in_false x l : str_in x l = false <-> ~ In x l.
Proof.
  rewrite <- str_in_In. destruct (str_in x l); split; congruence.
Qed.

(** ** The parser *)

Section ParserFacts.

Context {L : Library}.

Lemma set_baseUrl_same (self : MyHTMLParser) : set_baseUrl self (baseUrl self) = self.
Proof. now destruct self. Qed.

Lemma same_config_refl (p : MyHTMLParser) : same_config p p.
Proof. now repeat split. Qed.

Lemma same_config_trans (p q r : MyHTMLParser) :
  same_config p q -> same_config q r -> same_config p r.
Proof.
  unfold same_config. intros (a1 & a2 & a3 & a4 & a5) (b1 & b2 & b3 & b4 & b5).
  repeat split; congruence.
Qed.

Lemma grows_trans P bound (pm1 pm2 pm3 : PageMap) :
  grows P bound pm1 pm2 -> grows P bound pm2 pm3 -> grows P bound pm1 pm3.
Proof.
  intros H12 H23. induction H23 as [|pm' url H IH Hm Hl HP]; auto.
  now apply grows_add.
Qed.

Lemma grows_one P bound (pm : PageMap) url :
  dict_mem url pm = false -> len pm < bound -> P url ->
  grows P bound pm (dict_set url EMPTY pm).
Proof.
  intros Hm Hl HP. rewrite dict_set_new by assumption.
  apply grows_add; auto. apply grows_refl.
Qed.

Lemma handle_base_spec tag attrs (self self1 : MyHTMLParser) :
  handle_base tag attrs self = Ok self1 ->
  exists b, base_after (baseUrl self) (tag, attrs) = Ok b /\ self1 = set_baseUrl self b.
Proof.
  unfold handle_base, base_after. simpl.
  destruct (String.eqb (PyStr.upper tag) "BASE").
  - destruct attrs as [|a0 rest]; [discriminate|].
    destruct (String.eqb (PyStr.upper (fst a0)) "HREF").
    + intro H. inv_bind H. inversion H. exists a. auto.
    + intro H. inversion H. subst. exists (baseUrl self1).
      now rewrite set_baseUrl_same.
  - intro H. inversion H. subst. exists (baseUrl self1).
    now rewrite set_baseUrl_same.
Qed.

Lemma handle_base_Raise tag attrs (self : MyHTMLParser) e :
  handle_base tag attrs self = Raise e ->
  base_after (baseUrl self) (tag, attrs) = Raise e.
Proof.
  unfold handle_base, base_after. simpl.
  destruct (String.eqb (PyStr.upper tag) "BASE"); [|discriminate].
  destruct attrs as [|a0 rest]; [congruence|].
  destruct (String.eqb (PyStr.upper (fst a0)) "HREF"); [|discriminate].
  destruct (joinUrls (baseUrl self) (snd a0)); simpl; congruence.
Qed.

Lemma want_link_true (self : MyHTMLParser) url :
  want_link self url = Ok true ->
  netloc url = Ok (server self) /\ ~ In url (redirects self).
Proof.
  unfold want_link. destruct (String.eqb url ""); [discriminate|].
  intro H. inv_bind H.
  destruct (String.eqb a (server self)) eqn:E; simpl in H; [|discriminate].
  apply String.eqb_eq in E. subst a. split; auto.
  inv_bind H.
  destruct (a || str_in url (redirects self))%bool eqn:E; [discriminate|].
  apply orb_false_iff in E. now apply str_in_false.
Qed.

Lemma handle_a_spec tag attrs (self self2 : MyHTMLParser) :
  handle_a tag attrs self = Ok self2 ->
  self2 = self \/
  exists url,
    String.eqb (PyStr.upper tag) "A" = true /\
    scan_attrs (baseUrl self) attrs "" = Ok (Url url) /\
    want_link self url = Ok true /\
    dict_mem url (pageMap self) = false /\
    self2 = set_pageMap self (dict_set url EMPTY (pageMap self)).
Proof.
  unfold handle_a. destruct (String.eqb (PyStr.upper tag) "A"); [|intro H; inversion H; auto].
  intro H. inv_bind H. destruct a as [|url]; [inversion H; auto|].
  inv_bind H. destruct a; [|inversion H; auto].
  destruct (dict_mem url (pageMap self)) eqn:E; simpl in H; inversion H; auto.
  right. exists url. auto.
Qed.

(** What one call of [handle_starttag] does to the parser object. *)
Lemma handle_starttag_grows tag attrs (self self' : MyHTMLParser) r :
  handle_starttag tag attrs self = (self', r) ->
  same_config self self' /\
  grows (admissible (server self) (redirects self)) (maxUrls self)
        (pageMap self) (pageMap self').
Proof.
  unfold handle_starttag.
  destruct (len (pageMap self) >=? maxUrls self) eqn:Hb.
  { intro H. inversion H. subst. split; [apply same_config_refl | apply grows_refl]. }
  destruct (handle_base tag attrs self) as [self1|e] eqn:Hbase.
  2:{ intro H. inversion H. subst. split; [apply same_config_refl | apply grows_refl]. }
  apply handle_base_spec in Hbase. destruct Hbase as (b & _ & ->).
  destruct (handle_a tag attrs (set_baseUrl self b)) as [self2|e] eqn:Ha.
  2:{ intro H. inversion H. subst. split; [now repeat split | apply grows_refl]. }
  intro H. inversion H. subst self' r. clear H.
  apply handle_a_spec in Ha. destruct Ha as [->|(url & _ & _ & Hw & Hm & ->)].
  - split; [now repeat split | apply grows_refl].
  - split; [now repeat split|]. simpl in *.
    apply grows_one; auto.
    + rewrite Z.geb_leb in Hb. apply Z.leb_gt in Hb. lia.
    + apply want_link_true in Hw. exact Hw.
Qed.

Lemma feed_grows tags : forall (self self' : MyHTMLParser) r,
  feed tags self = (self', r) ->
  same_config self self' /\
  grows (admissible (server self) (redirects self)) (maxUrls self)
        (pageMap self) (pageMap self').
Proof.
  induction tags as [|t rest IH]; simpl; intros self self' r H.
  - inversion H. subst. split; [apply same_config_refl | apply grows_refl].
  - destruct (handle_starttag (fst t) (snd t) self) as [self1 r1] eqn:Hs.
    apply handle_starttag_grows in Hs. destruct Hs as [Hc Hg].
    destruct r1 as [u|e].
    + apply IH in H. destruct H as [Hc' Hg'].
      split; [eapply same_config_trans; eauto|].
      destruct Hc as (c1 & c2 & c3 & _). rewrite c1, c2, c3 in Hg'.
      eapply grows_trans; eauto.
    + inversion H. subst. auto.
Qed.

(** *** Consequences of [grows] *)

Lemma grows_len P bound (pm pm' : PageMap) :
  grows P bound pm pm' -> len pm' <= Z.max (len pm) bound.
Proof.
  induction 1 as [|pm' url H IH Hm Hl HP]; [lia|].
  unfold len in *. rewrite length_app. simpl. lia.
Qed.

Lemma grows_keys P bound (pm pm' : PageMap) :
  grows P bound pm pm' ->
  forall k, In k (keys pm') -> In k (keys pm) \/ P k.
Proof.
  induction 1 as [|pm' url H IH Hm Hl HP]; auto.
  intros k Hk. unfold keys in Hk. rewrite map_app, in_app_iff in Hk.
  destruct Hk as [Hk|[Hk|[]]]; auto. simpl in Hk. subst. auto.
Qed.

Lemma NoDup_snoc (l : list string) (x : string) :
  NoDup l -> ~ In x l -> NoDup (l ++ [x]).
Proof.
  intros Hl Hx. apply NoDup_app; auto.
  - repeat constructor. intros [].
  - intros a Ha [Hb|[]]. subst. contradiction.
Qed.

Lemma grows_NoDup P bound (pm pm' : PageMap) :
  grows P bound pm pm' -> NoDup (keys pm) -> NoDup (keys pm').
Proof.
  induction 1 as [|pm' url H IH Hm Hl HP]; auto.
  intro Hnd. unfold keys. rewrite map_app. simpl.
  apply NoDup_snoc; [now apply IH | now apply dict_mem_false].
Qed.

(** The entries present before are still there, unchanged and in place. *)
Lemma grows_prefix P bound (pm pm' : PageMap) :
  grows P bound pm pm' ->
  exists added : PageMap,
    pm' = (pm ++ added)%list /\ Forall (fun kv => snd kv = EMPTY) added.
Proof.
  induction 1 as [|pm' url H IH Hm Hl HP].
  - exists []. split; [now rewrite app_nil_r | constructor].
  - destruct IH as (added & -> & Hall).
    exists (added ++ [(url, EMPTY)])%list. split; [now rewrite app_assoc|].
    apply Forall_app. split; auto.
Qed.

End ParserFacts.

(** ** The loop *)

Section LoopFacts.

Context {L : Library}.

Lemma first_EMPTY_Some (pm : PageMap) ks u :
  first_EMPTY pm ks = Some u -> In u ks /\ dict_get u pm = Ok EMPTY.
Proof.
  induction ks as [|i r IH]; simpl; [discriminate|].
  destruct (dict_get i pm) as [[|d]|e] eqn:E.
  - intro H. inversion H. subst. auto.
  - intro H. apply IH in H. tauto.
  - intro H. apply IH in H. tauto.
Qed.

Lemma first_EMPTY_None (pm : PageMap) ks :
  first_EMPTY pm ks = None -> forall k, In k ks -> dict_get k pm <> Ok EMPTY.
Proof.
  induction ks as [|i r IH]; simpl; [tauto|].
  destruct (dict_get i pm) as [[|d]|e] eqn:E; [discriminate| |];
    intros H k [Hk|Hk]; subst; auto; congruence.
Qed.

Lemma getUrlToProcess_Some (pm : PageMap) u :
  getUrlToProcess pm = Some u -> dict_mem u pm = true /\ In (u, EMPTY) pm.
Proof.
  intro H. apply first_EMPTY_Some in H. destruct H as [H1 H2]. split.
  - now apply dict_mem_In.
  - now apply dict_get_In.
Qed.

Lemma getUrlToProcess_None (pm : PageMap) :
  NoDup (keys pm) -> getUrlToProcess pm = None -> all_visited pm.
Proof.
  intros Hnd H k v Hin Hv. subst v.
  apply (first_EMPTY_None _ _ H k).
  - unfold keys. apply in_map_iff. exists (k, EMPTY). auto.
  - now apply dict_get_NoDup.
Qed.

(** Once the frontier is full, the parser ignores every tag. *)
Lemma feed_full tags (self : MyHTMLParser) :
  maxUrls self <= len (pageMap self) -> feed tags self = (self, Ok tt).
Proof.
  intro Hfull. induction tags as [|t rest IH]; simpl; auto.
  unfold handle_starttag.
  replace (len (pageMap self) >=? maxUrls self) with true; auto.
  symmetry. rewrite Z.geb_leb. now apply Z.leb_le.
Qed.

(** Every URL the parser adds is one of the page's candidates. *)
Lemma feed_candidates tags : forall (self self' : MyHTMLParser) r,
  feed tags self = (self', r) ->
  forall k, In k (keys (pageMap self')) ->
            In k (keys (pageMap self)) \/ In k (candidates (baseUrl self) tags).
Proof.
  induction tags as [|[tag attrs] rest IH]; intros self self' r H k Hk.
  - simpl in H. inversion H. subst. auto.
  - destruct (Z_le_gt_dec (maxUrls self) (len (pageMap self))) as [Hfull|Hroom].
    { rewrite feed_full in H by assumption. inversion H. subst. auto. }
    simpl in H. unfold handle_starttag in H.
    replace (len (pageMap self) >=? maxUrls self) with false in H
      by (symmetry; rewrite Z.geb_leb; apply Z.leb_gt; lia).
    simpl in H. destruct (handle_base tag attrs self) as [self1|e] eqn:Hbase.
    2:{ inversion H. subst. auto. }
    apply handle_base_spec in Hbase. destruct Hbase as (b & Hb & ->).
    simpl. rewrite Hb. unfold handle_a in H. simpl in H.
    destruct (String.eqb (PyStr.upper tag) "A").
    + destruct (scan_attrs b attrs "") as [[|url]|e]; simpl in H.
      * destruct (IH _ _ _ H k Hk); auto.
      * destruct (want_link (set_baseUrl self b) url) as [[|]|e]; simpl in H.
        -- destruct (dict_mem url (pageMap self)) eqn:Hm; simpl in H.
           ++ destruct (IH _ _ _ H k Hk) as [Hl|Hr]; auto. right. now right.
           ++ destruct (IH _ _ _ H k Hk) as [Hl|Hr]; [|right; now right].
              simpl in Hl. rewrite dict_set_new in Hl by assumption.
              unfold keys in Hl. rewrite map_app, in_app_iff in Hl.
              destruct Hl as [Hl|[Hl|[]]]; auto. simpl in Hl. subst.
              right. now left.
        -- destruct (IH _ _ _ H k Hk) as [Hl|Hr]; auto. right. now right.
        -- inversion H. subst. auto.
      * inversion H. subst. auto.
    + destruct (IH _ _ _ H k Hk); auto.
Qed.

(** The three ways one pass of the loop changes the state. *)
Lemma iteration_cases (env : Env) url (st st' : State) :
  iteration env url st = Ok st' ->
  exists loader' got,
  loader_get (st_loader st) url false = Ok (loader', got) /\
  st_loader st' = loader' /\
  ((page got = None /\
    dict_mem url (st_pageMap st) = true /\
    st_pageMap st' = dict_remove url (st_pageMap st) /\
    st_redirects st' = st_redirects st)
   \/
   (truthy (redirect got) = true /\
    (exists pg, page got = Some pg) /\
    dict_mem url (st_pageMap st) = true /\
    st_redirects st' = (st_redirects st ++ [url])%list /\
    (st_pageMap st' = dict_remove url (st_pageMap st) \/
     exists newUrl,
       urldefrag (redirect got) = Ok newUrl /\
       netloc newUrl = Ok (env_server env) /\
       dict_mem newUrl (dict_remove url (st_pageMap st)) = false /\
       ~ In newUrl (st_redirects st ++ [url])%list /\
       st_pageMap st' = (dict_remove url (st_pageMap st) ++ [(newUrl, EMPTY)])%list))
   \/
   (exists pg srv,
      page got = Some pg /\ truthy (redirect got) = false /\
      netloc url = Ok srv /\
      st_redirects st' = st_redirects st /\
      grows (admissible srv (st_redirects st)) (env_maxUrls env)
            (dict_set url (Date (date got)) (st_pageMap st)) (st_pageMap st') /\
      forall k, In k (keys (st_pageMap st')) ->
                In k (keys (dict_set url (Date (date got)) (st_pageMap st))) \/
                In k (discovered url got))).
Proof.
  unfold iteration, discovered. intro H.
  bind_inv H as g Hget. destruct g as [loader got]. simpl in H.
  exists loader, got. split; [exact Hget|].
  destruct (page got) as [pg|].
  2:{ bind_inv H as pm1 Hdel. inversion H. subst. simpl.
      apply dict_del_Ok in Hdel. split; auto. left. tauto. }
  destruct (truthy (redirect got)) eqn:Hred.
  - bind_inv H as newUrl Hdefrag. bind_inv H as pm1 Hdel.
    apply dict_del_Ok in Hdel. destruct Hdel as [Hmem ->].
    bind_inv H as want Hwant.
    split; [destruct want; inversion H; reflexivity|].
    right. left. repeat split; eauto.
    + destruct want; inversion H; reflexivity.
    + destruct want; inversion H; subst; simpl; auto.
      right. exists newUrl. unfold redirect_wanted in Hwant.
      bind_inv Hwant as nl Hnl.
      destruct (String.eqb nl (env_server env)) eqn:E1; simpl in Hwant; [|discriminate].
      apply String.eqb_eq in E1. subst nl.
      destruct (dict_mem newUrl (dict_remove url (st_pageMap st))) eqn:E2; [discriminate|].
      destruct (str_in newUrl (st_redirects st ++ [url])) eqn:E3; [discriminate|].
      apply str_in_false in E3.
      repeat split; auto. now apply dict_set_new.
  - bind_inv H as parser Hinit.
    unfold MyHTMLParser_init in Hinit. bind_inv Hinit as srv Hsrv.
    inversion Hinit. subst parser. clear Hinit.
    destruct (decode_utf8 pg) as [text|].
    + destruct (feed (start_tags text) _) as [parser' r] eqn:Hfeed.
      pose proof (feed_grows _ _ Hfeed) as [_ Hg].
      pose proof (feed_candidates _ _ Hfeed) as Hc. simpl in Hg, Hc.
      assert (Hst : st' = mkState loader (pageMap parser') (st_redirects st)).
      { destruct r as [u|e]; [congruence|].
        destruct (is_UnicodeError e); congruence. }
      subst st'. simpl. split; auto.
      right. right. exists pg, srv. repeat split; auto.
    + inversion H. subst st'. simpl. split; auto.
      right. right. exists pg, srv. repeat split; auto. apply grows_refl.
Qed.

End LoopFacts.

(** ** The loop invariant *)

Section InvFacts.

Context {L : Library}.

Lemma len_remove_lt (pm : PageMap) url :
  dict_mem url pm = true -> len (dict_remove url pm) < len pm.
Proof.
  intro H. apply length_remove_lt in H. unfold len. lia.
Qed.

Lemma len_snoc (pm : PageMap) kv : len (pm ++ [kv]) = len pm + 1.
Proof. unfold len. rewrite length_app. simpl. lia. Qed.

Lemma len_dict_set_old (pm : PageMap) url v :
  dict_mem url pm = true -> len (dict_set url v pm) = len pm.
Proof.
  intro H. unfold len. now rewrite length_dict_set_old.
Qed.

Lemma keys_snoc (pm : PageMap) k v : keys (pm ++ [(k, v)]) = (keys pm ++ [k])%list.
Proof. unfold keys. now rewrite map_app. Qed.

Lemma Inv_iteration (env : Env) url (st st' : State) :
  Inv env st ->
  getUrlToProcess (st_pageMap st) = Some url ->
  iteration env url st = Ok st' ->
  Inv env st'.
Proof.
  intros [Hnd Hrnd Hdisj Hlen Hnl] Hurl Hit.
  apply getUrlToProcess_Some in Hurl. destruct Hurl as [Hmem _].
  assert (Hkey : In url (keys (st_pageMap st))) by now apply dict_mem_In.
  apply iteration_cases in Hit.
  destruct Hit as (loader' & got & _ & _ & Hit).
  destruct Hit as [(_ & _ & Hpm & Hreds) | [(_ & _ & _ & Hreds & Hpm) | Hsucc]].
  - (* the request failed *)
    constructor; rewrite ?Hpm, ?Hreds; auto.
    + now apply NoDup_keys_remove.
    + intros k Hk. apply In_keys_remove in Hk. now apply Hdisj.
    + pose proof (len_remove_lt _ _ Hmem). lia.
    + intros k [Hk|Hk]; apply Hnl; auto. apply In_keys_remove in Hk. tauto.
  - (* a redirect *)
    assert (Hrnd' : NoDup (st_redirects st ++ [url])).
    { apply NoDup_snoc; auto. }
    assert (Hdisj' : forall k, In k (keys (dict_remove url (st_pageMap st))) ->
                               ~ In k (st_redirects st ++ [url])).
    { intros k Hk. apply In_keys_remove in Hk. destruct Hk as [Hk Hne].
      rewrite in_app_iff. intros [H|[H|[]]]; [now apply (Hdisj k) | congruence]. }
    assert (Hnl' : forall k, In k (keys (dict_remove url (st_pageMap st))) \/
                             In k (st_redirects st ++ [url]) ->
                             netloc k = Ok (env_server env)).
    { intros k [Hk|Hk].
      - apply In_keys_remove in Hk. apply Hnl. tauto.
      - apply in_app_iff in Hk. destruct Hk as [Hk|[Hk|[]]]; subst; auto. }
    pose proof (len_remove_lt _ _ Hmem) as Hlt.
    destruct Hpm as [Hpm | (newUrl & _ & Hnew & Hfresh & Hnotred & Hpm)];
      constructor; rewrite ?Hpm, ?Hreds; auto.
    + now apply NoDup_keys_remove.
    + lia.
    + rewrite keys_snoc. apply NoDup_snoc.
      * now apply NoDup_keys_remove.
      * now apply dict_mem_false.
    + intros k. rewrite keys_snoc, in_app_iff.
      intros [Hk|[Hk|[]]]; [now apply Hdisj' | now subst].
    + rewrite len_snoc. lia.
    + intros k. rewrite keys_snoc, in_app_iff.
      intros [[Hk|[Hk|[]]]|Hk]; subst; auto.
  - (* a page *)
    destruct Hsucc as (pg & srv & _ & _ & Hsrv & Hreds & Hg & _).
    assert (srv = env_server env).
    { specialize (Hnl url (or_introl Hkey)). congruence. }
    subst srv.
    assert (Hkeys : keys (dict_set url (Date (date got)) (st_pageMap st))
                    = keys (st_pageMap st))
      by now apply keys_dict_set_old.
    constructor; rewrite ?Hreds; auto.
    + apply (grows_NoDup Hg). now rewrite Hkeys.
    + intros k Hk. destruct (grows_keys Hg _ Hk) as [Hold|[_ Hadm]]; auto.
      rewrite Hkeys in Hold. now apply Hdisj.
    + pose proof (grows_len Hg) as Hgl.
      rewrite len_dict_set_old in Hgl by assumption. lia.
    + intros k [Hk|Hk]; [|now apply Hnl; right].
      destruct (grows_keys Hg _ Hk) as [Hold|[Hadm _]]; auto.
      rewrite Hkeys in Hold. apply Hnl. now left.
Qed.

Lemma redirects_iteration (env : Env) url (st st' : State) :
  iteration env url st = Ok st' ->
  incl (st_redirects st) (st_redirects st').
Proof.
  intro Hit. apply iteration_cases in Hit.
  destruct Hit as (loader' & got & _ & _ & Hit).
  destruct Hit as [(_ & _ & _ & ->) | [(_ & _ & _ & -> & _) | (pg & srv & _ & _ & _ & -> & _)]].
  - apply incl_refl.
  - apply incl_appl, incl_refl.
  - apply incl_refl.
Qed.

Lemma loop_body_Some (env : Env) (st st' : State) :
  loop_body env st = Some st' ->
  exists url, getUrlToProcess (st_pageMap st) = Some url /\ iteration env url st = Ok st'.
Proof.
  unfold loop_body. destruct (getUrlToProcess (st_pageMap st)) as [url|]; [|discriminate].
  destruct (iteration env url st) as [st1|e] eqn:E; [|discriminate].
  intro H. inversion H. subst. eauto.
Qed.

Lemma Inv_run (env : Env) n : forall st st' : State,
  Inv env st -> run n env st = Some st' -> Inv env st'.
Proof.
  induction n as [|n IH]; simpl; intros st st' Hinv H.
  - inversion H. now subst.
  - destruct (loop_body env st) as [st1|] eqn:E; [|discriminate].
    apply loop_body_Some in E. destruct E as (url & Hurl & Hit).
    eapply IH; [|exact H]. eapply Inv_iteration; eauto.
Qed.

Lemma redirects_run (env : Env) n : forall st st' : State,
  run n env st = Some st' -> incl (st_redirects st) (st_redirects st').
Proof.
  induction n as [|n IH]; simpl; intros st st' H.
  - inversion H. apply incl_refl.
  - destruct (loop_body env st) as [st1|] eqn:E; [|discriminate].
    apply loop_body_Some in E. destruct E as (url & Hurl & Hit).
    eapply incl_tran; [eapply redirects_iteration; eauto | eauto].
Qed.

(** The state the loop starts from. *)
Lemma parsePages_start_Ok loader startUrl maxUrls exts (env : Env) (st : State) :
  parsePages_start loader startUrl maxUrls exts = Ok (env, st) ->
  netloc startUrl = Ok (env_server env) /\
  env_maxUrls env = maxUrls /\
  env_blockExtensions env = exts /\
  st_pageMap st = [(startUrl, EMPTY)] /\
  st_redirects st = [].
Proof.
  unfold parsePages_start. intro H.
  bind_inv H as r Hr. bind_inv H as srv Hsrv. inversion H. subst. simpl. auto.
Qed.

Lemma Inv_start loader startUrl maxUrls exts (env : Env) (st : State) :
  parsePages_start loader startUrl maxUrls exts = Ok (env, st) -> Inv env st.
Proof.
  intro H. apply parsePages_start_Ok in H.
  destruct H as (Hsrv & Hmax & _ & Hpm & Hreds).
  constructor; rewrite ?Hpm, ?Hreds; simpl.
  - repeat constructor. intros [].
  - constructor.
  - intros k _ [].
  - unfold len. simpl. lia.
  - intros k [[<-|[]]|[]]. exact Hsrv.
Qed.

(** The mapping the loop returns is the frontier of a state it reached, with
    nothing left to process. *)
Lemma crawl_run (env : Env) fuel : forall (st : State) pm,
  crawl fuel env st = Some (Ok pm) ->
  exists n st', run n env st = Some st' /\ st_pageMap st' = pm /\
                getUrlToProcess pm = None.
Proof.
  induction fuel as [|fuel IH]; simpl; intros st pm H; [discriminate|].
  destruct (getUrlToProcess (st_pageMap st)) as [url|] eqn:Hurl.
  - destruct (iteration env url st) as [st1|e] eqn:Hit; [|discriminate].
    apply IH in H. destruct H as (n & st' & Hrun & Hpm & Hnone).
    exists (S n), st'. simpl. unfold loop_body. rewrite Hurl, Hit. auto.
  - inversion H. subst. exists O, st. simpl. auto.
Qed.

End InvFacts.

(** ** Counting entries, and the potential of a state *)

Section Termination.

Context {L : Library}.

Lemma count_split (pm : PageMap) :
  (count_visited pm + count_EMPTY pm = List.length pm)%nat.
Proof.
  unfold count_visited, count_EMPTY. induction pm as [|[k v] pm IH]; simpl; auto.
  destruct (is_EMPTY v); simpl; lia.
Qed.

Lemma count_visited_app (pm pm2 : PageMap) :
  count_visited (pm ++ pm2) = (count_visited pm + count_visited pm2)%nat.
Proof. unfold count_visited. now rewrite filter_app, length_app. Qed.

Lemma count_visited_EMPTY (added : PageMap) :
  Forall (fun kv => snd kv = EMPTY) added -> count_visited added = O.
Proof.
  unfold count_visited. induction 1 as [|[k v] l Hv Hall IH]; simpl; auto.
  simpl in Hv. subst v. simpl. exact IH.
Qed.

Lemma dict_remove_absent (pm : PageMap) url :
  ~ In url (keys pm) -> dict_remove url pm = pm.
Proof.
  unfold dict_remove. induction pm as [|[k v] pm IH]; simpl; auto.
  intro Hnot. destruct (String.eqb k url) eqn:E.
  - apply String.eqb_eq in E. subst k. exfalso. apply Hnot. now left.
  - simpl. f_equal. apply IH. intro H. apply Hnot. now right.
Qed.

Lemma In_keys (pm : PageMap) k v : In (k, v) pm -> In k (keys pm).
Proof. intro H. unfold keys. apply in_map_iff. exists (k, v). auto. Qed.

(** Deleting an unvisited entry keeps the visited ones. *)
Lemma count_visited_remove (pm : PageMap) url :
  NoDup (keys pm) -> In (url, EMPTY) pm ->
  count_visited (dict_remove url pm) = count_visited pm.
Proof.
  intros Hnd Hin.
  induction pm as [|[k v] pm IH]; simpl; auto.
  simpl in Hnd. inversion Hnd as [|? ? Hnot Hnd']. subst.
  destruct Hin as [Hin|Hin].
  - inversion Hin. subst. unfold dict_remove. simpl. rewrite String.eqb_refl. simpl.
    fold (dict_remove url pm). now rewrite dict_remove_absent.
  - unfold dict_remove. simpl. destruct (String.eqb k url) eqn:E; simpl.
    + apply String.eqb_eq in E. subst k. exfalso. apply Hnot.
      eapply In_keys; eauto.
    + fold (dict_remove url pm). unfold count_visited in *. simpl.
      destruct (is_EMPTY v); simpl; rewrite IH; auto.
Qed.

(** Marking an unvisited entry as visited adds one visited entry. *)
Lemma count_visited_set (pm : PageMap) url d :
  NoDup (keys pm) -> In (url, EMPTY) pm ->
  count_visited (dict_set url (Date d) pm) = S (count_visited pm).
Proof.
  unfold count_visited. intros Hnd Hin.
  induction pm as [|[k v] pm IH]; simpl; [destruct Hin|].
  simpl in Hnd. inversion Hnd as [|? ? Hnot Hnd']. subst.
  destruct Hin as [Hin|Hin].
  - inversion Hin. subst. rewrite String.eqb_refl. reflexivity.
  - destruct (String.eqb k url) eqn:E.
    + apply String.eqb_eq in E. subst k. exfalso. apply Hnot.
      unfold keys. apply in_map_iff. exists (url, EMPTY). auto.
    + simpl. destruct (is_EMPTY v); simpl; rewrite IH; auto.
Qed.

Lemma count_visited_grows P bound (pm pm' : PageMap) :
  grows P bound pm pm' -> count_visited pm' = count_visited pm.
Proof.
  intro Hg. apply grows_prefix in Hg. destruct Hg as (added & -> & Hall).
  rewrite count_visited_app, (count_visited_EMPTY Hall). lia.
Qed.

(** Every pass of the loop either settles one more URL, or settles none and
    shortens the frontier. *)
Lemma iteration_progress (env : Env) url (st st' : State) :
  NoDup (keys (st_pageMap st)) ->
  getUrlToProcess (st_pageMap st) = Some url ->
  iteration env url st = Ok st' ->
  settled st' = S (settled st) \/
  (settled st' = settled st /\
   count_visited (st_pageMap st') = count_visited (st_pageMap st) /\
   (List.length (st_pageMap st') < List.length (st_pageMap st))%nat).
Proof.
  intros Hnd Hurl Hit. apply getUrlToProcess_Some in Hurl. destruct Hurl as [Hmem Hin].
  apply iteration_cases in Hit. unfold settled.
  destruct Hit as (loader' & got & _ & _ & Hit).
  destruct Hit as [(_ & _ & Hpm & Hreds) | [(_ & _ & _ & Hreds & Hpm) | Hsucc]].
  - right. rewrite Hpm, Hreds, count_visited_remove by assumption.
    repeat split; auto. now apply length_remove_lt.
  - left. rewrite Hreds, length_app. simpl.
    destruct Hpm as [Hpm | (newUrl & _ & _ & _ & _ & Hpm)]; rewrite Hpm.
    + rewrite count_visited_remove by assumption. lia.
    + rewrite count_visited_app, count_visited_remove by assumption.
      unfold count_visited at 2. simpl. lia.
  - left. destruct Hsucc as (pg & srv & _ & _ & _ & Hreds & Hg & _).
    rewrite Hreds, (count_visited_grows Hg), count_visited_set by assumption. lia.
Qed.


Lemma closed_universe_spec respond srv U :
  closed_universe respond srv U = true ->
  forall u v, In u U -> In v (discovered u (respond u)) -> netloc v = Ok srv -> In v U.
Proof.
  unfold closed_universe. intros H u v Hu Hv Hnl.
  rewrite forallb_forall in H. specialize (H u Hu).
  rewrite forallb_forall in H. specialize (H v Hv).
  rewrite Hnl, String.eqb_refl in H. now apply str_in_In.
Qed.

Section FiniteSite.

(** The loader answers by the URL alone, and [U] is closed for the answers. *)
Variable respond : string -> Loaded datetime.
Variable env : Env.
Variable U : list string.
Hypothesis loader_respond :
  forall l u l' got, loader_get l u false = Ok (l', got) -> got = respond u.
Hypothesis U_closed : closed_universe respond (env_server env) U = true.

Lemma inside_iteration url (st st' : State) :
  Inv env st ->
  (forall k, In k (keys (st_pageMap st)) \/ In k (st_redirects st) -> In k U) ->
  getUrlToProcess (st_pageMap st) = Some url ->
  iteration env url st = Ok st' ->
  forall k, In k (keys (st_pageMap st')) \/ In k (st_redirects st') -> In k U.
Proof.
  intros Hinv Hin Hurl Hit.
  apply getUrlToProcess_Some in Hurl. destruct Hurl as [Hmem _].
  assert (Hkey : In url (keys (st_pageMap st))) by now apply dict_mem_In.
  assert (HurlU : In url U) by (apply Hin; now left).
  pose proof (@closed_universe_spec _ _ _ U_closed url) as Hclosed.
  apply iteration_cases in Hit.
  destruct Hit as (loader' & got & Hget & _ & Hit).
  apply loader_respond in Hget. subst got.
  destruct Hit as [(_ & _ & Hpm & Hreds) | [(Htr & (pg & Hpg) & _ & Hreds & Hpm) | Hsucc]].
  - rewrite Hpm, Hreds. intros k [Hk|Hk]; apply Hin; auto.
    apply In_keys_remove in Hk. tauto.
  - assert (Hold : forall k, In k (keys (dict_remove url (st_pageMap st))) -> In k U).
    { intros k Hk. apply In_keys_remove in Hk. apply Hin. tauto. }
    assert (Hr : forall k, In k (st_redirects st ++ [url]) -> In k U).
    { intros k Hk. apply in_app_iff in Hk.
      destruct Hk as [Hk|[Hk|[]]]; [apply Hin; auto | now subst]. }
    rewrite Hreds.
    destruct Hpm as [Hpm | (newUrl & Hdf & Hnl & _ & _ & Hpm)]; rewrite Hpm.
    + intros k [Hk|Hk]; auto.
    + intros k [Hk|Hk]; auto. rewrite keys_snoc in Hk. apply in_app_iff in Hk.
      destruct Hk as [Hk|[Hk|[]]]; auto. subst k.
      apply Hclosed; auto. unfold discovered. rewrite Hpg, Htr, Hdf. now left.
  - destruct Hsucc as (pg & srv & _ & _ & Hsrv & Hreds & Hg & Hc).
    assert (srv = env_server env).
    { pose proof (inv_netloc Hinv url (or_introl Hkey)). congruence. }
    subst srv. rewrite Hreds.
    intros k [Hk|Hk]; [|apply Hin; auto].
    rewrite keys_dict_set_old in Hc by assumption.
    destruct (Hc k Hk) as [Hold|Hdisc]; [apply Hin; auto|].
    destruct (grows_keys Hg _ Hk) as [Hold|[Hnl _]].
    + rewrite keys_dict_set_old in Hold by assumption. apply Hin; auto.
    + now apply Hclosed.
Qed.

(** The entries of the frontier and of the redirects list fit in [U]. *)
Lemma inside_bound (st : State) :
  Inv env st ->
  (forall k, In k (keys (st_pageMap st)) \/ In k (st_redirects st) -> In k U) ->
  (settled st + count_EMPTY (st_pageMap st) <= List.length U)%nat.
Proof.
  intros [Hnd Hrnd Hdisj _ _] Hin.
  assert (H : (List.length (keys (st_pageMap st) ++ st_redirects st) <= List.length U)%nat).
  { apply NoDup_incl_length.
    - apply NoDup_app; auto.
    - intros k Hk. apply in_app_iff in Hk. now apply Hin. }
  rewrite length_app in H. unfold keys in H. rewrite length_map in H.
  unfold settled. pose proof (count_split (st_pageMap st)). lia.
Qed.

Lemma potential_decreases url (st st' : State) :
  Inv env st ->
  (forall k, In k (keys (st_pageMap st)) \/ In k (st_redirects st) -> In k U) ->
  getUrlToProcess (st_pageMap st) = Some url ->
  iteration env url st = Ok st' ->
  (potential (List.length U) st' < potential (List.length U) st)%nat.
Proof.
  intros Hinv Hin Hurl Hit.
  pose proof (Inv_iteration Hinv Hurl Hit) as Hinv'.
  pose proof (inside_iteration Hinv Hin Hurl Hit) as Hin'.
  pose proof (inside_bound Hinv Hin) as Hb.
  pose proof (inside_bound Hinv' Hin') as Hb'.
  pose proof (count_split (st_pageMap st)) as Hs.
  pose proof (count_split (st_pageMap st')) as Hs'.
  unfold potential.
  destruct (@iteration_progress env url st st' (inv_nodup Hinv) Hurl Hit) as [Hup|(Hsame & Hvis & Hlen)].
  - replace (List.length U - settled st)%nat
      with (S (List.length U - settled st'))%nat by lia.
    simpl. lia.
  - rewrite Hsame. lia.
Qed.

Lemma crawl_terminates fuel : forall st : State,
  Inv env st ->
  (forall k, In k (keys (st_pageMap st)) \/ In k (st_redirects st) -> In k U) ->
  (potential (List.length U) st < fuel)%nat ->
  exists r, crawl fuel env st = Some r /\ forall pm, r = Ok pm -> all_visited pm.
Proof.
  induction fuel as [|fuel IH]; intros st Hinv Hin Hpot; [lia|].
  simpl. destruct (getUrlToProcess (st_pageMap st)) as [url|] eqn:Hurl.
  - destruct (iteration env url st) as [st'|e] eqn:Hit.
    + apply IH.
      * eapply Inv_iteration; eauto.
      * eapply inside_iteration; eauto.
      * pose proof (potential_decreases Hinv Hin Hurl Hit). lia.
    + exists (Raise e). split; auto. discriminate.
  - exists (Ok (st_pageMap st)). split; auto.
    intros pm Hpm. inversion Hpm. subst.
    apply getUrlToProcess_None; auto. apply (inv_nodup Hinv).
Qed.

End FiniteSite.

End Termination.

(* ================================================================== *)
(** * The claims *)

(** ** C1: the URL budget *)

(** At every pass of the loop the frontier holds at most [max 1 maxUrls]
    entries: the start URL is admitted whatever the budget. *)
Lemma frontier_bound {L : Library} loader startUrl maxUrls exts env st0 n st :
  parsePages_start loader startUrl maxUrls exts = Ok (env, st0) ->
  run n env st0 = Some st ->
  len (st_pageMap st) <= Z.max 1 maxUrls.
Proof.
  intros Hstart Hrun.
  pose proof (Inv_run _ (Inv_start _ _ _ _ Hstart) Hrun) as Hinv.
  apply parsePages_start_Ok in Hstart. destruct Hstart as (_ & <- & _).
  apply (inv_len Hinv).
Qed.

(** Once the frontier is full, a call of [handle_starttag] changes nothing:
    the parser tests the budget before anything else. *)
Lemma handle_starttag_full {L : Library} tag attrs (self : MyHTMLParser) :
  maxUrls self <= len (pageMap self) ->
  handle_starttag tag attrs self = (self, Ok tt).
Proof.
  intro H. unfold handle_starttag.
  replace (len (pageMap self) >=? maxUrls self) with true; auto.
  symmetry. rewrite Z.geb_leb. now apply Z.leb_le.
Qed.

(** A pass of the loop that meets a redirect never makes the frontier
    longer: the target takes the place of the entry just deleted. No budget
    is tested on this path. *)
Lemma redirect_pass_no_growth {L : Library} (env : Env) url (st st' : State)
    loader' got :
  loader_get (st_loader st) url false = Ok (loader', got) ->
  truthy (redirect got) = true ->
  iteration env url st = Ok st' ->
  len (st_pageMap st') <= len (st_pageMap st).
Proof.
  intros Hget Hred Hit. apply iteration_cases in Hit.
  destruct Hit as (loader2 & got2 & Hget2 & _ & Hit).
  rewrite Hget in Hget2. inversion Hget2. subst loader2 got2.
  destruct Hit as [(_ & Hmem & -> & _) | [(_ & _ & Hmem & _ & Hpm) | Hsucc]].
  - pose proof (len_remove_lt _ _ Hmem). lia.
  - pose proof (len_remove_lt _ _ Hmem).
    destruct Hpm as [-> | (newUrl & _ & _ & _ & _ & ->)]; [lia|].
    rewrite len_snoc. lia.
  - destruct Hsucc as (pg & srv & _ & Hno & _). congruence.
Qed.

(** C1 (as amended). For a configured maximum of at least 1, the frontier
    mapping never has more entries than the maximum: neither the mapping
    that [parsePages] returns, nor the mapping after any number of passes of
    its loop. *)
Theorem frontier_within_budget {L : Library} loader startUrl maxUrls exts :
  1 <= maxUrls ->
  (forall fuel pm,
     parsePages fuel loader startUrl maxUrls exts = Some (Ok pm) ->
     len pm <= maxUrls) /\
  (forall env st0 n st,
     parsePages_start loader startUrl maxUrls exts = Ok (env, st0) ->
     run n env st0 = Some st ->
     len (st_pageMap st) <= maxUrls).
Proof.
  intro Hmax. split.
  - intros fuel pm H. unfold parsePages in H.
    destruct (parsePages_start loader startUrl maxUrls exts) as [[env st0]|e] eqn:Hstart;
      [|discriminate].
    apply crawl_run in H. destruct H as (n & st & Hrun & <- & _).
    pose proof (frontier_bound _ _ _ _ _ Hstart Hrun). lia.
  - intros env st0 n st Hstart Hrun.
    pose proof (frontier_bound _ _ _ _ _ Hstart Hrun). lia.
Qed.

(** The page [http://h/] has four links to its own host; with a maximum of 2
    one of them is admitted. *)
Lemma frontier_within_budget_witness :
  1 <= 2 /\
  parsePages (L := Site.site) 20 0%nat "http://h/" 2 []
    = Some (Ok [("http://h/", Site.seen 1); ("http://h/a", Site.seen 2)]) /\
  len [("http://h/", Site.seen 1); ("http://h/a", Site.seen 2)] <= 2.
Proof.
  assert (H1 : 1 <= 2) by lia.
  assert (H2 : parsePages (L := Site.site) 20 0%nat "http://h/" 2 []
               = Some (Ok [("http://h/", Site.seen 1); ("http://h/a", Site.seen 2)]))
    by reflexivity.
  split; [exact H1|]. split; [exact H2|].
  exact (proj1 (@frontier_within_budget Site.site 0%nat "http://h/" 2 [] H1) 20%nat _ H2).
Defined.

(** C1 as stated fails. With a maximum of 0, which [main] accepts, the start
    URL is admitted all the same and the returned mapping has one entry. And
    the redirect path tests no budget: with a maximum of 1 and a frontier of
    one entry, the target of a redirect is added as a new entry. *)
Lemma budget_counterexample :
  main (B := Site.builtins) [("-m", "0")] ["http://h/"]
    = Ok (Crawl "http://h/" (@mkOptions Site.builtins [] "" 0 "sitemap.xml" 0 None)) /\
  parsePages (L := Site.site) 20 0%nat "http://h/" 0 []
    = Some (Ok [("http://h/", Site.seen 1)]) /\
  ~ len [("http://h/", Site.seen 1)] <= 0 /\
  env_maxUrls (Site.env_of "r" 1) <= len (st_pageMap (Site.start_of "http://r/")) /\
  iteration (Site.env_of "r" 1) "http://r/" (Site.start_of "http://r/")
    = Ok (Site.state 2 [("http://r/next", Site.unseen)] ["http://r/"]).
Proof.
  split; [reflexivity|]. split; [reflexivity|].
  split; [unfold len; simpl; lia|].
  split; [unfold len; simpl; lia | reflexivity].
Qed.

(** ** C2: redirected URLs stay out *)

(** C2. A URL that is in the redirects list at some pass of the loop is a
    key of the frontier at no later pass, and stays in the list. *)
Theorem redirected_never_readmitted {L : Library}
    loader startUrl maxUrls exts env st0 n st m st' u :
  parsePages_start loader startUrl maxUrls exts = Ok (env, st0) ->
  run n env st0 = Some st ->
  In u (st_redirects st) ->
  run m env st = Some st' ->
  dict_mem u (st_pageMap st') = false /\ In u (st_redirects st').
Proof.
  intros Hstart Hrun Hu Hrun'.
  pose proof (Inv_run _ (Inv_start _ _ _ _ Hstart) Hrun) as Hinv.
  pose proof (Inv_run _ Hinv Hrun') as Hinv'.
  assert (Hu' : In u (st_redirects st')) by (eapply redirects_run; eauto).
  split; auto. apply dict_mem_false. intro Hk.
  now apply (inv_disjoint Hinv' u).
Qed.

(** On the site [http://h/] the third pass records the redirect of
    [http://h/old]; the sixth pass parses [http://h/new], which links to it
    again. *)
Lemma redirected_never_readmitted_witness :
  parsePages_start (L := Site.site) 0%nat "http://h/" 1000 []
    = Ok (Site.env_of "h" 1000, Site.start_of "http://h/") /\
  run 3 (Site.env_of "h" 1000) (Site.start_of "http://h/")
    = Some (Site.state 4
              [("http://h/", Site.seen 1); ("http://h/a", Site.seen 2);
               ("http://h/bad", Site.unseen); ("http://h/gone", Site.unseen);
               ("http://h/new", Site.unseen)]
              ["http://h/old"]) /\
  In "http://h/old" ["http://h/old"] /\
  run 3 (Site.env_of "h" 1000)
      (Site.state 4
         [("http://h/", Site.seen 1); ("http://h/a", Site.seen 2);
          ("http://h/bad", Site.unseen); ("http://h/gone", Site.unseen);
          ("http://h/new", Site.unseen)]
         ["http://h/old"])
    = Some (Site.state 7
              [("http://h/", Site.seen 1); ("http://h/a", Site.seen 2);
               ("http://h/bad", Site.seen 4); ("http://h/new", Site.seen 3)]
              ["http://h/old"]) /\
  dict_mem "http://h/old"
    [("http://h/", Site.seen 1); ("http://h/a", Site.seen 2);
     ("http://h/bad", Site.seen 4); ("http://h/new", Site.seen 3)] = false /\
  In "http://h/old" ["http://h/old"].
Proof.
  assert (H1 : parsePages_start (L := Site.site) 0%nat "http://h/" 1000 []
               = Ok (Site.env_of "h" 1000, Site.start_of "http://h/")) by reflexivity.
  assert (H2 : run 3 (Site.env_of "h" 1000) (Site.start_of "http://h/")
    = Some (Site.state 4
              [("http://h/", Site.seen 1); ("http://h/a", Site.seen 2);
               ("http://h/bad", Site.unseen); ("http://h/gone", Site.unseen);
               ("http://h/new", Site.unseen)]
              ["http://h/old"])) by reflexivity.
  assert (H3 : In "http://h/old" ["http://h/old"]) by (simpl; auto).
  assert (H4 : run 3 (Site.env_of "h" 1000)
      (Site.state 4
         [("http://h/", Site.seen 1); ("http://h/a", Site.seen 2);
          ("http://h/bad", Site.unseen); ("http://h/gone", Site.unseen);
          ("http://h/new", Site.unseen)]
         ["http://h/old"])
    = Some (Site.state 7
              [("http://h/", Site.seen 1); ("http://h/a", Site.seen 2);
               ("http://h/bad", Site.seen 4); ("http://h/new", Site.seen 3)]
              ["http://h/old"])) by reflexivity.
  split; [exact H1|]. split; [exact H2|]. split; [exact H3|]. split; [exact H4|].
  exact (@redirected_never_readmitted Site.site 0%nat "http://h/" 1000 [] _ _ 3 _ 3 _ _
           H1 H2 H3 H4).
Defined.

(** ** C3: same network location *)

(** C3. Every key of the frontier and every member of the redirects list has
    the network location of the start URL. *)
Theorem same_netloc_only {L : Library} loader startUrl maxUrls exts env st0 n st u :
  parsePages_start loader startUrl maxUrls exts = Ok (env, st0) ->
  run n env st0 = Some st ->
  In u (keys (st_pageMap st)) \/ In u (st_redirects st) ->
  netloc u = netloc startUrl.
Proof.
  intros Hstart Hrun Hu.
  pose proof (Inv_run _ (Inv_start _ _ _ _ Hstart) Hrun) as Hinv.
  apply parsePages_start_Ok in Hstart. destruct Hstart as (-> & _).
  now apply (inv_netloc Hinv).
Qed.

(** The page [http://h/] links to [http://other/x]; after the first pass the
    frontier holds the four links to the host [h] and not that one. *)
Lemma same_netloc_only_witness :
  parsePages_start (L := Site.site) 0%nat "http://h/" 1000 []
    = Ok (Site.env_of "h" 1000, Site.start_of "http://h/") /\
  run 1 (Site.env_of "h" 1000) (Site.start_of "http://h/")
    = Some (Site.state 2
              [("http://h/", Site.seen 1); ("http://h/a", Site.unseen);
               ("http://h/old", Site.unseen); ("http://h/bad", Site.unseen);
               ("http://h/gone", Site.unseen)] []) /\
  (In "http://h/gone"
      (keys [("http://h/", Site.seen 1); ("http://h/a", Site.unseen);
             ("http://h/old", Site.unseen); ("http://h/bad", Site.unseen);
             ("http://h/gone", Site.unseen)]) \/ In "http://h/gone" []) /\
  @netloc Site.site "http://h/gone" = @netloc Site.site "http://h/".
Proof.
  assert (H1 : parsePages_start (L := Site.site) 0%nat "http://h/" 1000 []
               = Ok (Site.env_of "h" 1000, Site.start_of "http://h/")) by reflexivity.
  assert (H2 : run 1 (Site.env_of "h" 1000) (Site.start_of "http://h/")
    = Some (Site.state 2
              [("http://h/", Site.seen 1); ("http://h/a", Site.unseen);
               ("http://h/old", Site.unseen); ("http://h/bad", Site.unseen);
               ("http://h/gone", Site.unseen)] [])) by reflexivity.
  assert (H3 : In "http://h/gone"
      (keys [("http://h/", Site.seen 1); ("http://h/a", Site.unseen);
             ("http://h/old", Site.unseen); ("http://h/bad", Site.unseen);
             ("http://h/gone", Site.unseen)]) \/ In "http://h/gone" [])
    by (left; simpl; tauto).
  split; [exact H1|]. split; [exact H2|]. split; [exact H3|].
  exact (@same_netloc_only Site.site 0%nat "http://h/" 1000 [] _ _ 1 _ _ H1 H2 H3).
Defined.

(** ** C4: termination *)

(** C4. When the loader answers by the URL alone and the same-site URLs that
    can be discovered from the start URL fit in a finite list [U], the loop
    of [parsePages] ends within [|U| * (|U| + 1) + 2] passes, by returning or
    by an exception, and a mapping it returns has no unvisited entry. *)
Theorem crawl_terminates_all_visited {L : Library}
    (respond : string -> Loaded datetime) (U : list string)
    fuel loader startUrl maxUrls exts :
  (forall l u l' got, loader_get l u false = Ok (l', got) -> got = respond u) ->
  finite_site respond startUrl U = true ->
  (List.length U * (List.length U + 1) + 2 <= fuel)%nat ->
  exists r, parsePages fuel loader startUrl maxUrls exts = Some r /\
            forall pm, r = Ok pm -> all_visited pm.
Proof.
  intros Hresp Hfin Hfuel. unfold parsePages.
  destruct (parsePages_start loader startUrl maxUrls exts) as [[env st0]|e] eqn:Hstart.
  2:{ exists (Raise e). split; auto. discriminate. }
  pose proof (Inv_start _ _ _ _ Hstart) as Hinv.
  apply parsePages_start_Ok in Hstart.
  destruct Hstart as (Hsrv & _ & _ & Hpm & Hreds).
  unfold finite_site in Hfin. apply andb_true_iff in Hfin.
  destruct Hfin as [HinU Hclosed]. rewrite Hsrv in Hclosed.
  apply str_in_In in HinU.
  apply (@crawl_terminates L respond env U Hresp Hclosed); auto.
  - rewrite Hpm, Hreds. simpl. intros k [[<-|[]]|[]]. exact HinU.
  - unfold potential, settled, count_visited, count_EMPTY.
    rewrite Hpm, Hreds. simpl.
    rewrite Nat.sub_0_r. lia.
Qed.

Lemma crawl_terminates_all_visited_witness :
  (forall (l : @Loader Site.site) u l' got,
     loader_get l u false = Ok (l', got) -> got = Site.web u) /\
  finite_site (L := Site.site) Site.web "http://h/" Site.universe_h = true /\
  (List.length Site.universe_h * (List.length Site.universe_h + 1) + 2 <= 44)%nat /\
  exists r, parsePages (L := Site.site) 44 0%nat "http://h/" 1000 [] = Some r /\
            forall pm, r = Ok pm -> all_visited pm.
Proof.
  assert (H1 : forall (l : @Loader Site.site) u l' got,
             loader_get l u false = Ok (l', got) -> got = Site.web u)
    by (intros l u l' got H; inversion H; reflexivity).
  assert (H2 : finite_site (L := Site.site) Site.web "http://h/" Site.universe_h = true)
    by reflexivity.
  assert (H3 : (List.length Site.universe_h * (List.length Site.universe_h + 1) + 2
                <= 44)%nat) by (simpl; lia).
  split; [exact H1|]. split; [exact H2|]. split; [exact H3|].
  exact (@crawl_terminates_all_visited Site.site Site.web Site.universe_h
           44%nat 0%nat "http://h/" 1000 [] H1 H2 H3).
Defined.

(** ** C5: which [href] of an anchor becomes the candidate *)

Lemma find_snoc {A : Type} (f : A -> bool) (l : list A) (a : A) :
  List.find f (l ++ [a]) =
  match List.find f l with
  | Some x => Some x
  | None => if f a then Some a else None
  end.
Proof.
  induction l as [|x l IH]; simpl; auto.
  destruct (f x); auto.
Qed.

Lemma is_link_value (a : attr) : is_link a = true -> exists v, snd a = Some v.
Proof.
  unfold is_link. destruct (snd a) as [v|]; [eauto | discriminate].
Qed.

Lemma last_link_cons (a : attr) (rest : list attr) :
  last_link (a :: rest) =
  match last_link rest with
  | Some v => Some v
  | None => if is_link a then snd a else None
  end.
Proof.
  unfold last_link. simpl. rewrite find_snoc.
  destruct (List.find is_link (List.rev rest)) as [x|] eqn:E.
  - apply find_some in E. destruct E as [_ E].
    apply is_link_value in E. destruct E as [v ->]. reflexivity.
  - destruct (is_link a); reflexivity.
Qed.

(** One turn of the [for] loop on an attribute that is no nofollow and has
    the value the tests need. *)
Lemma scan_attrs_cons {L : Library} base (a : attr) rest url :
  is_nofollow a = false ->
  match snd a with Some _ => true | None => negb (needs_value a) end = true ->
  scan_attrs base (a :: rest) url =
  if is_link a then (url' <- joinUrls base (snd a) ;; scan_attrs base rest url')
  else scan_attrs base rest url.
Proof.
  unfold is_nofollow, is_link, needs_value. simpl.
  destruct a as [n [v|]]; simpl.
  - destruct (String.eqb (PyStr.upper n) "REL") eqn:Erel; simpl.
    + intros -> _. simpl.
      destruct (String.eqb (PyStr.upper n) "HREF") eqn:Ehref; simpl; auto.
    + intros _ _.
      destruct (String.eqb (PyStr.upper n) "HREF"); simpl; auto.
  - intros _ H. apply negb_true_iff, orb_false_iff in H. destruct H as [-> ->].
    reflexivity.
Qed.

Lemma scan_attrs_last_link {L : Library} base attrs : forall url,
  existsb is_nofollow attrs = false ->
  values_present attrs = true ->
  joins_ok base attrs = true ->
  scan_attrs base attrs url =
  (u <- match last_link attrs with
        | Some v => joinUrls base (Some v)
        | None => Ok url
        end ;; Ok (Url u)).
Proof.
  induction attrs as [|a rest IH]; intros url Hnf Hval Hjoin.
  - reflexivity.
  - simpl in Hnf, Hval, Hjoin.
    apply orb_false_iff in Hnf. destruct Hnf as [Hnf Hnf'].
    apply andb_true_iff in Hval. destruct Hval as [Hval Hval'].
    apply andb_true_iff in Hjoin. destruct Hjoin as [Hjoin Hjoin'].
    rewrite scan_attrs_cons, last_link_cons by assumption.
    destruct (is_link a) eqn:Elink.
    + destruct (joinUrls base (snd a)) as [u'|e] eqn:Ejoin; [|discriminate].
      simpl. rewrite IH by assumption.
      destruct (last_link rest) as [v|]; auto.
      apply is_link_value in Elink. destruct Elink as [v Hv].
      rewrite Hv in *. now rewrite Ejoin.
    + rewrite IH by assumption. destruct (last_link rest); auto.
Qed.

(** C5 (as amended). On an anchor without a nofollow attribute, whose [rel]
    and [href] attributes all have values and whose usable links all
    resolve, the candidate is the LAST [href] whose value contains no
    [mailto:] at any position and in any letter case, resolved against the
    base URL with its fragment removed; without such an attribute it is the
    empty string, and the tag yields no link. *)
Theorem candidate_is_last_link {L : Library} base attrs :
  existsb is_nofollow attrs = false ->
  values_present attrs = true ->
  joins_ok base attrs = true ->
  scan_attrs base attrs "" =
  match last_link attrs with
  | Some v => u <- joinUrls base (Some v) ;; Ok (Url u)
  | None => Ok (Url "")
  end.
Proof.
  intros Hnf Hval Hjoin. rewrite scan_attrs_last_link by assumption.
  destruct (last_link attrs); reflexivity.
Qed.

Lemma candidate_is_last_link_witness :
  existsb is_nofollow [("href", Some "/first"); ("title", None);
                       ("href", Some "MailTo:x@h"); ("href", Some "/last#top")] = false /\
  values_present [("href", Some "/first"); ("title", None);
                  ("href", Some "MailTo:x@h"); ("href", Some "/last#top")] = true /\
  joins_ok (L := Site.site) "http://h/dir/page"
           [("href", Some "/first"); ("title", None);
            ("href", Some "MailTo:x@h"); ("href", Some "/last#top")] = true /\
  scan_attrs (L := Site.site) "http://h/dir/page"
             [("href", Some "/first"); ("title", None);
              ("href", Some "MailTo:x@h"); ("href", Some "/last#top")] ""
  = match last_link [("href", Some "/first"); ("title", None);
                     ("href", Some "MailTo:x@h"); ("href", Some "/last#top")] with
    | Some v => u <- joinUrls (L := Site.site) "http://h/dir/page" (Some v) ;; Ok (Url u)
    | None => Ok (Url "")
    end.
Proof.
  assert (H1 : existsb is_nofollow [("href", Some "/first"); ("title", None);
                 ("href", Some "MailTo:x@h"); ("href", Some "/last#top")] = false)
    by reflexivity.
  assert (H2 : values_present [("href", Some "/first"); ("title", None);
                 ("href", Some "MailTo:x@h"); ("href", Some "/last#top")] = true)
    by reflexivity.
  assert (H3 : joins_ok (L := Site.site) "http://h/dir/page"
                 [("href", Some "/first"); ("title", None);
                  ("href", Some "MailTo:x@h"); ("href", Some "/last#top")] = true)
    by reflexivity.
  split; [exact H1|]. split; [exact H2|]. split; [exact H3|].
  exact (@candidate_is_last_link Site.site "http://h/dir/page" _ H1 H2 H3).
Defined.

(** C5 as stated fails twice. With two [href] attributes the first one is
    the one the specification names, and the code's candidate is the second.
    And an [href] that contains [mailto:] after its start is the one the
    specification names, and the code takes no candidate from it. *)
Lemma first_href_counterexample :
  spec_first_href [("href", Some "http://h/a"); ("href", Some "http://h/b")]
    = Some "http://h/a" /\
  joinUrls (L := Site.site) "http://h/" (Some "http://h/a") = Ok "http://h/a" /\
  scan_attrs (L := Site.site) "http://h/"
    [("href", Some "http://h/a"); ("href", Some "http://h/b")] "" = Ok (Url "http://h/b") /\
  spec_first_href [("href", Some "http://h/?to=mailto:x")]
    = Some "http://h/?to=mailto:x" /\
  scan_attrs (L := Site.site) "http://h/" [("href", Some "http://h/?to=mailto:x")] ""
    = Ok (Url "").
Proof.
  split; [reflexivity|]. split; [reflexivity|]. split; [reflexivity|].
  split; reflexivity.
Qed.

(** ** C7: nofollow *)

Lemma scan_attrs_nofollow {L : Library} base attrs : forall url u,
  existsb is_nofollow attrs = true ->
  scan_attrs base attrs url <> Ok (Url u).
Proof.
  induction attrs as [|a rest IH]; intros url u Hnf; [discriminate|].
  simpl in Hnf. simpl. unfold is_nofollow in Hnf.
  destruct a as [n v]. simpl in *.
  destruct (String.eqb (PyStr.upper n) "REL") eqn:Erel; simpl.
  - destruct v as [v|]; simpl; [|discriminate].
    destruct (PyStr.find (PyStr.upper v) "NOFOLLOW" =? -1); simpl in *; [|discriminate].
    destruct (String.eqb (PyStr.upper n) "HREF"); simpl.
    + destruct (PyStr.find (PyStr.upper v) "MAILTO:" =? -1); simpl; [|now apply IH].
      destruct (joinUrls base (Some v)); simpl; [now apply IH | discriminate].
    + now apply IH.
  - assert (Hrest : existsb is_nofollow rest = true).
    { destruct v; simpl in Hnf; exact Hnf. }
    destruct (String.eqb (PyStr.upper n) "HREF"); simpl; [|now apply IH].
    destruct v as [v|]; simpl; [|discriminate].
    destruct (PyStr.find (PyStr.upper v) "MAILTO:" =? -1); simpl; [|now apply IH].
    destruct (joinUrls base (Some v)); simpl; [now apply IH | discriminate].
Qed.

(** C7. When an attribute named [rel] has a value containing [nofollow], in
    any letter case, the scan of the attributes ends without a candidate,
    wherever the [href] attributes stand and whatever they hold, and the
    call of [handle_starttag] leaves the frontier as it was. *)
Theorem nofollow_admits_nothing {L : Library} tag attrs (self : MyHTMLParser) :
  existsb is_nofollow attrs = true ->
  (forall base u, scan_attrs base attrs "" <> Ok (Url u)) /\
  pageMap (fst (handle_starttag tag attrs self)) = pageMap self.
Proof.
  intro Hnf. split.
  - intros base u. now apply scan_attrs_nofollow.
  - unfold handle_starttag.
    destruct (len (pageMap self) >=? maxUrls self); auto.
    destruct (handle_base tag attrs self) as [self1|e] eqn:Hbase; auto.
    apply handle_base_spec in Hbase. destruct Hbase as (b & _ & ->).
    destruct (handle_a tag attrs (set_baseUrl self b)) as [self2|e] eqn:Ha; auto.
    apply handle_a_spec in Ha. destruct Ha as [->|(url & _ & Hscan & _)]; auto.
    exfalso. revert Hscan. now apply scan_attrs_nofollow.
Qed.

Lemma nofollow_admits_nothing_witness :
  existsb is_nofollow [("href", Some "/secret"); ("rel", Some "external NoFollow")] = true /\
  (forall base u,
     scan_attrs (L := Site.site) base
       [("href", Some "/secret"); ("rel", Some "external NoFollow")] "" <> Ok (Url u)) /\
  pageMap (fst (handle_starttag "a"
                  [("href", Some "/secret"); ("rel", Some "external NoFollow")]
                  (Site.parser_of "http://h/" "h" 1000 [("http://h/", Site.seen 1)])))
  = [("http://h/", Site.seen 1)].
Proof.
  assert (H1 : existsb is_nofollow
                 [("href", Some "/secret"); ("rel", Some "external NoFollow")] = true)
    by reflexivity.
  split; [exact H1|].
  exact (@nofollow_admits_nothing Site.site "a" _
           (Site.parser_of "http://h/" "h" 1000 [("http://h/", Site.seen 1)]) H1).
Defined.

(** ** C6: more than one [base] tag *)

Lemma upper_BASE_not_A (s : string) :
  String.eqb s "BASE" = true -> String.eqb s "A" = false.
Proof.
  intro H. apply String.eqb_eq in H. now subst.
Qed.

Lemma set_baseUrl_twice {L : Library} (self : MyHTMLParser) b1 b2 :
  set_baseUrl (set_baseUrl self b1) b2 = set_baseUrl self b2.
Proof. reflexivity. Qed.

(** One [base] tag whose first attribute is [href], met below the budget. *)
Lemma handle_starttag_base {L : Library} (t : starttag) v (self : MyHTMLParser) b :
  base_href t = Some v ->
  joinUrls (baseUrl self) v = Ok b ->
  len (pageMap self) < maxUrls self ->
  handle_starttag (fst t) (snd t) self = (set_baseUrl self b, Ok tt).
Proof.
  intros Ht Hj Hroom. unfold base_href in Ht. unfold handle_starttag.
  replace (len (pageMap self) >=? maxUrls self) with false
    by (symmetry; rewrite Z.geb_leb; apply Z.leb_gt; lia).
  unfold handle_base, handle_a.
  destruct (String.eqb (PyStr.upper (fst t)) "BASE") eqn:Etag; [|discriminate].
  rewrite (upper_BASE_not_A _ Etag).
  destruct (snd t) as [|a0 rest]; [discriminate|].
  destruct (String.eqb (PyStr.upper (fst a0)) "HREF"); [|discriminate].
  inversion Ht. subst v. rewrite Hj. reflexivity.
Qed.

(** C6 (as amended). Every [base] tag whose first attribute is [href], met
    while the frontier is below the budget, replaces the base URL by its
    value resolved against the base URL in force: after several such tags
    the base URL is the one the last of them gives. *)
Theorem each_base_tag_rebases {L : Library} tags : forall vs (self : MyHTMLParser) b,
  map base_href tags = map Some vs ->
  fold_join (baseUrl self) vs = Ok b ->
  len (pageMap self) < maxUrls self ->
  feed tags self = (set_baseUrl self b, Ok tt).
Proof.
  induction tags as [|t rest IH]; intros vs self b Hmap Hfold Hroom.
  - destruct vs; [|discriminate]. simpl in Hfold. inversion Hfold.
    simpl. now rewrite set_baseUrl_same.
  - destruct vs as [|v vs]; [discriminate|].
    simpl in Hmap. inversion Hmap as [[Ht Hrest]].
    simpl in Hfold. bind_inv Hfold as b1 Hb1.
    simpl. rewrite (handle_starttag_base _ self Ht Hb1 Hroom).
    rewrite (IH vs (set_baseUrl self b1) b Hrest Hfold Hroom).
    reflexivity.
Qed.

Lemma each_base_tag_rebases_witness :
  map base_href [("base", [("href", Some "http://h/x/")]);
                 ("base", [("href", Some "http://h/y/"); ("target", Some "_top")])]
    = map Some [Some "http://h/x/"; Some "http://h/y/"] /\
  fold_join (L := Site.site) "http://h/" [Some "http://h/x/"; Some "http://h/y/"]
    = Ok "http://h/y/" /\
  len [("http://h/", Site.seen 1)] < 1000 /\
  feed [("base", [("href", Some "http://h/x/")]);
        ("base", [("href", Some "http://h/y/"); ("target", Some "_top")])]
       (Site.parser_of "http://h/" "h" 1000 [("http://h/", Site.seen 1)])
    = (Site.parser_of "http://h/y/" "h" 1000 [("http://h/", Site.seen 1)], Ok tt).
Proof.
  assert (H1 : map base_href
                 [("base", [("href", Some "http://h/x/")]);
                  ("base", [("href", Some "http://h/y/"); ("target", Some "_top")])]
               = map Some [Some "http://h/x/"; Some "http://h/y/"]) by reflexivity.
  assert (H2 : fold_join (L := Site.site) "http://h/"
                 [Some "http://h/x/"; Some "http://h/y/"] = Ok "http://h/y/")
    by reflexivity.
  assert (H3 : len [("http://h/", Site.seen 1)] < 1000) by (unfold len; simpl; lia).
  split; [exact H1|]. split; [exact H2|]. split; [exact H3|].
  exact (@each_base_tag_rebases Site.site _ _
           (Site.parser_of "http://h/" "h" 1000 [("http://h/", Site.seen 1)])
           "http://h/y/" H1 H2 H3).
Defined.

(** C6 as stated fails. After two [base] tags the relative link [p] is
    resolved against the second one: the page adds [http://h/y/p] to the
    frontier, not [http://h/x/p]. *)
Lemma later_base_tag_counterexample :
  feed [("base", [("href", Some "http://h/x/")]);
        ("base", [("href", Some "http://h/y/")]);
        ("a", [("href", Some "p")])]
       (Site.parser_of "http://h/" "h" 1000 [("http://h/", Site.seen 1)])
    = (Site.parser_of "http://h/y/" "h" 1000
         [("http://h/", Site.seen 1); ("http://h/y/p", Site.unseen)], Ok tt) /\
  joinUrls (L := Site.site) "http://h/x/" (Some "p") = Ok "http://h/x/p" /\
  dict_mem "http://h/x/p"
    [("http://h/", Site.seen 1); ("http://h/y/p", Site.unseen)] = false.
Proof.
  split; [reflexivity|]. split; reflexivity.
Qed.

(** ** C8: a page that is not UTF-8 *)

Lemma dict_get_set_other {V : Type} (d : dict V) k v k' :
  k' <> k -> dict_get k' (dict_set k v d) = dict_get k' d.
Proof.
  intro Hne. induction d as [|[k0 v0] d IH]; simpl.
  - destruct (String.eqb k k') eqn:E; auto.
    apply String.eqb_eq in E. congruence.
  - destruct (String.eqb k0 k) eqn:E; simpl.
    + apply String.eqb_eq in E. subst k0.
      destruct (String.eqb k k') eqn:E'; auto.
      apply String.eqb_eq in E'. congruence.
    + destruct (String.eqb k0 k'); auto.
Qed.

(** C8. When the page fetched for the URL under process cannot be decoded,
    the pass of the loop ends without an exception; the URL is marked with
    the date of the fetch, the frontier keeps its keys and every other entry,
    and the redirects list is as before. *)
Theorem undecodable_page_is_visited {L : Library}
    loader startUrl maxUrls exts env st0 n (st : State) url loader' got pg :
  parsePages_start loader startUrl maxUrls exts = Ok (env, st0) ->
  run n env st0 = Some st ->
  getUrlToProcess (st_pageMap st) = Some url ->
  loader_get (st_loader st) url false = Ok (loader', got) ->
  page got = Some pg ->
  truthy (redirect got) = false ->
  decode_utf8 pg = None ->
  let pm' := dict_set url (Date (date got)) (st_pageMap st) in
  iteration env url st = Ok (mkState loader' pm' (st_redirects st)) /\
  dict_get url pm' = Ok (Date (date got)) /\
  keys pm' = keys (st_pageMap st) /\
  forall k, k <> url -> dict_get k pm' = dict_get k (st_pageMap st).
Proof.
  intros Hstart Hrun Hurl Hget Hpage Hred Hdec pm'.
  pose proof (Inv_run _ (Inv_start _ _ _ _ Hstart) Hrun) as Hinv.
  apply getUrlToProcess_Some in Hurl. destruct Hurl as [Hmem Hin].
  assert (Hkey : In url (keys (st_pageMap st))) by now apply dict_mem_In.
  pose proof (inv_netloc Hinv url (or_introl Hkey)) as Hnl.
  assert (Hkeys : keys pm' = keys (st_pageMap st)) by now apply keys_dict_set_old.
  repeat split; auto.
  - unfold iteration. rewrite Hget. simpl. rewrite Hpage, Hred.
    unfold MyHTMLParser_init. rewrite Hnl. simpl. now rewrite Hdec.
  - apply dict_get_NoDup.
    + rewrite Hkeys. apply (inv_nodup Hinv).
    + subst pm'. clear - Hmem. induction (st_pageMap st) as [|[k0 v0] d IH]; simpl in *.
      * discriminate.
      * destruct (String.eqb k0 url) eqn:E; simpl.
        -- apply String.eqb_eq in E. subst. now left.
        -- right. now apply IH.
  - intros k Hk. now apply dict_get_set_other.
Qed.

(** On the site [http://h/] the fourth pass fetches [http://h/bad], whose
    body is the byte 0xFF. *)
Lemma undecodable_page_is_visited_witness :
  parsePages_start (L := Site.site) 0%nat "http://h/" 1000 []
    = Ok (Site.env_of "h" 1000, Site.start_of "http://h/") /\
  run 3 (Site.env_of "h" 1000) (Site.start_of "http://h/")
    = Some (Site.state 4
              [("http://h/", Site.seen 1); ("http://h/a", Site.seen 2);
               ("http://h/bad", Site.unseen); ("http://h/gone", Site.unseen);
               ("http://h/new", Site.unseen)]
              ["http://h/old"]) /\
  iteration (Site.env_of "h" 1000) "http://h/bad"
      (Site.state 4
         [("http://h/", Site.seen 1); ("http://h/a", Site.seen 2);
          ("http://h/bad", Site.unseen); ("http://h/gone", Site.unseen);
          ("http://h/new", Site.unseen)]
         ["http://h/old"])
    = Ok (Site.state 5
            [("http://h/", Site.seen 1); ("http://h/a", Site.seen 2);
             ("http://h/bad", Site.seen 4); ("http://h/gone", Site.unseen);
             ("http://h/new", Site.unseen)]
            ["http://h/old"]).
Proof.
  assert (H1 : parsePages_start (L := Site.site) 0%nat "http://h/" 1000 []
               = Ok (Site.env_of "h" 1000, Site.start_of "http://h/")) by reflexivity.
  assert (H2 : run 3 (Site.env_of "h" 1000) (Site.start_of "http://h/")
    = Some (Site.state 4
              [("http://h/", Site.seen 1); ("http://h/a", Site.seen 2);
               ("http://h/bad", Site.unseen); ("http://h/gone", Site.unseen);
               ("http://h/new", Site.unseen)]
              ["http://h/old"])) by reflexivity.
  split; [exact H1|]. split; [exact H2|].
  refine (proj1 (@undecodable_page_is_visited Site.site 0%nat "http://h/" 1000 []
                   _ _ 3 _ "http://h/bad" 5%nat (Site.web "http://h/bad") [xff]
                   H1 H2 _ _ _ _ _)); reflexivity.
Defined.

(** ** C10: a [base] tag without attributes *)

Lemma feed_app {L : Library} pre post : forall self : MyHTMLParser,
  feed (pre ++ post) self =
  match feed pre self with
  | (p1, Ok _) => feed post p1
  | (p1, Raise e) => (p1, Raise e)
  end.
Proof.
  induction pre as [|t pre IH]; intro self; simpl; auto.
  destruct (handle_starttag (fst t) (snd t) self) as [self1 [u|e]]; auto.
Qed.

(** What the loop returns from a state it reaches, [parsePages] returns. *)
Lemma run_crawl {L : Library} (env : Env) k r n : forall st0 st : State,
  run n env st0 = Some st ->
  crawl k env st = Some r ->
  crawl (n + k) env st0 = Some r.
Proof.
  induction n as [|n IH]; simpl; intros st0 st Hrun Hcrawl.
  - inversion Hrun. now subst.
  - destruct (loop_body env st0) as [st1|] eqn:E; [|discriminate].
    apply loop_body_Some in E. destruct E as (url & -> & ->).
    eapply IH; eauto.
Qed.

(** C10. When the page under process has a [base] tag without attributes,
    the tags before it raise nothing and leave the frontier below the
    budget, [handle_starttag] raises IndexError, the pass of the loop raises
    it too, and [parsePages] ends with that exception. *)
Theorem empty_base_tag_aborts_crawl {L : Library}
    loader startUrl budget exts env st0 n (st : State)
    url loader' got pg text pre tag post (p1 : MyHTMLParser) :
  parsePages_start loader startUrl budget exts = Ok (env, st0) ->
  run n env st0 = Some st ->
  getUrlToProcess (st_pageMap st) = Some url ->
  loader_get (st_loader st) url false = Ok (loader', got) ->
  page got = Some pg ->
  truthy (redirect got) = false ->
  decode_utf8 pg = Some text ->
  start_tags text = pre ++ (tag, []) :: post ->
  String.eqb (PyStr.upper tag) "BASE" = true ->
  feed pre (mkParser (dict_set url (Date (date got)) (st_pageMap st))
              (st_redirects st) url (env_server env) (env_maxUrls env)
              (env_blockExtensions env) (env_robotParser env)) = (p1, Ok tt) ->
  len (pageMap p1) < env_maxUrls env ->
  handle_starttag tag [] p1 = (p1, Raise IndexError) /\
  iteration env url st = Raise IndexError /\
  parsePages (n + 1) loader startUrl budget exts = Some (Raise IndexError).
Proof.
  intros Hstart Hrun Hurl Hget Hpage Hred Hdec Htags Htag Hpre Hroom.
  pose proof (Inv_run _ (Inv_start _ _ _ _ Hstart) Hrun) as Hinv.
  pose proof (getUrlToProcess_Some _ Hurl) as [Hmem _].
  assert (Hkey : In url (keys (st_pageMap st))) by now apply dict_mem_In.
  pose proof (inv_netloc Hinv url (or_introl Hkey)) as Hnl.
  pose proof (feed_grows _ _ Hpre) as [(_ & _ & Hmax & _) _]. simpl in Hmax.
  assert (Hhs : handle_starttag tag [] p1 = (p1, Raise IndexError)).
  { unfold handle_starttag.
    replace (len (pageMap p1) >=? maxUrls p1) with false
      by (symmetry; rewrite Z.geb_leb; apply Z.leb_gt; lia).
    unfold handle_base. now rewrite Htag. }
  assert (Hit : iteration env url st = Raise IndexError).
  { unfold iteration. rewrite Hget. simpl. rewrite Hpage, Hred.
    unfold MyHTMLParser_init. rewrite Hnl. simpl. rewrite Hdec, Htags.
    rewrite feed_app, Hpre. simpl. now rewrite Hhs. }
  repeat split; auto.
  unfold parsePages. rewrite Hstart.
  apply (@run_crawl L env 1 (Raise IndexError) n st0 st Hrun). simpl. now rewrite Hurl, Hit.
Qed.

(** The page [http://b/] has a link, then an empty [base] tag. *)
Lemma empty_base_tag_aborts_crawl_witness :
  parsePages (L := Site.site) (0 + 1) 0%nat "http://b/" 10 [] = Some (Raise IndexError).
Proof.
  refine (proj2 (proj2
    (@empty_base_tag_aborts_crawl Site.site 0%nat "http://b/" 10 []
       (Site.env_of "b" 10) (Site.start_of "http://b/") 0 (Site.start_of "http://b/")
       "http://b/" 2%nat (Site.web "http://b/")
       (list_byte_of_string "<a href='/one'><base><a href='/two'>")
       "<a href='/one'><base><a href='/two'>"
       [("a", [("href", Some "/one")])] "base" [("a", [("href", Some "/two")])]
       (Site.parser_of "http://b/" "b" 10
          [("http://b/", Site.seen 5); ("http://b/one", Site.unseen)])
       _ _ _ _ _ _ _ _ _ _ _)));
    reflexivity.
Defined.

(** ** C9: the range of max-urls *)

(** A value below 0 or above 50000 is rejected with the message about the
    range 1 to 50000. *)
Lemma max_urls_out_of_range {B : Builtins} arg n (o : Options) :
  py_int arg = Ok n -> n < 0 \/ 50000 < n ->
  handle_opt "-m" arg o = Ok (inl MaxUrlsRange).
Proof.
  intros Hint Hn. unfold handle_opt. simpl. rewrite Hint. simpl.
  replace ((n <? 0) || (n >? 50000))%bool with true; auto.
  symmetry. apply orb_true_iff. rewrite Z.gtb_ltb.
  destruct Hn; [left; now apply Z.ltb_lt | right; now apply Z.ltb_lt].
Qed.

(** Every value from 0 to 50000 is accepted: the test is [maxUrls < 0]. *)
Lemma max_urls_accepted {B : Builtins} arg n (o : Options) :
  py_int arg = Ok n -> 0 <= n <= 50000 ->
  handle_opt "-m" arg o =
  Ok (inr (mkOptions (opt_blockExtensions o) (opt_changefreq o) (opt_priority o)
             (opt_fileName o) n (opt_ratelimit o))).
Proof.
  intros Hint Hn. unfold handle_opt. simpl. rewrite Hint. simpl.
  replace ((n <? 0) || (n >? 50000))%bool with false; auto.
  symmetry. apply orb_false_iff. rewrite Z.gtb_ltb.
  split; apply Z.ltb_ge; lia.
Qed.

(** C9, the code at the failing input: [-m 0] is not rejected, [main] goes on
    to crawl with a maximum of 0. *)
Theorem main_accepts_zero_max_urls :
  main (B := Site.builtins) [("-m", "0")] ["http://h/"]
  = Ok (Crawl "http://h/" (@mkOptions Site.builtins [] "" 0 "sitemap.xml" 0 None)).
Proof. reflexivity. Qed.

(* ================================================================== *)
(** * Further properties of the crawler *)

(** ** Strings *)

Lemma upper_app (a b : string) :
  PyStr.upper (a ++ b)%string = (PyStr.upper a ++ PyStr.upper b)%string.
Proof.
  induction a as [|c a IH]; simpl; auto. now rewrite IH.
Qed.

Lemma startswith_app (p rest : string) : PyStr.startswith (p ++ rest)%string p = true.
Proof.
  induction p as [|c p IH]; simpl.
  - now destruct rest.
  - now rewrite Ascii.eqb_refl.
Qed.

Lemma find_range (s sub : string) : PyStr.find s sub = -1 \/ 0 <= PyStr.find s sub.
Proof.
  induction s as [|c s IH]; cbn [PyStr.find].
  - destruct (PyStr.startswith "" sub); [right; lia | now left].
  - destruct (PyStr.startswith (String c s) sub); [right; lia|].
    cbv zeta.
    destruct (PyStr.find s sub =? -1) eqn:E; [now left|].
    right. apply Z.eqb_neq in E. lia.
Qed.

(** [find] reports every occurrence: the text found at any position. *)
Lemma find_occurs (pre sub post : string) :
  PyStr.find (pre ++ sub ++ post)%string sub <> -1.
Proof.
  induction pre as [|c pre IH].
  - change ("" ++ sub ++ post)%string with (sub ++ post)%string.
    assert (H : PyStr.find (sub ++ post) sub = 0).
    { pose proof (startswith_app sub post) as Hs.
      destruct (sub ++ post)%string; cbn [PyStr.find]; now rewrite Hs. }
    rewrite H. discriminate.
  - change (String c pre ++ sub ++ post)%string with (String c (pre ++ sub ++ post)).
    cbn [PyStr.find].
    destruct (PyStr.startswith (String c (pre ++ sub ++ post)) sub); [discriminate|].
    cbv zeta.
    destruct (PyStr.find (pre ++ sub ++ post) sub =? -1) eqn:E.
    + apply Z.eqb_eq in E. contradiction.
    + destruct (find_range (pre ++ sub ++ post) sub); lia.
Qed.

Lemma list_ascii_of_string_app (a b : string) :
  list_ascii_of_string (a ++ b)%string = list_ascii_of_string a ++ list_ascii_of_string b.
Proof.
  induction a as [|c a IH]; simpl; auto. now rewrite IH.
Qed.

Lemma string_of_list_ascii_app' (l1 l2 : list ascii) :
  string_of_list_ascii (l1 ++ l2) =
  (string_of_list_ascii l1 ++ string_of_list_ascii l2)%string.
Proof.
  induction l1 as [|c l1 IH]; simpl; auto. now rewrite IH.
Qed.

Lemma string_rev_app (a b : string) :
  PyStr.rev (a ++ b)%string = (PyStr.rev b ++ PyStr.rev a)%string.
Proof.
  unfold PyStr.rev.
  now rewrite list_ascii_of_string_app, rev_app_distr, string_of_list_ascii_app'.
Qed.

Lemma endswith1_app (a b : string) : PyStr.endswith1 (a ++ b)%string b = true.
Proof.
  unfold PyStr.endswith1. rewrite string_rev_app. apply startswith_app.
Qed.

(** ** What the parser adds *)

Section ParserMore.

Context {L : Library}.

Lemma want_link_config (p p' : MyHTMLParser) url :
  same_config p p' -> want_link p' url = want_link p url.
Proof.
  intros (Hr & Hs & _ & Hb & Hrp).
  unfold want_link, hasBlockedExtension. now rewrite Hr, Hs, Hb, Hrp.
Qed.

(** Everything behind a positive answer of [want_link]. *)
Lemma want_link_checks (self : MyHTMLParser) url :
  want_link self url = Ok true ->
  url <> "" /\
  netloc url = Ok (server self) /\
  hasBlockedExtension self url = Ok false /\
  ~ In url (redirects self) /\
  (forall rp, robotParser self = Some rp -> allowed rp url "sitemap_gen" = Ok true).
Proof.
  unfold want_link. destruct (String.eqb url "") eqn:E0; [discriminate|].
  apply String.eqb_neq in E0. intro H.
  bind_inv H as nl Hnl.
  destruct (String.eqb nl (server self)) eqn:E1; simpl in H; [|discriminate].
  apply String.eqb_eq in E1. subst nl.
  bind_inv H as blocked Hb.
  destruct blocked; simpl in H; [discriminate|].
  destruct (str_in url (redirects self)) eqn:E2; [discriminate|].
  apply str_in_false in E2.
  repeat split; auto.
  intros rp Hrp. rewrite Hrp in H. bind_inv H as ok Hok.
  inversion H. now subst.
Qed.

Lemma handle_starttag_wanted tag attrs (self self' : MyHTMLParser) r :
  handle_starttag tag attrs self = (self', r) ->
  grows (fun url => want_link self url = Ok true) (maxUrls self)
        (pageMap self) (pageMap self').
Proof.
  unfold handle_starttag.
  destruct (len (pageMap self) >=? maxUrls self) eqn:Hb.
  { intro H. inversion H. subst. apply grows_refl. }
  destruct (handle_base tag attrs self) as [self1|e] eqn:Hbase.
  2:{ intro H. inversion H. subst. apply grows_refl. }
  apply handle_base_spec in Hbase. destruct Hbase as (b & _ & ->).
  destruct (handle_a tag attrs (set_baseUrl self b)) as [self2|e] eqn:Ha.
  2:{ intro H. inversion H. subst. apply grows_refl. }
  intro H. inversion H. subst self' r. clear H.
  apply handle_a_spec in Ha. destruct Ha as [->|(url & _ & _ & Hw & Hm & ->)].
  - apply grows_refl.
  - simpl in *. apply grows_one; auto.
    rewrite Z.geb_leb in Hb. apply Z.leb_gt in Hb. lia.
Qed.

Lemma grows_impl (P Q : string -> Prop) bound (pm pm' : PageMap) :
  (forall u, P u -> Q u) -> grows P bound pm pm' -> grows Q bound pm pm'.
Proof.
  intros HPQ Hg. induction Hg as [|pm' url H IH Hm Hl HP].
  - apply grows_refl.
  - apply grows_add; auto.
Qed.

Lemma feed_wanted tags : forall (self self' : MyHTMLParser) r,
  feed tags self = (self', r) ->
  grows (fun url => want_link self url = Ok true) (maxUrls self)
        (pageMap self) (pageMap self').
Proof.
  induction tags as [|t rest IH]; simpl; intros self self' r H.
  - inversion H. subst. apply grows_refl.
  - destruct (handle_starttag (fst t) (snd t) self) as [self1 r1] eqn:Hs.
    pose proof (handle_starttag_grows _ _ _ Hs) as [Hc _].
    apply handle_starttag_wanted in Hs.
    destruct r1 as [u|e]; [|inversion H; subst; exact Hs].
    apply IH in H. eapply grows_trans; [exact Hs|].
    pose proof Hc as (_ & _ & Hmax & _). rewrite Hmax in H.
    eapply grows_impl; [|exact H].
    intros x Hx. simpl in Hx. now rewrite <- (want_link_config x Hc).
Qed.

End ParserMore.

(** X1. A URL that a page adds to the frontier has passed every test of the
    parser: it is not empty, it has the network location of the page, its
    path has none of the blocked extensions, it is not a recorded redirect,
    the robots rules (when there are any) allow it, and it is one of the
    candidates of the page's anchors. *)
Theorem page_adds_only_wanted_links {L : Library} tags (self : MyHTMLParser) k :
  In k (keys (pageMap (fst (feed tags self)))) ->
  ~ In k (keys (pageMap self)) ->
  k <> "" /\
  netloc k = Ok (server self) /\
  hasBlockedExtension self k = Ok false /\
  ~ In k (redirects self) /\
  (forall rp, robotParser self = Some rp -> allowed rp k "sitemap_gen" = Ok true) /\
  In k (candidates (baseUrl self) tags).
Proof.
  intros Hk Hnew. destruct (feed tags self) as [self' r] eqn:Hfeed. simpl in Hk.
  pose proof (feed_wanted _ _ Hfeed) as Hg.
  pose proof (feed_candidates _ _ Hfeed k Hk) as Hc.
  destruct (grows_keys Hg _ Hk) as [Hold|Hw]; [contradiction|].
  apply want_link_checks in Hw. destruct Hw as (H1 & H2 & H3 & H4 & H5).
  repeat split; auto. destruct Hc; [contradiction | assumption].
Qed.

Lemma page_adds_only_wanted_links_witness :
  In "http://h/a"
     (keys (pageMap (fst (feed [("a", [("href", Some "/a")]);
                                ("a", [("href", Some "http://other/x")])]
                           (Site.parser_of "http://h/" "h" 1000
                              [("http://h/", Site.seen 1)]))))) /\
  ~ In "http://h/a" (keys [("http://h/", Site.seen 1)]) /\
  hasBlockedExtension (Site.parser_of "http://h/" "h" 1000 [("http://h/", Site.seen 1)])
    "http://h/a" = Ok false.
Proof.
  assert (H1 : In "http://h/a"
     (keys (pageMap (fst (feed [("a", [("href", Some "/a")]);
                                ("a", [("href", Some "http://other/x")])]
                           (Site.parser_of "http://h/" "h" 1000
                              [("http://h/", Site.seen 1)]))))))
    by (simpl; tauto).
  assert (H2 : ~ In "http://h/a" (keys [("http://h/", Site.seen 1)]))
    by (simpl; intros [H|[]]; discriminate).
  split; [exact H1|]. split; [exact H2|].
  exact (proj1 (proj2 (proj2
           (@page_adds_only_wanted_links Site.site _
              (Site.parser_of "http://h/" "h" 1000 [("http://h/", Site.seen 1)])
              "http://h/a" H1 H2)))).
Defined.

(** X2. Parsing a page only appends unvisited entries to the frontier: the
    entries that were there stay, with their values and in their order, and
    the frontier never gets longer than the larger of its length before and
    the budget. *)
Theorem page_only_appends_unvisited {L : Library} tags (self : MyHTMLParser) :
  exists added : PageMap,
    pageMap (fst (feed tags self)) = pageMap self ++ added /\
    Forall (fun kv => snd kv = EMPTY) added /\
    len (pageMap (fst (feed tags self))) <= Z.max (len (pageMap self)) (maxUrls self).
Proof.
  destruct (feed tags self) as [self' r] eqn:Hfeed. simpl.
  pose proof (feed_grows _ _ Hfeed) as [_ Hg].
  destruct (grows_prefix Hg) as (added & Heq & Hall).
  exists added. repeat split; auto. apply (grows_len Hg).
Qed.

(** ** The same tag twice *)

Lemma dict_mem_set {V : Type} k (v : V) (d : dict V) : dict_mem k (dict_set k v d) = true.
Proof.
  unfold dict_mem. induction d as [|[k' v'] d IH]; simpl.
  - now rewrite String.eqb_refl.
  - destruct (String.eqb k' k) eqn:E; simpl; rewrite E; simpl; auto.
Qed.

Lemma upper_A_not_BASE (s : string) :
  String.eqb s "A" = true -> String.eqb s "BASE" = false.
Proof. intro H. apply String.eqb_eq in H. now subst. Qed.

(** A tag that is no anchor leaves the frontier alone. *)
Lemma handle_starttag_not_A {L : Library} tag attrs (self : MyHTMLParser) :
  String.eqb (PyStr.upper tag) "A" = false ->
  pageMap (fst (handle_starttag tag attrs self)) = pageMap self.
Proof.
  intro HA. unfold handle_starttag.
  destruct (len (pageMap self) >=? maxUrls self); auto.
  destruct (handle_base tag attrs self) as [self1|e] eqn:Hbase; auto.
  apply handle_base_spec in Hbase. destruct Hbase as (b & _ & ->).
  unfold handle_a. now rewrite HA.
Qed.

(** X3. Admission is idempotent: handling the same start tag a second time
    leaves the frontier as the first time left it. A link to a URL that is
    already a key adds nothing. *)
Theorem handle_starttag_twice {L : Library} tag attrs (self : MyHTMLParser) :
  pageMap (fst (handle_starttag tag attrs (fst (handle_starttag tag attrs self))))
  = pageMap (fst (handle_starttag tag attrs self)).
Proof.
  destruct (String.eqb (PyStr.upper tag) "A") eqn:HA.
  2:{ now rewrite !handle_starttag_not_A. }
  pose proof (upper_A_not_BASE _ HA) as HB.
  assert (Hunfold : forall s : MyHTMLParser,
            handle_starttag tag attrs s =
            if len (pageMap s) >=? maxUrls s then (s, Ok tt)
            else match handle_a tag attrs s with
                 | Raise e => (s, Raise e)
                 | Ok s2 => (s2, Ok tt)
                 end).
  { intro s. unfold handle_starttag, handle_base. now rewrite HB. }
  rewrite (Hunfold self).
  destruct (len (pageMap self) >=? maxUrls self) eqn:Hb; simpl.
  { now rewrite Hunfold, Hb. }
  destruct (handle_a tag attrs self) as [self2|e] eqn:Ha; simpl.
  2:{ now rewrite Hunfold, Hb, Ha. }
  pose proof Ha as Ha'. apply handle_a_spec in Ha'.
  destruct Ha' as [->|(url & _ & Hscan & Hw & Hm & ->)].
  { now rewrite Hunfold, Hb, Ha. }
  rewrite Hunfold. simpl.
  destruct (len (dict_set url EMPTY (pageMap self)) >=? maxUrls self); auto.
  unfold handle_a. rewrite HA. simpl. rewrite Hscan. simpl.
  assert (Hw' : want_link (set_pageMap self (dict_set url EMPTY (pageMap self))) url
                = Ok true).
  { rewrite <- Hw. apply want_link_config. now repeat split. }
  rewrite Hw'. simpl. now rewrite dict_mem_set.
Qed.

(** ** Which values count as nofollow and as mailto *)

Lemma is_nofollow_substring n pre w post :
  PyStr.upper n = "REL" -> PyStr.upper w = "NOFOLLOW" ->
  is_nofollow (n, Some (pre ++ w ++ post)%string) = true.
Proof.
  intros Hn Hw. unfold is_nofollow. simpl. rewrite Hn. simpl.
  rewrite !upper_app, Hw.
  pose proof (find_occurs (PyStr.upper pre) "NOFOLLOW" (PyStr.upper post)) as H.
  apply Z.eqb_neq in H. now rewrite H.
Qed.

(** X4. The nofollow test is a substring test without regard to letter
    case: a [rel] value with the letters of [nofollow] anywhere in it, also
    inside a longer word, makes the anchor yield no candidate and add
    nothing to the frontier. *)
Theorem nofollow_any_case_anywhere {L : Library}
    tag attrs (self : MyHTMLParser) n pre w post :
  In (n, Some (pre ++ w ++ post)%string) attrs ->
  PyStr.upper n = "REL" ->
  PyStr.upper w = "NOFOLLOW" ->
  (forall base u, scan_attrs base attrs "" <> Ok (Url u)) /\
  pageMap (fst (handle_starttag tag attrs self)) = pageMap self.
Proof.
  intros Hin Hn Hw.
  assert (Hnf : existsb is_nofollow attrs = true).
  { apply existsb_exists. eexists. split; [exact Hin|].
    now apply is_nofollow_substring. }
  split.
  - intros base u. now apply scan_attrs_nofollow.
  - unfold handle_starttag.
    destruct (len (pageMap self) >=? maxUrls self); auto.
    destruct (handle_base tag attrs self) as [self1|e] eqn:Hbase; auto.
    apply handle_base_spec in Hbase. destruct Hbase as (b & _ & ->).
    destruct (handle_a tag attrs (set_baseUrl self b)) as [self2|e] eqn:Ha; auto.
    apply handle_a_spec in Ha. destruct Ha as [->|(url & _ & Hscan & _)]; auto.
    exfalso. revert Hscan. now apply scan_attrs_nofollow.
Qed.

Lemma nofollow_any_case_anywhere_witness :
  In ("Rel", Some ("ugc,x" ++ "NoFollow" ++ "x")%string)
     [("href", Some "/secret"); ("Rel", Some ("ugc,x" ++ "NoFollow" ++ "x")%string)] /\
  PyStr.upper "Rel" = "REL" /\
  PyStr.upper "NoFollow" = "NOFOLLOW" /\
  pageMap (fst (handle_starttag "a"
                  [("href", Some "/secret");
                   ("Rel", Some ("ugc,x" ++ "NoFollow" ++ "x")%string)]
                  (Site.parser_of "http://h/" "h" 1000 [("http://h/", Site.seen 1)])))
  = [("http://h/", Site.seen 1)].
Proof.
  assert (H1 : In ("Rel", Some ("ugc,x" ++ "NoFollow" ++ "x")%string)
     [("href", Some "/secret"); ("Rel", Some ("ugc,x" ++ "NoFollow" ++ "x")%string)])
    by (simpl; tauto).
  assert (H2 : PyStr.upper "Rel" = "REL") by reflexivity.
  assert (H3 : PyStr.upper "NoFollow" = "NOFOLLOW") by reflexivity.
  split; [exact H1|]. split; [exact H2|]. split; [exact H3|].
  exact (proj2 (@nofollow_any_case_anywhere Site.site "a" _
                  (Site.parser_of "http://h/" "h" 1000 [("http://h/", Site.seen 1)])
                  "Rel" "ugc,x" "NoFollow" "x" H1 H2 H3)).
Defined.

Lemma is_link_mailto n pre w post :
  PyStr.upper w = "MAILTO:" ->
  is_link (n, Some (pre ++ w ++ post)%string) = false.
Proof.
  intro Hw. unfold is_link. simpl. rewrite !upper_app, Hw.
  pose proof (find_occurs (PyStr.upper pre) "MAILTO:" (PyStr.upper post)) as H.
  apply Z.eqb_neq in H. rewrite H. apply andb_false_r.
Qed.

(** Without a usable link the loop over the attributes keeps the URL it
    started with. *)
Lemma scan_attrs_no_link {L : Library} base attrs : forall url sc,
  existsb is_link attrs = false ->
  scan_attrs base attrs url = Ok sc -> sc = NoFollow \/ sc = Url url.
Proof.
  induction attrs as [|[n v] rest IH]; intros url sc Hno H.
  - simpl in H. inversion H. auto.
  - simpl in Hno. apply orb_false_iff in Hno. destruct Hno as [Hn Hrest].
    unfold is_link in Hn. simpl in *.
    destruct (String.eqb (PyStr.upper n) "REL"); simpl in H.
    + destruct v as [v|]; simpl in H; [|discriminate].
      destruct (PyStr.find (PyStr.upper v) "NOFOLLOW" =? -1); simpl in H;
        [|inversion H; auto].
      destruct (String.eqb (PyStr.upper n) "HREF"); simpl in *.
      * rewrite Hn in H. simpl in H. eauto.
      * eauto.
    + destruct (String.eqb (PyStr.upper n) "HREF"); simpl in *; [|eauto].
      destruct v as [v|]; simpl in H; [|discriminate].
      rewrite Hn in H. simpl in H. eauto.
Qed.

(** X5. An anchor adds nothing to the frontier when it has no [href], or when
    each of its [href] values contains [mailto:], in whatever letter case
    and at whatever position. *)
Theorem mailto_links_add_nothing {L : Library} tag attrs (self : MyHTMLParser) :
  Forall (fun a : attr =>
            PyStr.upper (fst a) = "HREF" ->
            exists pre w post,
              snd a = Some (pre ++ w ++ post)%string /\ PyStr.upper w = "MAILTO:")
         attrs ->
  pageMap (fst (handle_starttag tag attrs self)) = pageMap self.
Proof.
  intro Hall.
  assert (Hno : existsb is_link attrs = false).
  { induction Hall as [|[n v] rest Ha Hrest IH]; simpl; auto.
    rewrite IH, orb_false_r.
    destruct (String.eqb (PyStr.upper n) "HREF") eqn:E.
    - apply String.eqb_eq in E. destruct (Ha E) as (pre & w & post & Hv & Hw).
      simpl in Hv. subst v. now apply is_link_mailto.
    - unfold is_link. simpl. rewrite E. now destruct v. }
  unfold handle_starttag.
  destruct (len (pageMap self) >=? maxUrls self); auto.
  destruct (handle_base tag attrs self) as [self1|e] eqn:Hbase; auto.
  apply handle_base_spec in Hbase. destruct Hbase as (b & _ & ->).
  destruct (handle_a tag attrs (set_baseUrl self b)) as [self2|e] eqn:Ha; auto.
  apply handle_a_spec in Ha. destruct Ha as [->|(url & _ & Hscan & Hw & _)]; auto.
  exfalso. apply (scan_attrs_no_link _ _ _ Hno) in Hscan.
  destruct Hscan as [Hs|Hs]; [discriminate|]. inversion Hs. subst url.
  unfold want_link in Hw. simpl in Hw. discriminate.
Qed.

Lemma mailto_links_add_nothing_witness :
  pageMap (fst (handle_starttag "a"
                  [("href", Some ("" ++ "MailTo:" ++ "x@h")%string); ("title", None)]
                  (Site.parser_of "http://h/" "h" 1000 [("http://h/", Site.seen 1)])))
  = [("http://h/", Site.seen 1)].
Proof.
  refine (@mailto_links_add_nothing Site.site "a" _
            (Site.parser_of "http://h/" "h" 1000 [("http://h/", Site.seen 1)]) _).
  constructor.
  - intros _. exists "", "MailTo:", "x@h". split; reflexivity.
  - constructor; [|constructor]. simpl. discriminate.
Defined.

Ltac conjs := repeat match goal with |- _ /\ _ => split end.

(** ** getUrlToProcess *)

Lemma first_EMPTY_skip {L : Library} (pm : PageMap) ks1 ks2 :
  (forall k, In k ks1 -> dict_get k pm <> Ok EMPTY) ->
  first_EMPTY pm (ks1 ++ ks2) = first_EMPTY pm ks2.
Proof.
  induction ks1 as [|k ks1 IH]; intro H; simpl; auto.
  assert (Hk : dict_get k pm <> Ok EMPTY) by (apply H; now left).
  destruct (dict_get k pm) as [[|d]|e]; try contradiction;
    apply IH; intros k' Hk'; apply H; now right.
Qed.

(** X6. [getUrlToProcess] returns the first unvisited key in insertion order:
    the entries before it are all visited. *)
Theorem getUrlToProcess_first_unvisited {L : Library} (before after : PageMap) u :
  NoDup (keys (before ++ (u, EMPTY) :: after)) ->
  Forall (fun kv => snd kv <> EMPTY) before ->
  getUrlToProcess (before ++ (u, EMPTY) :: after) = Some u.
Proof.
  intros Hnd Hvis. unfold getUrlToProcess.
  set (pm := before ++ (u, EMPTY) :: after) in *.
  assert (Hkeys : keys pm = keys before ++ u :: keys after).
  { unfold pm, keys. now rewrite map_app. }
  rewrite Hkeys, first_EMPTY_skip.
  - simpl. rewrite (@dict_get_NoDup _ u pm EMPTY Hnd); auto.
    unfold pm. apply in_or_app. right. now left.
  - intros k Hk. unfold keys in Hk. apply in_map_iff in Hk.
    destruct Hk as ([k' v] & Hfst & Hin). simpl in Hfst. subst k'.
    rewrite (@dict_get_NoDup _ k pm v Hnd).
    + rewrite Forall_forall in Hvis. specialize (Hvis _ Hin). simpl in Hvis. congruence.
    + unfold pm. apply in_or_app. now left.
Qed.

Lemma getUrlToProcess_first_unvisited_witness :
  getUrlToProcess ([("http://h/", Site.seen 1); ("http://h/a", Site.seen 2)]
                   ++ ("http://h/bad", Site.unseen)
                   :: [("http://h/gone", Site.unseen)])
  = Some "http://h/bad".
Proof.
  refine (@getUrlToProcess_first_unvisited Site.site
            [("http://h/", Site.seen 1); ("http://h/a", Site.seen 2)]
            [("http://h/gone", Site.unseen)] "http://h/bad" _ _).
  - simpl. repeat constructor; simpl; intuition discriminate.
  - repeat constructor; simpl; discriminate.
Defined.

(** X7. [getUrlToProcess] returns [None] exactly when no entry of the
    frontier is unvisited: the loop of [parsePages] cannot stop early, nor
    go on without work. *)
Theorem getUrlToProcess_None_iff {L : Library} (pm : PageMap) :
  NoDup (keys pm) ->
  (getUrlToProcess pm = None <-> all_visited pm).
Proof.
  intro Hnd. split; [now apply getUrlToProcess_None|].
  intro Hall. unfold getUrlToProcess.
  assert (H : forall ks, first_EMPTY pm ks = None).
  { induction ks as [|k ks IH]; simpl; auto.
    destruct (dict_get k pm) as [[|d]|e] eqn:E; auto.
    apply dict_get_In in E. exfalso. now apply (Hall k EMPTY). }
  apply H.
Qed.

Lemma getUrlToProcess_None_iff_witness :
  getUrlToProcess [("http://h/", Site.seen 1); ("http://h/a", Site.seen 2)] = None <->
  all_visited [("http://h/", Site.seen 1); ("http://h/a", Site.seen 2)].
Proof.
  refine (@getUrlToProcess_None_iff Site.site _ _).
  simpl. repeat constructor; simpl; intuition discriminate.
Defined.

(** ** main *)

Section MainMore.

Context {B : Builtins}.

(** What every option leaves true of the locals of [main]. *)
Lemma handle_opt_checked opt arg (o o' : Options) :
  handle_opt opt arg o = Ok (inr o') ->
  (0 <= opt_maxUrls o <= 50000 -> 0 <= opt_maxUrls o' <= 50000) /\
  (~ In (opt_fileName o) [""; "."; ".."] -> ~ In (opt_fileName o') [""; "."; ".."]) /\
  (opt_changefreq o = "" \/ In (opt_changefreq o) allowedChangefreq ->
   opt_changefreq o' = "" \/ In (opt_changefreq o') allowedChangefreq) /\
  (opt_priority o = float_zero \/
   (float_lt_zero (opt_priority o) = false /\ float_gt_one (opt_priority o) = false) ->
   opt_priority o' = float_zero \/
   (float_lt_zero (opt_priority o') = false /\ float_gt_one (opt_priority o') = false)) /\
  incl (opt_blockExtensions o) (opt_blockExtensions o') /\
  (opt = "-b" \/ opt = "--block" ->
   In (String.append "." (PyStr.upper arg)) (opt_blockExtensions o')).
Proof.
  unfold handle_opt. intro H.
  destruct (str_in opt ["-h"; "--help"]) eqn:Eh; [discriminate|].
  destruct (str_in opt ["-b"; "--block"]) eqn:Eb.
  { inversion H. subst o'. simpl. conjs; auto; try tauto.
    - apply incl_appl, incl_refl.
    - intros _. apply in_or_app. right. now left. }
  assert (Hnb : ~ (opt = "-b" \/ opt = "--block")).
  { apply str_in_false in Eb. simpl in Eb. intuition. }
  destruct (str_in opt ["-c"; "--changefreq"]).
  { destruct (str_in arg allowedChangefreq) eqn:Ec; [|discriminate].
    inversion H. subst o'. simpl. apply str_in_In in Ec.
    conjs; auto; try tauto. apply incl_refl. }
  destruct (str_in opt ["-m"; "--max-urls"]).
  { bind_inv H as n Hn.
    destruct ((n <? 0) || (n >? 50000))%bool eqn:Er; [discriminate|].
    inversion H. subst o'. simpl. apply orb_false_iff in Er.
    destruct Er as [Er1 Er2]. apply Z.ltb_ge in Er1.
    rewrite Z.gtb_ltb in Er2. apply Z.ltb_ge in Er2.
    conjs; auto; try tauto; try lia. apply incl_refl. }
  destruct (str_in opt ["-p"; "--priority"]).
  { bind_inv H as p Hp.
    destruct (float_lt_zero p || float_gt_one p)%bool eqn:Er; [discriminate|].
    inversion H. subst o'. simpl. apply orb_false_iff in Er.
    conjs; auto; try tauto. apply incl_refl. }
  destruct (str_in opt ["-r"; "--ratelimit"]).
  { bind_inv H as r Hr. inversion H. subst o'. simpl.
    conjs; auto; try tauto. apply incl_refl. }
  destruct (str_in opt ["-o"; "--output-file"]).
  { destruct (str_in arg [""; "."; ".."]) eqn:Ef; [discriminate|].
    inversion H. subst o'. simpl. apply str_in_false in Ef.
    conjs; auto; try tauto. apply incl_refl. }
  inversion H. subst o'. conjs; auto; try tauto. apply incl_refl.
Qed.

Lemma handle_opts_checked opts : forall o o' : Options,
  handle_opts opts o = Ok (inr o') ->
  (0 <= opt_maxUrls o <= 50000 -> 0 <= opt_maxUrls o' <= 50000) /\
  (~ In (opt_fileName o) [""; "."; ".."] -> ~ In (opt_fileName o') [""; "."; ".."]) /\
  (opt_changefreq o = "" \/ In (opt_changefreq o) allowedChangefreq ->
   opt_changefreq o' = "" \/ In (opt_changefreq o') allowedChangefreq) /\
  (opt_priority o = float_zero \/
   (float_lt_zero (opt_priority o) = false /\ float_gt_one (opt_priority o) = false) ->
   opt_priority o' = float_zero \/
   (float_lt_zero (opt_priority o') = false /\ float_gt_one (opt_priority o') = false)) /\
  incl (opt_blockExtensions o) (opt_blockExtensions o') /\
  (forall opt arg, In (opt, arg) opts -> opt = "-b" \/ opt = "--block" ->
   In (String.append "." (PyStr.upper arg)) (opt_blockExtensions o')).
Proof.
  induction opts as [|[opt arg] rest IH]; intros o o' H; simpl in H.
  - inversion H. subst o'. conjs; auto.
    + apply incl_refl.
    + intros opt arg [].
  - bind_inv H as r Hr. destruct r as [m|o1]; [discriminate|].
    apply handle_opt_checked in Hr. apply IH in H.
    destruct Hr as (a1 & a2 & a3 & a4 & a5 & a6).
    destruct H as (b1 & b2 & b3 & b4 & b5 & b6).
    conjs; auto.
    + eapply incl_tran; eauto.
    + intros opt' arg' [Heq|Hin] Hb.
      * inversion Heq. subst opt' arg'. apply b5, a6, Hb.
      * eapply b6; eauto.
Qed.

(** X8. When [main] starts a crawl, the values it passes on have been
    checked: the maximum is between 0 and 50000, the output file name is
    none of the empty name, [.] and [..], the change frequency is empty or
    one of the seven allowed words, the priority is the default or passed
    both range tests, and the start URL is the first positional argument. *)
Theorem main_crawls_with_checked_options opts args startUrl (o : Options) :
  main opts args = Ok (Crawl startUrl o) ->
  0 <= opt_maxUrls o <= 50000 /\
  ~ In (opt_fileName o) [""; "."; ".."] /\
  (opt_changefreq o = "" \/ In (opt_changefreq o) allowedChangefreq) /\
  (opt_priority o = float_zero \/
   (float_lt_zero (opt_priority o) = false /\ float_gt_one (opt_priority o) = false)) /\
  hd_error args = Some startUrl.
Proof.
  unfold main. intro H. bind_inv H as r Hr.
  destruct r as [m|o1]; [discriminate|].
  destruct args as [|a rest]; [discriminate|].
  inversion H. subst a o1. clear H.
  apply handle_opts_checked in Hr. destruct Hr as (a1 & a2 & a3 & a4 & _).
  split; [apply a1; simpl; lia|].
  split; [apply a2; simpl; intuition discriminate|].
  split; [apply a3; now left|].
  split; [apply a4; now left | reflexivity].
Qed.

End MainMore.

Lemma main_crawls_with_checked_options_witness :
  main (B := Site.builtins)
       [("-b", "doc"); ("-m", "20"); ("--priority", "0.5"); ("-m", "7")]
       ["http://h/"; "ignored"]
  = Ok (Crawl "http://h/" (@mkOptions Site.builtins [".DOC"] "" 5 "sitemap.xml" 7 None)) /\
  0 <= 7 <= 50000.
Proof.
  assert (H : main (B := Site.builtins)
       [("-b", "doc"); ("-m", "20"); ("--priority", "0.5"); ("-m", "7")]
       ["http://h/"; "ignored"]
  = Ok (Crawl "http://h/" (@mkOptions Site.builtins [".DOC"] "" 5 "sitemap.xml" 7 None)))
    by reflexivity.
  split; [exact H|].
  exact (proj1 (@main_crawls_with_checked_options Site.builtins _ _ _ _ H)).
Defined.

(** X9. The extensions given with [-b] block without regard to letter
    case: when [main] starts a crawl after [-b arg], a URL whose path ends
    in a dot and the letters of [arg], in any case, has a blocked
    extension for a parser that holds the list of [main]. *)
Theorem blocked_extension_any_case {L : Library} {B : Builtins}
    opts args startUrl (o : Options) opt arg (self : MyHTMLParser) url stem e :
  main opts args = Ok (Crawl startUrl o) ->
  In (opt, arg) opts ->
  opt = "-b" \/ opt = "--block" ->
  blockExtensions self = opt_blockExtensions o ->
  urlpath url = Ok (stem ++ "." ++ e)%string ->
  PyStr.upper e = PyStr.upper arg ->
  hasBlockedExtension self url = Ok true.
Proof.
  intros Hmain Hin Hopt Hexts Hpath He.
  unfold main in Hmain. bind_inv Hmain as r Hr.
  destruct r as [m|o1]; [discriminate|].
  destruct args as [|a rest]; [discriminate|].
  inversion Hmain. subst a o1. clear Hmain.
  apply handle_opts_checked in Hr. destruct Hr as (_ & _ & _ & _ & _ & Hb).
  specialize (Hb opt arg Hin Hopt).
  unfold hasBlockedExtension. rewrite Hpath. simpl. f_equal.
  unfold PyStr.endswith. apply existsb_exists.
  exists (String.append "." (PyStr.upper arg)). rewrite Hexts. split; auto.
  rewrite upper_app.
  change (PyStr.upper (String "."%char e)) with (String "."%char (PyStr.upper e)).
  rewrite He.
  exact (endswith1_app (PyStr.upper stem) (String "."%char (PyStr.upper arg))).
Qed.

Lemma blocked_extension_any_case_witness :
  hasBlockedExtension
    (@mkParser Site.site [("http://h/", Site.seen 1)] [] "http://h/" "h" 1000 [".DOC"] None)
    "http://h/files/Report.Doc?v=2" = Ok true.
Proof.
  refine (@blocked_extension_any_case Site.site Site.builtins
            [("-m", "5"); ("--block", "doc")] ["http://h/"] "http://h/"
            (@mkOptions Site.builtins [".DOC"] "" 0 "sitemap.xml" 5 None)
            "--block" "doc" _ "http://h/files/Report.Doc?v=2" "/files/Report" "Doc"
            _ _ _ _ _ _); try reflexivity.
  - simpl. tauto.
  - now right.
Defined.

(** X10. Whatever options [main] accepted, the mapping that the crawl it
    starts returns has at most 50000 entries, the most that one sitemap
    file may list. *)
Theorem sitemap_never_exceeds_50000 {L : Library} {B : Builtins}
    opts args startUrl (o : Options) fuel loader pm :
  main opts args = Ok (Crawl startUrl o) ->
  parsePages fuel loader startUrl (opt_maxUrls o) (opt_blockExtensions o) = Some (Ok pm) ->
  len pm <= 50000.
Proof.
  intros Hmain H.
  assert (Hmax : 0 <= opt_maxUrls o <= 50000).
  { unfold main in Hmain. bind_inv Hmain as r Hr.
    destruct r as [m|o1]; [discriminate|].
    destruct args as [|a rest]; [discriminate|].
    inversion Hmain. subst a o1.
    apply handle_opts_checked in Hr. destruct Hr as (a1 & _).
    apply a1. simpl. lia. }
  unfold parsePages in H.
  destruct (parsePages_start loader startUrl (opt_maxUrls o) (opt_blockExtensions o))
    as [[env st0]|e] eqn:Hstart; [|discriminate].
  apply crawl_run in H. destruct H as (n & st & Hrun & <- & _).
  pose proof (frontier_bound _ _ _ _ _ Hstart Hrun). lia.
Qed.

Lemma sitemap_never_exceeds_50000_witness :
  len [("http://h/", Site.seen 1)] <= 50000.
Proof.
  refine (@sitemap_never_exceeds_50000 Site.site Site.builtins
            [("-m", "0")] ["http://h/"] "http://h/"
            (@mkOptions Site.builtins [] "" 0 "sitemap.xml" 0 None)
            20%nat 0%nat _ _ _); reflexivity.
Defined.

(** ** The loop of parsePages *)

Section LoopMore.

Context {L : Library}.

Lemma In_dict_set_other {V : Type} (d : dict V) k v k0 v0 :
  In (k, v) d -> k <> k0 -> In (k, v) (dict_set k0 v0 d).
Proof.
  intros Hin Hne. induction d as [|[k' v'] d IH]; simpl in *; [tauto|].
  destruct (String.eqb k' k0) eqn:E.
  - apply String.eqb_eq in E. subst k'.
    destruct Hin as [Hin|Hin]; [inversion Hin; congruence | now right].
  - destruct Hin as [Hin|Hin]; [now left | right; auto].
Qed.

Lemma In_dict_remove_other {V : Type} (d : dict V) k v k0 :
  In (k, v) d -> k <> k0 -> In (k, v) (dict_remove k0 d).
Proof.
  intros Hin Hne. unfold dict_remove. apply filter_In. split; auto.
  simpl. apply negb_true_iff. now apply String.eqb_neq.
Qed.

(** One pass of the loop keeps every visited entry, date and all. *)
Lemma visited_kept_iteration (env : Env) url (st st' : State) k d :
  NoDup (keys (st_pageMap st)) ->
  getUrlToProcess (st_pageMap st) = Some url ->
  iteration env url st = Ok st' ->
  In (k, Date d) (st_pageMap st) ->
  In (k, Date d) (st_pageMap st').
Proof.
  intros Hnd Hurl Hit Hin.
  apply getUrlToProcess_Some in Hurl. destruct Hurl as [Hmem Hempty].
  assert (Hne : k <> url).
  { intro; subst k.
    pose proof (@dict_get_NoDup _ url (st_pageMap st) (Date d) Hnd Hin) as H1.
    pose proof (@dict_get_NoDup _ url (st_pageMap st) EMPTY Hnd Hempty) as H2.
    congruence. }
  apply iteration_cases in Hit.
  destruct Hit as (loader' & got & _ & _ & Hit).
  destruct Hit as [(_ & _ & Hpm & _) | [(_ & _ & _ & _ & Hpm) | Hsucc]].
  - rewrite Hpm. now apply In_dict_remove_other.
  - destruct Hpm as [Hpm | (newUrl & _ & _ & _ & _ & Hpm)]; rewrite Hpm.
    + now apply In_dict_remove_other.
    + apply in_or_app. left. now apply In_dict_remove_other.
  - destruct Hsucc as (pg & srv & _ & _ & _ & _ & Hg & _).
    apply grows_prefix in Hg. destruct Hg as (added & -> & _).
    apply in_or_app. left. now apply In_dict_set_other.
Qed.

Lemma visited_kept_run (env : Env) k d n : forall st st' : State,
  Inv env st ->
  run n env st = Some st' ->
  In (k, Date d) (st_pageMap st) ->
  In (k, Date d) (st_pageMap st').
Proof.
  induction n as [|n IH]; simpl; intros st st' Hinv H Hin.
  - inversion H. now subst.
  - destruct (loop_body env st) as [st1|] eqn:E; [|discriminate].
    apply loop_body_Some in E. destruct E as (url & Hurl & Hit).
    eapply IH; [| exact H |].
    + eapply Inv_iteration; eauto.
    + eapply visited_kept_iteration; eauto. apply (inv_nodup Hinv).
Qed.


(** The URLs one pass adds to the frontier are allowed by the robots rules. *)
Lemma iteration_robots (env : Env) url (st st' : State) :
  dict_mem url (st_pageMap st) = true ->
  iteration env url st = Ok st' ->
  forall k, In k (keys (st_pageMap st')) ->
    In k (keys (st_pageMap st)) \/
    (forall rp, env_robotParser env = Some rp -> allowed rp k "sitemap_gen" = Ok true).
Proof.
  intros Hmem H k Hk. unfold iteration in H.
  bind_inv H as g Hget. destruct g as [loader got]. simpl in H.
  destruct (page got) as [pg|].
  2:{ bind_inv H as pm1 Hdel. inversion H. subst st'. simpl in Hk.
      apply dict_del_Ok in Hdel. destruct Hdel as [_ ->].
      apply In_keys_remove in Hk. tauto. }
  destruct (truthy (redirect got)).
  - bind_inv H as newUrl Hdefrag. bind_inv H as pm1 Hdel.
    apply dict_del_Ok in Hdel. destruct Hdel as [_ ->].
    bind_inv H as want Hwant.
    destruct want; inversion H; subst st'; simpl in Hk.
    + destruct (dict_mem newUrl (dict_remove url (st_pageMap st))) eqn:Em.
      * rewrite keys_dict_set_old in Hk by assumption.
        apply In_keys_remove in Hk. tauto.
      * rewrite dict_set_new, keys_snoc, in_app_iff in Hk by assumption.
        destruct Hk as [Hk|[Hk|[]]]; [apply In_keys_remove in Hk; tauto|].
        subst k. right. intros rp Hrp.
        unfold redirect_wanted in Hwant. bind_inv Hwant as nl Hnl.
        destruct (negb (String.eqb nl (env_server env))); [discriminate|].
        rewrite Em in Hwant.
        destruct (str_in newUrl (st_redirects st ++ [url])); [discriminate|].
        now rewrite Hrp in Hwant.
    + apply In_keys_remove in Hk. tauto.
  - bind_inv H as parser Hinit.
    unfold MyHTMLParser_init in Hinit. bind_inv Hinit as srv Hsrv.
    inversion Hinit. subst parser. clear Hinit.
    assert (Hfeed : forall tags,
              In k (keys (pageMap (fst (feed tags
                 (mkParser (dict_set url (Date (date got)) (st_pageMap st))
                    (st_redirects st) url srv (env_maxUrls env)
                    (env_blockExtensions env) (env_robotParser env)))))) ->
              In k (keys (st_pageMap st)) \/
              (forall rp, env_robotParser env = Some rp ->
                          allowed rp k "sitemap_gen" = Ok true)).
    { intros tags Hin.
      destruct (feed tags _) as [p' r] eqn:Hf. simpl in Hin.
      apply feed_wanted in Hf. simpl in Hf.
      destruct (grows_keys Hf _ Hin) as [Hold|Hw].
      - left. now rewrite keys_dict_set_old in Hold.
      - right. apply want_link_checks in Hw. simpl in Hw. tauto. }
    destruct (decode_utf8 pg) as [text|].
    + apply (Hfeed (start_tags text)).
      destruct (feed (start_tags text) _) as [p' [u|e]]; simpl.
      * inversion H. now subst st'.
      * destruct (is_UnicodeError e); inversion H. now subst st'.
    + inversion H. subst st'. simpl in Hk. left.
      now rewrite keys_dict_set_old in Hk.
Qed.

End LoopMore.

(** X11. A page that was fetched stays in the frontier with the date of its
    fetch: it is never deleted, its date is never replaced, and it is in the
    mapping that [parsePages] returns. *)
Theorem visited_is_final {L : Library}
    loader startUrl budget exts env st0 n (st : State) k d :
  parsePages_start loader startUrl budget exts = Ok (env, st0) ->
  run n env st0 = Some st ->
  In (k, Date d) (st_pageMap st) ->
  (forall m st', run m env st = Some st' -> In (k, Date d) (st_pageMap st')) /\
  (forall fuel pm, crawl fuel env st = Some (Ok pm) -> In (k, Date d) pm).
Proof.
  intros Hstart Hrun Hin.
  pose proof (Inv_run _ (Inv_start _ _ _ _ Hstart) Hrun) as Hinv.
  split.
  - intros m st' Hm. eapply visited_kept_run; eauto.
  - intros fuel pm Hc. apply crawl_run in Hc.
    destruct Hc as (m & st' & Hm & <- & _). eapply visited_kept_run; eauto.
Qed.

Lemma visited_is_final_witness :
  parsePages_start (L := Site.site) 0%nat "http://h/" 1000 []
    = Ok (Site.env_of "h" 1000, Site.start_of "http://h/") /\
  run 1 (Site.env_of "h" 1000) (Site.start_of "http://h/")
    = Some (Site.state 2
              [("http://h/", Site.seen 1); ("http://h/a", Site.unseen);
               ("http://h/old", Site.unseen); ("http://h/bad", Site.unseen);
               ("http://h/gone", Site.unseen)] []) /\
  forall fuel pm,
    crawl fuel (Site.env_of "h" 1000)
      (Site.state 2
         [("http://h/", Site.seen 1); ("http://h/a", Site.unseen);
          ("http://h/old", Site.unseen); ("http://h/bad", Site.unseen);
          ("http://h/gone", Site.unseen)] []) = Some (Ok pm) ->
    In ("http://h/", Site.seen 1) pm.
Proof.
  assert (H1 : parsePages_start (L := Site.site) 0%nat "http://h/" 1000 []
               = Ok (Site.env_of "h" 1000, Site.start_of "http://h/")) by reflexivity.
  assert (H2 : run 1 (Site.env_of "h" 1000) (Site.start_of "http://h/")
    = Some (Site.state 2
              [("http://h/", Site.seen 1); ("http://h/a", Site.unseen);
               ("http://h/old", Site.unseen); ("http://h/bad", Site.unseen);
               ("http://h/gone", Site.unseen)] [])) by reflexivity.
  split; [exact H1|]. split; [exact H2|].
  refine (proj2 (@visited_is_final Site.site 0%nat "http://h/" 1000 [] _ _ 1 _
                   "http://h/" 1%nat H1 H2 _)).
  simpl. now left.
Defined.

(** X12. Every key of the frontier other than the start URL is allowed by the
    robots rules, when the site has any: both the parser and the redirect
    path ask before they add. The start URL itself is never asked about. *)
Theorem robots_respected {L : Library}
    loader startUrl budget exts env st0 n (st : State) k rp :
  parsePages_start loader startUrl budget exts = Ok (env, st0) ->
  run n env st0 = Some st ->
  In k (keys (st_pageMap st)) ->
  k <> startUrl ->
  env_robotParser env = Some rp ->
  allowed rp k "sitemap_gen" = Ok true.
Proof.
  intros Hstart Hrun Hk Hne Hrp.
  apply parsePages_start_Ok in Hstart. destruct Hstart as (_ & _ & _ & Hpm & _).
  assert (Hall : forall k', In k' (keys (st_pageMap st)) ->
            k' = startUrl \/
            (forall rp, env_robotParser env = Some rp ->
                        allowed rp k' "sitemap_gen" = Ok true)).
  { clear Hk Hne k. revert st0 st Hrun Hpm.
    assert (Hgen : forall n (st0 st : State),
              (forall k', In k' (keys (st_pageMap st0)) ->
                 k' = startUrl \/
                 (forall rp, env_robotParser env = Some rp ->
                             allowed rp k' "sitemap_gen" = Ok true)) ->
              run n env st0 = Some st ->
              forall k', In k' (keys (st_pageMap st)) ->
                 k' = startUrl \/
                 (forall rp, env_robotParser env = Some rp ->
                             allowed rp k' "sitemap_gen" = Ok true)).
    { clear n. induction n as [|n IH]; simpl; intros st0 st H0 Hrun.
      - inversion Hrun. now subst.
      - destruct (loop_body env st0) as [st1|] eqn:E; [|discriminate].
        apply loop_body_Some in E. destruct E as (url & Hurl & Hit).
        apply (IH st1 st); auto.
        intros k' Hk'. apply getUrlToProcess_Some in Hurl.
        destruct (@iteration_robots L env url st0 st1 (proj1 Hurl) Hit k' Hk')
          as [Hold|Hnew]; auto. }
    intros st0 st Hrun Hpm. apply (Hgen n st0 st); auto.
    rewrite Hpm. simpl. intros k' [<-|[]]. now left. }
  destruct (Hall k Hk) as [Heq|Hok]; [contradiction | now apply Hok].
Qed.

Lemma robots_respected_witness :
  parsePages_start (L := Shop.shop) 0%nat "http://s/" 1000 []
    = Ok (Shop.env_s 1000, Shop.state 1 [("http://s/", Shop.unseen)] []) /\
  run 3 (Shop.env_s 1000) (Shop.state 1 [("http://s/", Shop.unseen)] [])
    = Some (Shop.state 4 [("http://s/", Shop.seen 2); ("http://s/public", Shop.seen 3)]
              ["http://s/moved"]) /\
  @allowed Shop.shop ["/private/"] "http://s/public" "sitemap_gen" = Ok true.
Proof.
  assert (H1 : parsePages_start (L := Shop.shop) 0%nat "http://s/" 1000 []
    = Ok (Shop.env_s 1000, Shop.state 1 [("http://s/", Shop.unseen)] []))
    by reflexivity.
  assert (H2 : run 3 (Shop.env_s 1000) (Shop.state 1 [("http://s/", Shop.unseen)] [])
    = Some (Shop.state 4 [("http://s/", Shop.seen 2); ("http://s/public", Shop.seen 3)]
              ["http://s/moved"])) by reflexivity.
  split; [exact H1|]. split; [exact H2|].
  refine (@robots_respected Shop.shop 0%nat "http://s/" 1000 [] _ _ 3 _
            "http://s/public" ["/private/"] H1 H2 _ _ _).
  - simpl. tauto.
  - discriminate.
  - reflexivity.
Defined.

(** ** Small sites *)

(** X13. When the request for the start URL fails, [parsePages] returns the
    empty mapping after one pass: the start URL is deleted and nothing else
    was ever known. *)
Theorem failed_start_gives_empty_map {L : Library}
    loader startUrl budget exts env st0 loader' got fuel :
  parsePages_start loader startUrl budget exts = Ok (env, st0) ->
  loader_get (st_loader st0) startUrl false = Ok (loader', got) ->
  page got = None ->
  (2 <= fuel)%nat ->
  parsePages fuel loader startUrl budget exts = Some (Ok []).
Proof.
  intros Hstart Hget Hpage Hfuel. unfold parsePages. rewrite Hstart.
  apply parsePages_start_Ok in Hstart. destruct Hstart as (_ & _ & _ & Hpm & Hreds).
  destruct fuel as [|[|fuel]]; try lia.
  cbn [crawl]. rewrite Hpm.
  unfold getUrlToProcess at 1. simpl. rewrite String.eqb_refl.
  unfold iteration. rewrite Hget. simpl. rewrite Hpage, Hpm.
  unfold dict_del, dict_mem, dict_remove. simpl. rewrite String.eqb_refl. simpl.
  reflexivity.
Qed.

Lemma failed_start_gives_empty_map_witness :
  parsePages (L := Site.site) 2 0%nat "http://h/gone" 1000 [] = Some (Ok []).
Proof.
  refine (@failed_start_gives_empty_map Site.site 0%nat "http://h/gone" 1000 []
            (Site.env_of "h" 1000) (Site.start_of "http://h/gone") 2%nat
            (Site.web "http://h/gone") 2%nat _ _ _ _); reflexivity.
Defined.





(** ** What the returned mapping holds *)

Section Fetched.

Context {L : Library}.
Variable respond : string -> Loaded datetime.
Hypothesis loader_respond :
  forall l u l' got, loader_get l u false = Ok (l', got) -> got = respond u.

Lemma fetched_iteration (env : Env) url (st st' : State) :
  (forall k d, In (k, Date d) (st_pageMap st) ->
     d = date (respond k) /\ page (respond k) <> None /\
     truthy (redirect (respond k)) = false) ->
  iteration env url st = Ok st' ->
  forall k d, In (k, Date d) (st_pageMap st') ->
     d = date (respond k) /\ page (respond k) <> None /\
     truthy (redirect (respond k)) = false.
Proof.
  intros Hold Hit k d Hin. apply iteration_cases in Hit.
  destruct Hit as (loader' & got & Hget & _ & Hit).
  apply loader_respond in Hget. subst got.
  destruct Hit as [(_ & _ & Hpm & _) | [(_ & _ & _ & _ & Hpm) | Hsucc]].
  - rewrite Hpm in Hin. apply In_remove in Hin. now apply Hold.
  - destruct Hpm as [Hpm | (newUrl & _ & _ & _ & _ & Hpm)]; rewrite Hpm in Hin.
    + apply In_remove in Hin. now apply Hold.
    + apply in_app_iff in Hin. destruct Hin as [Hin|[Hin|[]]]; [|discriminate].
      apply In_remove in Hin. now apply Hold.
  - destruct Hsucc as (pg & srv & Hpg & Hred & _ & _ & Hg & _).
    apply grows_prefix in Hg. destruct Hg as (added & Heq & Hall).
    rewrite Heq in Hin. apply in_app_iff in Hin. destruct Hin as [Hin|Hin].
    + apply In_dict_set in Hin. destruct Hin as [[-> Hv]|Hin]; [|now apply Hold].
      inversion Hv. subst d. repeat split; auto. congruence.
    + rewrite Forall_forall in Hall. specialize (Hall _ Hin). discriminate.
Qed.

Lemma fetched_run (env : Env) n : forall st st' : State,
  (forall k d, In (k, Date d) (st_pageMap st) ->
     d = date (respond k) /\ page (respond k) <> None /\
     truthy (redirect (respond k)) = false) ->
  run n env st = Some st' ->
  forall k d, In (k, Date d) (st_pageMap st') ->
     d = date (respond k) /\ page (respond k) <> None /\
     truthy (redirect (respond k)) = false.
Proof.
  induction n as [|n IH]; simpl; intros st st' Hold H.
  - inversion H. now subst.
  - destruct (loop_body env st) as [st1|] eqn:E; [|discriminate].
    apply loop_body_Some in E. destruct E as (url & Hurl & Hit).
    apply (IH st1 st'); auto. eapply fetched_iteration; eauto.
Qed.

End Fetched.

(** X16. When the loader answers by the URL alone, every entry of the mapping
    that [parsePages] returns is a URL for which the loader gave a page and
    no redirect, and its value is the date of that answer: URLs that failed
    or redirected are not in the sitemap. *)
Theorem sitemap_lists_fetched_pages {L : Library}
    (respond : string -> Loaded datetime) fuel loader startUrl budget exts pm k v :
  (forall l u l' got, loader_get l u false = Ok (l', got) -> got = respond u) ->
  parsePages fuel loader startUrl budget exts = Some (Ok pm) ->
  In (k, v) pm ->
  v = Date (date (respond k)) /\
  page (respond k) <> None /\
  truthy (redirect (respond k)) = false.
Proof.
  intros Hresp H Hin. unfold parsePages in H.
  destruct (parsePages_start loader startUrl budget exts) as [[env st0]|e] eqn:Hstart;
    [|discriminate].
  pose proof (Inv_start _ _ _ _ Hstart) as Hinv0.
  apply parsePages_start_Ok in Hstart. destruct Hstart as (_ & _ & _ & Hpm & _).
  apply crawl_run in H. destruct H as (n & st & Hrun & <- & Hnone).
  pose proof (Inv_run _ Hinv0 Hrun) as Hinv.
  pose proof (@getUrlToProcess_None _ (st_pageMap st) (inv_nodup Hinv) Hnone) as Hvis.
  destruct v as [|d]; [exfalso; now apply (Hvis k EMPTY)|].
  assert (H : d = date (respond k) /\ page (respond k) <> None /\
              truthy (redirect (respond k)) = false).
  { apply (@fetched_run L respond Hresp env n st0 st); auto.
    rewrite Hpm. intros k' d' [Hk|[]]. discriminate. }
  destruct H as (-> & H2 & H3). auto.
Qed.

Lemma sitemap_lists_fetched_pages_witness :
  (forall (l : @Loader Site.site) u l' got,
     loader_get l u false = Ok (l', got) -> got = Site.web u) /\
  parsePages (L := Site.site) 20 0%nat "http://h/" 1000 []
    = Some (Ok [("http://h/", Site.seen 1); ("http://h/a", Site.seen 2);
                ("http://h/bad", Site.seen 4); ("http://h/new", Site.seen 3)]) /\
  Site.seen 3 = Date (L := Site.site) (date (Site.web "http://h/new")).
Proof.
  assert (H1 : forall (l : @Loader Site.site) u l' got,
             loader_get l u false = Ok (l', got) -> got = Site.web u)
    by (intros l u l' got H; inversion H; reflexivity).
  assert (H2 : parsePages (L := Site.site) 20 0%nat "http://h/" 1000 []
    = Some (Ok [("http://h/", Site.seen 1); ("http://h/a", Site.seen 2);
                ("http://h/bad", Site.seen 4); ("http://h/new", Site.seen 3)]))
    by reflexivity.
  split; [exact H1|]. split; [exact H2|].
  refine (proj1 (@sitemap_lists_fetched_pages Site.site Site.web 20%nat 0%nat
                   "http://h/" 1000 [] _ "http://h/new" (Site.seen 3) H1 H2 _)).
  simpl. tauto.
Defined.

(* ================================================================== *)
(** * RateLimit *)







(** X19. The first request after the limiter is built is not delayed, as
    long as the clock has not run backwards; and a rate that is not
    positive switches the limiter off for good. *)
Theorem ratelimit_first_request {B : Builtins}
    (float_le_zero : pyfloat -> bool) (ns_per_request : pyfloat -> Z)
    (rate : pyfloat) (built now : Z) :
  built <= now ->
  snd (RateLimit_sleep (RateLimit_init float_le_zero ns_per_request rate built) now)
    = None /\
  (float_le_zero rate = true ->
   forall t, RateLimit_sleep (RateLimit_init float_le_zero ns_per_request rate built) t
             = (Unlimited, None)).
Proof.
  intro Hclock. unfold RateLimit_init. split.
  - destruct (float_le_zero rate); simpl; auto.
    destruct (ns_per_request rate =? 0); simpl; auto.
    destruct (built - ns_per_request rate + ns_per_request rate - now >? 0) eqn:E;
      simpl; auto.
    rewrite Z.gtb_ltb in E. apply Z.ltb_lt in E. lia.
  - intros Hle t. now rewrite Hle.
Qed.

Lemma ratelimit_first_request_witness :
  70 <= 75 /\
  snd (RateLimit_sleep
         (RateLimit_init (B := Site.builtins) (fun r => r <=? 0) (fun r => 10000000000 / r)
            20 70) 75) = None.
Proof.
  assert (H : 70 <= 75) by lia.
  split; [exact H|].
  exact (proj1 (@ratelimit_first_request Site.builtins
                  (fun r => r <=? 0) (fun r => 10000000000 / r) 20 70 75 H)).
Defined.

(* ================================================================== *)
(** * generateSitemapFile *)

(** ** The order of strings *)

Lemma string_append_assoc (a b c : string) :
  ((a ++ b) ++ c)%string = (a ++ (b ++ c))%string.
Proof. induction a as [|x a IH]; simpl; auto. now rewrite IH. Qed.

Lemma string_append_nil_r (a : string) : (a ++ "")%string = a.
Proof. induction a as [|x a IH]; simpl; auto. now rewrite IH. Qed.

Lemma ascii_compare_trans_lt (x y z : ascii) :
  Ascii.compare x y = Lt -> Ascii.compare y z = Lt -> Ascii.compare x z = Lt.
Proof.
  unfold Ascii.compare. rewrite !N.compare_lt_iff. lia.
Qed.

Lemma string_compare_not_Gt_trans (a : string) : forall b c,
  String.compare a b <> Gt -> String.compare b c <> Gt -> String.compare a c <> Gt.
Proof.
  induction a as [|x a IH]; intros b c Hab Hbc.
  - destruct c; simpl; discriminate.
  - destruct b as [|y b]; [simpl in Hab; congruence|].
    destruct c as [|z c]; [simpl in Hbc; congruence|].
    simpl in *.
    destruct (Ascii.compare x y) eqn:Exy; try congruence;
      destruct (Ascii.compare y z) eqn:Eyz; try congruence.
    + apply Ascii.compare_eq_iff in Exy, Eyz. subst.
      replace (Ascii.compare z z) with Eq
        by (symmetry; unfold Ascii.compare; apply N.compare_refl).
      now apply (IH b c).
    + apply Ascii.compare_eq_iff in Exy. subst. rewrite Eyz. discriminate.
    + apply Ascii.compare_eq_iff in Eyz. subst. rewrite Exy. discriminate.
    + rewrite (ascii_compare_trans_lt _ _ _ Exy Eyz). discriminate.
Qed.

Lemma string_leb_trans (a b c : string) :
  String.leb a b = true -> String.leb b c = true -> String.leb a c = true.
Proof.
  unfold String.leb. intros Hab Hbc.
  assert (H : String.compare a c <> Gt).
  { apply (string_compare_not_Gt_trans a b c).
    - destruct (String.compare a b); congruence.
    - destruct (String.compare b c); congruence. }
  destruct (String.compare a c); congruence.
Qed.

Lemma string_leb_false (a b : string) : String.leb a b = false -> String.leb b a = true.
Proof.
  intro H. destruct (String.leb_total a b); congruence.
Qed.

Lemma string_leb_ltb (a b : string) :
  String.leb a b = true -> a <> b -> String.ltb a b = true.
Proof.
  unfold String.leb, String.ltb. intros H Hne.
  destruct (String.compare a b) eqn:E; auto.
  apply String.compare_eq_iff in E. contradiction.
Qed.

(** ** sorted *)

Lemma insert_sorted_perm x l : Permutation (insert_sorted x l) (x :: l).
Proof.
  induction l as [|y r IH]; simpl; auto.
  destruct (String.leb x y); auto.
  eapply perm_trans; [apply perm_skip, IH | apply perm_swap].
Qed.

Lemma sorted_perm l : Permutation (sorted l) l.
Proof.
  induction l as [|x r IH]; simpl; auto.
  eapply perm_trans; [apply insert_sorted_perm | now apply perm_skip].
Qed.

Lemma insert_sorted_comm x y l :
  insert_sorted x (insert_sorted y l) = insert_sorted y (insert_sorted x l).
Proof.
  induction l as [|z r IH]; simpl.
  - destruct (String.leb x y) eqn:Exy, (String.leb y x) eqn:Eyx; auto.
    + now rewrite (String.leb_antisym _ _ Exy Eyx).
    + apply string_leb_false in Exy. congruence.
  - destruct (String.leb y z) eqn:Eyz, (String.leb x z) eqn:Exz; simpl.
    + destruct (String.leb x y) eqn:Exy, (String.leb y x) eqn:Eyx;
        rewrite ?Exz, ?Eyz; auto.
      * now rewrite (String.leb_antisym _ _ Exy Eyx).
      * apply string_leb_false in Exy. congruence.
    + destruct (String.leb x y) eqn:Exy.
      * rewrite (string_leb_trans _ _ _ Exy Eyz) in Exz. discriminate.
      * now rewrite Exz, Eyz.
    + destruct (String.leb y x) eqn:Eyx.
      * rewrite (string_leb_trans _ _ _ Eyx Exz) in Eyz. discriminate.
      * now rewrite Exz, Eyz.
    + now rewrite Exz, Eyz, IH.
Qed.

Lemma sorted_Permutation l l' : Permutation l l' -> sorted l = sorted l'.
Proof.
  induction 1 as [| x l l' H IH | x y l | l l' l'' H1 IH1 H2 IH2]; simpl; auto.
  - now rewrite IH.
  - apply insert_sorted_comm.
  - congruence.
Qed.

Lemma insert_sorted_StronglySorted x l :
  StronglySorted (fun a b => String.leb a b = true) l ->
  StronglySorted (fun a b => String.leb a b = true) (insert_sorted x l).
Proof.
  induction 1 as [|y r Hr IH Hy]; simpl.
  - repeat constructor.
  - destruct (String.leb x y) eqn:E.
    + constructor; [now constructor|].
      constructor; auto. rewrite Forall_forall in *. intros z Hz.
      eapply string_leb_trans; eauto.
    + constructor; auto.
      apply string_leb_false in E.
      rewrite Forall_forall in *. intros z Hz.
      apply (Permutation_in _ (insert_sorted_perm x r)) in Hz.
      destruct Hz as [<-|Hz]; auto.
Qed.

Lemma sorted_StronglySorted l :
  StronglySorted (fun a b => String.leb a b = true) (sorted l).
Proof.
  induction l as [|x r IH]; simpl; [constructor|].
  now apply insert_sorted_StronglySorted.
Qed.

Lemma StronglySorted_strict l :
  NoDup l ->
  StronglySorted (fun a b => String.leb a b = true) l ->
  StronglySorted (fun a b => String.ltb a b = true) l.
Proof.
  intros Hnd Hs. induction Hs as [|x r Hr IH Hx]; constructor.
  - apply IH. now inversion Hnd.
  - inversion Hnd as [|? ? Hnot _]. subst.
    rewrite Forall_forall in *. intros z Hz.
    apply string_leb_ltb; auto. intro; subst. contradiction.
Qed.

(** ** escape *)

Lemma replace_char_app old new a b :
  replace_char old new (a ++ b)%string
  = (replace_char old new a ++ replace_char old new b)%string.
Proof.
  induction a as [|c a IH]; simpl; auto.
  destruct (Ascii.eqb c old); simpl; rewrite IH; auto.
  now rewrite string_append_assoc.
Qed.

(** X20. The three replacements of [escape] come to one pass over the text
    that writes [&amp;], [&gt;] and [&lt;] for the three characters and
    copies the others: the ampersands of the entities it writes are not
    escaped again, and the escaped text has no [<] and no [>]. *)
Theorem escape_char_by_char (s : string) :
  escape s = escape_chars s /\
  Forall (fun c => c <> "<"%char /\ c <> ">"%char) (list_ascii_of_string (escape s)).
Proof.
  assert (Heq : escape s = escape_chars s).
  { unfold escape. induction s as [|c r IH]; simpl; auto.
    unfold escape_char.
    destruct (Ascii.eqb c "&") eqn:E1.
    - simpl. now rewrite IH.
    - destruct (Ascii.eqb c ">") eqn:E2.
      + simpl. rewrite E2. simpl. now rewrite IH.
      + simpl. rewrite E2. simpl.
        destruct (Ascii.eqb c "<") eqn:E3; simpl; now rewrite IH. }
  split; [exact Heq|]. rewrite Heq. clear Heq.
  induction s as [|c r IH]; simpl; [constructor|].
  unfold escape_char.
  destruct (Ascii.eqb c "&") eqn:E1; [|destruct (Ascii.eqb c ">") eqn:E2;
                                       [|destruct (Ascii.eqb c "<") eqn:E3]]; simpl.
  - repeat (constructor; [split; discriminate|]). exact IH.
  - repeat (constructor; [split; discriminate|]). exact IH.
  - repeat (constructor; [split; discriminate|]). exact IH.
  - constructor; auto. apply Ascii.eqb_neq in E2, E3. auto.
Qed.

(** ** The file *)

Section SitemapFacts.

Context {L : Library} {B : Builtins}.
Variable year month day : datetime -> Z.
Variable float_gt_zero : pyfloat -> bool.
Variable fmt_1f : pyfloat -> string.

Lemma fold_left_append (f : string -> string) (l : list string) : forall acc,
  fold_left (fun fw i => (fw ++ f i)%string) l acc
  = (acc ++ join_strings (map f l))%string.
Proof.
  induction l as [|x l IH]; intro acc; simpl.
  - now rewrite string_append_nil_r.
  - now rewrite IH, string_append_assoc.
Qed.

Lemma dict_get_Permutation (pm pm' : PageMap) k :
  NoDup (keys pm) -> Permutation pm pm' -> In k (keys pm) ->
  dict_get k pm' = dict_get k pm.
Proof.
  intros Hnd Hp Hk. unfold keys in Hk. apply in_map_iff in Hk.
  destruct Hk as ([k' v] & Hfst & Hin). simpl in Hfst. subst k'.
  assert (Hnd' : NoDup (keys pm')).
  { eapply Permutation_NoDup; [|exact Hnd]. unfold keys. now apply Permutation_map. }
  rewrite (@dict_get_NoDup _ k pm v Hnd Hin).
  apply dict_get_NoDup; auto. eapply Permutation_in; eauto.
Qed.

(** X21. The text of the sitemap does not depend on the order of the
    entries in the mapping: two mappings with the same entries give the same
    file. *)
Theorem sitemap_is_order_independent (pm pm' : PageMap) changefreq priority :
  NoDup (keys pm) ->
  Permutation pm pm' ->
  generateSitemapFile year month day float_gt_zero fmt_1f pm changefreq priority
  = generateSitemapFile year month day float_gt_zero fmt_1f pm' changefreq priority.
Proof.
  intros Hnd Hp. unfold generateSitemapFile.
  assert (Hk : Permutation (keys pm) (keys pm')).
  { unfold keys. now apply Permutation_map. }
  rewrite <- (sorted_Permutation Hk), !fold_left_append.
  do 2 f_equal. f_equal. apply map_ext_in. intros k Hin.
  apply (Permutation_in _ (sorted_perm (keys pm))) in Hin.
  unfold url_element. now rewrite (dict_get_Permutation k Hnd Hp Hin).
Qed.

(** X22. The sitemap has one [url] element for every key of the mapping, and
    the elements stand in strictly ascending order of the keys, between the
    header and the closing tag. *)
Theorem sitemap_lists_keys_in_order (pm : PageMap) changefreq priority :
  NoDup (keys pm) ->
  exists ks,
    Permutation ks (keys pm) /\
    StronglySorted (fun a b => String.ltb a b = true) ks /\
    generateSitemapFile year month day float_gt_zero fmt_1f pm changefreq priority
    = (sitemap_header
       ++ join_strings
            (map (url_element year month day float_gt_zero fmt_1f pm changefreq priority) ks)
       ++ "</urlset>" ++ nl)%string.
Proof.
  intro Hnd. exists (sorted (keys pm)). split; [apply sorted_perm|]. split.
  - apply StronglySorted_strict; [|apply sorted_StronglySorted].
    eapply Permutation_NoDup; [|exact Hnd]. apply Permutation_sym, sorted_perm.
  - unfold generateSitemapFile. rewrite fold_left_append.
    now rewrite string_append_assoc.
Qed.

End SitemapFacts.

Lemma sitemap_is_order_independent_witness :
  generateSitemapFile (L := Site.site) (B := Site.builtins)
    (fun _ => 2020) (fun _ => 3) (fun d => Z.of_nat d) (fun p => (0 <? p)%Z) (fun _ => "0.5")
    [("http://h/b", Site.seen 14); ("http://h/a", Site.unseen)] "weekly" 5
  = generateSitemapFile (L := Site.site) (B := Site.builtins)
      (fun _ => 2020) (fun _ => 3) (fun d => Z.of_nat d) (fun p => (0 <? p)%Z) (fun _ => "0.5")
      [("http://h/a", Site.unseen); ("http://h/b", Site.seen 14)] "weekly" 5.
Proof.
  refine (@sitemap_is_order_independent Site.site Site.builtins
            (fun _ => 2020) (fun _ => 3) (fun d => Z.of_nat d) (fun p => (0 <? p)%Z)
            (fun _ => "0.5")
            [("http://h/b", Site.seen 14); ("http://h/a", Site.unseen)]
            [("http://h/a", Site.unseen); ("http://h/b", Site.seen 14)] "weekly" 5 _ _).
  - simpl. repeat constructor; simpl; intuition discriminate.
  - apply perm_swap.
Defined.

Lemma sitemap_lists_keys_in_order_witness :
  exists ks,
    Permutation ks (keys [("http://h/b", Site.seen 14); ("http://h/a", Site.unseen)]) /\
    StronglySorted (fun a b => String.ltb a b = true) ks /\
    generateSitemapFile (L := Site.site) (B := Site.builtins)
      (fun _ => 2020) (fun _ => 3) (fun d => Z.of_nat d) (fun p => (0 <? p)%Z) (fun _ => "0.5")
      [("http://h/b", Site.seen 14); ("http://h/a", Site.unseen)] "" 0
    = (sitemap_header
       ++ join_strings
            (map (url_element (L := Site.site) (B := Site.builtins)
                    (fun _ => 2020) (fun _ => 3) (fun d => Z.of_nat d)
                    (fun p => (0 <? p)%Z) (fun _ => "0.5")
                    [("http://h/b", Site.seen 14); ("http://h/a", Site.unseen)] "" 0) ks)
       ++ "</urlset>" ++ nl)%string.
Proof.
  refine (@sitemap_lists_keys_in_order Site.site Site.builtins
            (fun _ => 2020) (fun _ => 3) (fun d => Z.of_nat d) (fun p => (0 <? p)%Z)
            (fun _ => "0.5")
            [("http://h/b", Site.seen 14); ("http://h/a", Site.unseen)] "" 0 _).
  simpl. repeat constructor; simpl; intuition discriminate.
Defined.

(* ================================================================== *)
(** * HTMLLoad *)

Section LoadFacts.

Context {L : Library} {W : Web}.

Lemma handle_redirect_Some (self self' : HTMLLoad.t) resp :
  HTMLLoad._handle_redirect self resp = Ok (Some self') ->
  exists loc parts r,
    location resp = Some loc /\ loc <> "" /\
    urlparse loc = Ok parts /\
    In (scheme parts) ["http"; "https"; "ftp"; ""] /\
    self' = HTMLLoad.mk (HTMLLoad.session self) (HTMLLoad.ratelimit self)
              (HTMLLoad.page self) (HTMLLoad.status self) (HTMLLoad.date self) (Some r).
Proof.
  unfold HTMLLoad._handle_redirect.
  destruct (location resp) as [loc|]; [|discriminate].
  destruct (String.eqb loc "") eqn:E0; [discriminate|].
  apply String.eqb_neq in E0. intro H.
  bind_inv H as parts Hparts.
  destruct (str_in (scheme parts) ["http"; "https"; "ftp"; ""]) eqn:Es;
    simpl in H; [|discriminate].
  apply str_in_In in Es.
  bind_inv H as u1 Hu1. bind_inv H as u2 Hu2. bind_inv H as r Hr.
  inversion H. exists loc, parts, r. repeat split; auto.
Qed.

(** The shapes in which [get] can leave the object. *)
Lemma get_cases (self self' : HTMLLoad.t) u ar now ns p :
  HTMLLoad.get self u ar now ns = Ok (self', p) ->
  p = HTMLLoad.page self' /\
  exists d, HTMLLoad.date self' = Some d /\
  ((p = None /\ HTMLLoad.redirect self' = None) \/
   (exists resp,
      snd (session_get (HTMLLoad.session self) u ar) = Some resp /\
      p = Some (content resp) /\
      HTMLLoad.status self' = status_code resp /\
      d = match HTMLLoad.str_or (last_modified resp) (date_header resp) with
          | Some text =>
              if String.eqb text "" then now
              else match strptime text with Some d' => d' | None => now end
          | None => now
          end /\
      ((HTMLLoad.redirect self' = None /\
        existsb (Z.eqb (status_code resp)) [301; 302; 303; 307] = false /\
        raises_for_status resp = false) \/
       (exists loc parts r,
          HTMLLoad.redirect self' = Some r /\
          existsb (Z.eqb (status_code resp)) [301; 302; 303; 307] = true /\
          location resp = Some loc /\ loc <> "" /\
          urlparse loc = Ok parts /\
          In (scheme parts) ["http"; "https"; "ftp"; ""])))).
Proof.
  unfold HTMLLoad.get. simpl.
  destruct (session_get (HTMLLoad.session self) u ar) as [session' answer]. simpl.
  destruct answer as [resp|].
  2:{ intro H. inversion H. subst. simpl. split; auto. exists now. auto. }
  intro H. bind_inv H as checked Hchecked.
  destruct checked as [self1|].
  2:{ inversion H. subst. simpl. split; auto. exists now. auto. }
  assert (Hshape : exists rd,
            self1 = HTMLLoad.mk session'
                      (fst (RateLimit_sleep (HTMLLoad.ratelimit self) ns))
                      None (status_code resp) (Some now) rd /\
            ((rd = None /\
              existsb (Z.eqb (status_code resp)) [301; 302; 303; 307] = false /\
              raises_for_status resp = false) \/
             (exists loc parts r,
                rd = Some r /\
                existsb (Z.eqb (status_code resp)) [301; 302; 303; 307] = true /\
                location resp = Some loc /\ loc <> "" /\
                urlparse loc = Ok parts /\
                In (scheme parts) ["http"; "https"; "ftp"; ""]))).
  { change ((status_code resp =? 301)
            || ((status_code resp =? 302)
                || ((status_code resp =? 303) || ((status_code resp =? 307) || false))))%bool
      with (existsb (Z.eqb (status_code resp)) [301; 302; 303; 307]) in Hchecked.
    destruct (existsb (Z.eqb (status_code resp)) [301; 302; 303; 307]) eqn:Ecode.
    - apply handle_redirect_Some in Hchecked.
      destruct Hchecked as (loc & parts & r & H1 & H2 & H3 & H4 & H5).
      simpl in H5. exists (Some r). split; auto.
      right. exists loc, parts, r. repeat split; auto.
    - destruct (raises_for_status resp) eqn:Eraise; [discriminate|].
      inversion Hchecked. exists None. auto. }
  destruct Hshape as (rd & -> & Hrd). simpl in H.
  set (d := match HTMLLoad.str_or (last_modified resp) (date_header resp) with
            | Some text =>
                if String.eqb text "" then now
                else match strptime text with Some d' => d' | None => now end
            | None => now
            end).
  assert (Hself : self' = HTMLLoad.mk session'
                            (fst (RateLimit_sleep (HTMLLoad.ratelimit self) ns))
                            (Some (content resp)) (status_code resp) (Some d) rd
                  /\ p = Some (content resp)).
  { unfold d. destruct (HTMLLoad.str_or (last_modified resp) (date_header resp))
      as [text|]; [|inversion H; auto].
    destruct (String.eqb text ""); [inversion H; auto|].
    destruct (strptime text); inversion H; auto. }
  destruct Hself as [-> ->]. simpl. split; auto.
  exists d. split; auto. right. exists resp. repeat split; auto.
Qed.

End LoadFacts.

(** X23. After [get] the attributes of the loader agree with each other: the
    value returned is [self.page]; [self.date] is set; when no page is
    returned there is no redirect either; and a redirect is recorded only
    with a page and one of the statuses 301, 302, 303 and 307. So the
    [elif loader.redirect] of [parsePages] never reads a stale redirect. *)
Theorem get_outcome_is_consistent {L : Library} {W : Web}
    (self self' : HTMLLoad.t) u ar now ns p :
  HTMLLoad.get self u ar now ns = Ok (self', p) ->
  p = HTMLLoad.page self' /\
  HTMLLoad.date self' <> None /\
  (p = None -> HTMLLoad.redirect self' = None) /\
  (forall r, HTMLLoad.redirect self' = Some r ->
             p <> None /\ In (HTMLLoad.status self') [301; 302; 303; 307]).
Proof.
  intro H. apply get_cases in H. destruct H as (Hp & d & Hd & Hcases).
  split; [exact Hp|]. split; [congruence|].
  destruct Hcases as [(Hnone & Hred) | (resp & _ & Hsome & Hst & _ & Hred)].
  - split; [auto|]. intros r Hr. congruence.
  - split; [intro; congruence|]. intros r Hr.
    destruct Hred as [(Hno & _) | (loc & parts & r' & _ & Hcode & _)]; [congruence|].
    split; [congruence|]. rewrite Hst.
    apply existsb_exists in Hcode. destruct Hcode as (c & Hin & Heq).
    apply Z.eqb_eq in Heq. now subst.
Qed.

Lemma get_outcome_is_consistent_witness :
  HTMLLoad.get Wire.fresh "http://h/old" false (Wire.day 9) 0
    = Ok (Wire.loader 1 Unlimited (Some []) 301 (Some 9%nat) (Some "http://h/"), Some []) /\
  In 301 [301; 302; 303; 307].
Proof.
  assert (H : HTMLLoad.get Wire.fresh "http://h/old" false (Wire.day 9) 0
    = Ok (Wire.loader 1 Unlimited (Some []) 301 (Some 9%nat) (Some "http://h/"), Some []))
    by reflexivity.
  split; [exact H|].
  exact (proj2 (proj2 (proj2 (proj2
           (@get_outcome_is_consistent Site.site Wire.web _ _ _ _ _ _ _ H)))
           "http://h/" eq_refl)).
Defined.

(** X24. A redirect is recorded only for a Location header that is not
    empty and whose scheme is [http], [https], [ftp] or none: a redirect to
    any other scheme counts as a failed request. *)
Theorem redirect_scheme_is_checked {L : Library} {W : Web}
    (self self' : HTMLLoad.t) u ar now ns p r :
  HTMLLoad.get self u ar now ns = Ok (self', p) ->
  HTMLLoad.redirect self' = Some r ->
  exists resp loc parts,
    snd (session_get (HTMLLoad.session self) u ar) = Some resp /\
    location resp = Some loc /\ loc <> "" /\
    urlparse loc = Ok parts /\
    In (scheme parts) ["http"; "https"; "ftp"; ""].
Proof.
  intros H Hr. apply get_cases in H. destruct H as (_ & d & _ & Hcases).
  destruct Hcases as [(_ & Hred) | (resp & Hresp & _ & _ & _ & Hred)]; [congruence|].
  destruct Hred as [(Hno & _) | (loc & parts & r' & _ & _ & H1 & H2 & H3 & H4)];
    [congruence|].
  exists resp, loc, parts. repeat split; auto.
Qed.

Lemma redirect_scheme_is_checked_witness :
  HTMLLoad.get Wire.fresh "http://h/old" false (Wire.day 9) 0
    = Ok (Wire.loader 1 Unlimited (Some []) 301 (Some 9%nat) (Some "http://h/"), Some []) /\
  exists resp loc parts,
    snd (@session_get Site.site Wire.web (HTMLLoad.session Wire.fresh) "http://h/old" false)
      = Some resp /\
    location resp = Some loc /\ loc <> "" /\
    @urlparse Site.site Wire.web loc = Ok parts /\
    In (scheme parts) ["http"; "https"; "ftp"; ""].
Proof.
  assert (H : HTMLLoad.get Wire.fresh "http://h/old" false (Wire.day 9) 0
    = Ok (Wire.loader 1 Unlimited (Some []) 301 (Some 9%nat) (Some "http://h/"), Some []))
    by reflexivity.
  split; [exact H|].
  exact (@redirect_scheme_is_checked Site.site Wire.web _ _ _ _ _ _ _ "http://h/"
           H eq_refl).
Defined.

(** X25. The date of a fetched page comes from the Last-Modified header
    whenever that header is there and not empty: if its text cannot be
    parsed the date is the time of the fetch, and the Date header is not
    tried. *)
Theorem last_modified_decides_date {L : Library} {W : Web}
    (self self' : HTMLLoad.t) u ar now ns session' resp text :
  session_get (HTMLLoad.session self) u ar = (session', Some resp) ->
  last_modified resp = Some text ->
  text <> "" ->
  HTMLLoad.get self u ar now ns = Ok (self', Some (content resp)) ->
  HTMLLoad.date self' = Some (match strptime text with Some d => d | None => now end).
Proof.
  intros Hsess Hlm Htext H. apply get_cases in H.
  destruct H as (_ & d & Hd & Hcases).
  destruct Hcases as [(Hnone & _) | (resp' & Hresp & _ & _ & Hdate & _)]; [discriminate|].
  rewrite Hsess in Hresp. simpl in Hresp. inversion Hresp. subst resp'.
  rewrite Hd, Hdate. unfold HTMLLoad.str_or. rewrite Hlm. simpl.
  apply String.eqb_neq in Htext. rewrite Htext. simpl. now rewrite Htext.
Qed.

Lemma last_modified_decides_date_witness :
  HTMLLoad.date
    (Wire.loader 1 Unlimited (Some []) 200 (Some 9%nat) None)
  = Some (match strptime (Web := Wire.web) "yesterday" with
          | Some d => d
          | None => Wire.day 9
          end).
Proof.
  refine (@last_modified_decides_date Site.site Wire.web Wire.fresh _
            "http://h/stale" false (Wire.day 9) 0 1%nat
            (mkResponse 200 "http://h/stale" None
               (Some "yesterday") (Some "Wed, 04 Mar 2020 10:00:00 GMT") [])
            "yesterday" _ _ _ _); try reflexivity.
  discriminate.
Defined.
